(** * db-chatbot: the query processing pipeline

    A shallow embedding of the safety validator ([src/utils/security.py]),
    the validation agent ([src/agents/validation_agent.py]), the schema
    agent ([src/agents/schema_agent.py]), the connector's schema cache
    ([src/database/base.py]) and the orchestrator ([src/orchestrator.py]).

    Modelling conventions.
    - A Python [str] is a list of characters.  The character functions
      below ([upper], [lower], whitespace, digits, word characters) are
      those of CPython on code points below 128.  Beyond that range
      Python's classes are Unicode's (U+00A0 is a blank, U+00E9 a word
      character, case mappings leave the range), so a statement that
      depends on these classes is made for texts under [isascii],
      Python's [str.isascii()].
    - A Python [int] is a [Z]; [float] scores are exact rationals ([Q]).
      [int(s)] and [str(n)] raise beyond 4300 digits, as CPython does.
    - An exception is [Raise] with its message; a function that can raise
      returns an [outcome].
    - [re] patterns are kept as their source text and compiled by
      [re_compile] to a list of pieces run by a backtracking matcher.
    - Logging and wall-clock stamps carry no control flow and are left out. *)

From Stdlib Require Import List Ascii String ZArith QArith Bool Lia Lqa.
From Stdlib Require DecimalString Decimal DecimalZ.
Import ListNotations.

Close Scope Q_scope.
Open Scope string_scope.
Open Scope list_scope.

(** ** Python strings *)

Definition str := list ascii.

Coercion list_ascii_of_string : string >-> list.

(** What a call that can raise gives: a value, or the exception with its
    message. *)
Inductive outcome (A : Type) : Type :=
| Ok (a : A)
| Raise (msg : str).

Arguments Ok {A} a.
Arguments Raise {A} msg.

(** [f] on the value of [o]; an exception of [o] goes through. *)
Definition and_then {A B : Type} (o : outcome A) (f : A -> outcome B)
    : outcome B :=
  match o with
  | Ok a => f a
  | Raise e => Raise e
  end.

Module PyStr.

Definition code (c : ascii) : nat := nat_of_ascii c.

Definition between (lo hi : nat) (c : ascii) : bool :=
  (lo <=? code c)%nat && (code c <=? hi)%nat.

Definition is_upper (c : ascii) : bool := between 65 90 c.
Definition is_lower (c : ascii) : bool := between 97 122 c.
Definition is_digit (c : ascii) : bool := between 48 57 c.

(** [str.isspace] on one character: TAB..CR, FS..US and the blank. *)
Definition is_space (c : ascii) : bool :=
  between 9 13 c || between 28 32 c.

(** [\w]: letters, digits and the underscore. *)
Definition is_word (c : ascii) : bool :=
  is_upper c || is_lower c || is_digit c || (code c =? 95)%nat.

Definition upper_char (c : ascii) : ascii :=
  if is_lower c then ascii_of_nat (code c - 32) else c.

Definition lower_char (c : ascii) : ascii :=
  if is_upper c then ascii_of_nat (code c + 32) else c.

Definition upper (s : str) : str := map upper_char s.
Definition lower (s : str) : str := map lower_char s.

Definition eqb (a b : str) : bool :=
  if list_eq_dec ascii_dec a b then true else false.

(** [s.startswith(p)] *)
Fixpoint startswith (s p : str) : bool :=
  match p, s with
  | [], _ => true
  | _ :: _, [] => false
  | x :: p', c :: s' => Ascii.eqb x c && startswith s' p'
  end.

(** [s.endswith(p)] *)
Definition endswith (s p : str) : bool := startswith (rev s) (rev p).

(** [sub in s] *)
Fixpoint contains (sub s : str) : bool :=
  startswith s sub ||
  match s with
  | [] => false
  | _ :: s' => contains sub s'
  end.

(** [s.count(sub)] for a non-empty [sub]: occurrences are counted from
    the left and do not overlap; [skip] is the number of characters
    still covered by the occurrence found last. *)
Fixpoint count_from (sub : str) (skip : nat) (s : str) : Z :=
  match s with
  | [] => 0%Z
  | _ :: s' =>
      match skip with
      | S n => count_from sub n s'
      | O => if startswith s sub
             then (1 + count_from sub (List.length sub - 1) s')%Z
             else count_from sub 0 s'
      end
  end.

Definition count (s sub : str) : Z := count_from sub 0 s.

(** [s.replace(old, new)] for a non-empty [old]. *)
Fixpoint replace_from (old new : str) (skip : nat) (s : str) : str :=
  match s with
  | [] => []
  | c :: s' =>
      match skip with
      | S n => replace_from old new n s'
      | O => if startswith s old
             then new ++ replace_from old new (List.length old - 1) s'
             else c :: replace_from old new 0 s'
      end
  end.

Definition replace (s old new : str) : str := replace_from old new 0 s.

Fixpoint lstrip_by (p : ascii -> bool) (s : str) : str :=
  match s with
  | c :: s' => if p c then lstrip_by p s' else s
  | [] => []
  end.

Definition rstrip_by (p : ascii -> bool) (s : str) : str :=
  rev (lstrip_by p (rev s)).

(** [s.strip()] *)
Definition strip (s : str) : str := rstrip_by is_space (lstrip_by is_space s).

(** [s.rstrip(chars)] *)
Definition rstrip (s chars : str) : str :=
  rstrip_by (fun c => existsb (Ascii.eqb c) chars) s.

(** [s.split()]: the maximal runs of non-blank characters; [cur] is the
    run being read, in reverse. *)
Fixpoint split_from (cur : str) (s : str) : list str :=
  match s with
  | [] => match cur with [] => [] | _ => [rev cur] end
  | c :: s' =>
      if is_space c
      then match cur with
           | [] => split_from [] s'
           | _ => rev cur :: split_from [] s'
           end
      else split_from (c :: cur) s'
  end.

Definition split (s : str) : list str := split_from [] s.

(** [sep.join(parts)] *)
Fixpoint join (sep : str) (parts : list str) : str :=
  match parts with
  | [] => []
  | [p] => p
  | p :: ps => p ++ sep ++ join sep ps
  end.

(** [s.isascii()] *)
Definition isascii (s : str) : bool := forallb (fun c => (code c <? 128)%nat) s.

(** The decimal numeral of [n]: what [str(n)] and the [{n}] of an
    f-string give for an [int] of at most 4300 digits. *)
Definition of_int (n : Z) : str := DecimalString.NilEmpty.string_of_int (Z.to_int n).

(** The number a string of decimal digits writes. *)
Definition int_value (s : str) : Z :=
  match DecimalString.NilEmpty.uint_of_string (string_of_list_ascii s) with
  | Some d => Z.of_uint d
  | None => 0%Z
  end.

(** [sys.get_int_max_str_digits()], CPython's default. *)
Definition MAX_STR_DIGITS : nat := 4300.

(** [int(s)] on a string of decimal digits (what [\d+] captures): a
    [ValueError] beyond [MAX_STR_DIGITS] digits, leading zeros counted. *)
Definition to_int (s : str) : outcome Z :=
  if (MAX_STR_DIGITS <? List.length s)%nat then
    Raise ("Exceeds the limit (4300 digits) for integer string conversion: value has " ++
           of_int (Z.of_nat (List.length s)) ++
           " digits; use sys.set_int_max_str_digits() to increase the limit")
  else Ok (int_value s).

(** [str(n)] and the [{n}] of an f-string where [n] is any [int]: a
    [ValueError] beyond [MAX_STR_DIGITS] digits, the sign not counted. *)
Definition format_int (n : Z) : outcome str :=
  if (MAX_STR_DIGITS <? List.length (of_int (Z.abs n)))%nat then
    Raise "Exceeds the limit (4300 digits) for integer string conversion; use sys.set_int_max_str_digits() to increase the limit"
  else Ok (of_int n).

(** [set(l)]: the elements of [l] without repetition. *)
Definition to_set (l : list str) : list str := nodup (list_eq_dec ascii_dec) l.

End PyStr.

(** ** The fragment of [re] the program uses *)

Module Re.
Import PyStr.

Inductive atom : Type :=
| Lit (c : ascii)      (* a literal character *)
| Space                (* \s *)
| Digit                (* \d *)
| AnyChar.             (* .  : anything but a newline *)

Inductive piece : Type :=
| One (a : atom)       (* a *)
| Star (a : atom)      (* a*, greedy *)
| Bnd                  (* \b *)
| GOpen                (* ( *)
| GClose.              (* ) *)

Definition regex := list piece.

(** [re.compile]: escapes [\b \s \d], any other escaped character is
    itself; [+] and [*] apply to the atom before them. *)
Definition quantify (a : atom) (rest : str) : list piece * str :=
  match rest with
  | "+"%char :: rest' => ([One a; Star a], rest')
  | "*"%char :: rest' => ([Star a], rest')
  | _ => ([One a], rest)
  end.

Fixpoint compile_fuel (n : nat) (p : str) : regex :=
  match n with
  | O => []
  | S n' =>
      match p with
      | [] => []
      | "\"%char :: "b"%char :: rest => Bnd :: compile_fuel n' rest
      | "\"%char :: "s"%char :: rest =>
          let '(ps, rest') := quantify Space rest in ps ++ compile_fuel n' rest'
      | "\"%char :: "d"%char :: rest =>
          let '(ps, rest') := quantify Digit rest in ps ++ compile_fuel n' rest'
      | "\"%char :: c :: rest =>
          let '(ps, rest') := quantify (Lit c) rest in ps ++ compile_fuel n' rest'
      | "("%char :: rest => GOpen :: compile_fuel n' rest
      | ")"%char :: rest => GClose :: compile_fuel n' rest
      | "."%char :: rest =>
          let '(ps, rest') := quantify AnyChar rest in ps ++ compile_fuel n' rest'
      | c :: rest =>
          let '(ps, rest') := quantify (Lit c) rest in ps ++ compile_fuel n' rest'
      end
  end.

Definition re_compile (p : str) : regex := compile_fuel (List.length p) p.

(** One character against an atom; [ic] is [re.IGNORECASE]. *)
Definition atom_ok (ic : bool) (a : atom) (c : ascii) : bool :=
  match a with
  | Lit x => if ic then Ascii.eqb (lower_char x) (lower_char c) else Ascii.eqb x c
  | Space => is_space c
  | Digit => is_digit c
  | AnyChar => negb (Ascii.eqb c "010"%char)
  end.

Definition word_before (prev : option ascii) : bool :=
  match prev with Some c => is_word c | None => false end.

Definition word_after (s : str) : bool :=
  match s with c :: _ => is_word c | [] => false end.

(** [\b]: exactly one side of the position is a word character. *)
Definition at_boundary (prev : option ascii) (s : str) : bool :=
  xorb (word_before prev) (word_after s).

(** The state of group 1: where it opened, and its text once closed. *)
Record groups : Type := { g_open : option str; g_text : option str }.

Definition no_groups : groups := {| g_open := None; g_text := None |}.

Definition open_group (g : groups) (s : str) : groups :=
  {| g_open := Some s; g_text := g_text g |}.

Definition close_group (g : groups) (s : str) : groups :=
  match g_open g with
  | Some s0 =>
      {| g_open := g_open g;
         g_text := Some (firstn (List.length s0 - List.length s) s0) |}
  | None => g
  end.

(** A match anchored at the current position: what follows the match and
    the text of group 1.  [prev] is the character before the position.
    Alternatives are tried in the order of a backtracking matcher: a
    greedy star first takes one more character, and gives it back if the
    rest of the pattern then fails. *)
Fixpoint match_here (ic : bool) (r : regex) (prev : option ascii) (s : str)
    (g : groups) {struct r} : option (str * option str) :=
  match r with
  | [] => Some (s, g_text g)
  | One a :: r' =>
      match s with
      | c :: s' =>
          if atom_ok ic a c then match_here ic r' (Some c) s' g else None
      | [] => None
      end
  | Star a :: r' =>
      (fix star (prev : option ascii) (s : str) {struct s} :=
         match s with
         | c :: s' =>
             if atom_ok ic a c
             then match star (Some c) s' with
                  | Some m => Some m
                  | None => match_here ic r' prev s g
                  end
             else match_here ic r' prev s g
         | [] => match_here ic r' prev s g
         end) prev s
  | Bnd :: r' =>
      if at_boundary prev s then match_here ic r' prev s g else None
  | GOpen :: r' => match_here ic r' prev s (open_group g s)
  | GClose :: r' => match_here ic r' prev s (close_group g s)
  end.

(** [re.search]: the leftmost position at which the pattern matches. *)
Fixpoint search_from (ic : bool) (r : regex) (prev : option ascii) (s : str)
    : option (str * option str) :=
  match match_here ic r prev s no_groups with
  | Some m => Some m
  | None =>
      match s with
      | [] => None
      | c :: s' => search_from ic r (Some c) s'
      end
  end.

Definition re_search (pattern : str) (s : str) (ic : bool)
    : option (str * option str) :=
  search_from ic (re_compile pattern) None s.

(** [re.sub]: every match, found from the left and not overlapping the
    one before, is replaced; [skip] counts the characters of the match
    found last that are still to be passed over.  A match of no character
    inserts the replacement and keeps the character. *)
Fixpoint sub_from (ic : bool) (r : regex) (repl : str) (skip : nat)
    (prev : option ascii) (s : str) : str :=
  match skip with
  | S n =>
      match s with
      | [] => []
      | c :: s' => sub_from ic r repl n (Some c) s'
      end
  | O =>
      match match_here ic r prev s no_groups with
      | Some (rest, _) =>
          match List.length s - List.length rest with
          | O => repl ++ match s with
                         | [] => []
                         | c :: s' => c :: sub_from ic r repl 0 (Some c) s'
                         end
          | S n => repl ++ match s with
                           | [] => []
                           | c :: s' => sub_from ic r repl n (Some c) s'
                           end
          end
      | None =>
          match s with
          | [] => []
          | c :: s' => c :: sub_from ic r repl 0 (Some c) s'
          end
      end
  end.

Definition re_sub (pattern repl s : str) (ic : bool) : str :=
  sub_from ic (re_compile pattern) repl 0 None s.

End Re.

Import PyStr Re.

(** ** [src/utils/security.py] *)

Module QuerySafetyChecker.

Definition DESTRUCTIVE_KEYWORDS : list str :=
  [ "\bDROP\s+TABLE\b" : str;
    "\bDROP\s+DATABASE\b" : str;
    "\bDROP\s+SCHEMA\b" : str;
    "\bTRUNCATE\b" : str;
    "\bDELETE\s+FROM\b" : str;
    "\bUPDATE\s+.*\s+SET\b" : str ].

Definition DANGEROUS_PATTERNS : list str :=
  [ "--" : str;
    "/\*.*\*/" : str;
    ";\s*DROP" : str;
    "EXEC\s+" : str;
    "xp_cmdshell" : str ].

(** The loop [for pattern in ...: if re.search(...): out.append(msg)]. *)
Definition scan (patterns : list str) (text prefix : str) : list str :=
  flat_map
    (fun pattern =>
       match re_search pattern text true with
       | Some _ => [prefix ++ pattern]
       | None => []
       end)
    patterns.

Definition is_destructive (sql : str) : bool * list str :=
  let sql_upper := upper sql in
  let issues :=
    scan DESTRUCTIVE_KEYWORDS sql_upper "Destructive operation detected: " in
  ((0 <? List.length issues)%nat, issues).

Definition check_dangerous_patterns (sql : str) : bool * list str :=
  let warnings :=
    scan DANGEROUS_PATTERNS sql "Potentially dangerous pattern: " in
  ((0 <? List.length warnings)%nat, warnings).

(** Returns [(is_safe, errors, warnings)]. *)
Definition validate_query (sql : str) (allow_destructive : bool)
    : bool * list str * list str :=
  let errors := [] in
  let warnings := [] in
  let '(is_destructive, destructive_issues) := is_destructive sql in
  let errors :=
    if is_destructive && negb allow_destructive
    then errors ++ destructive_issues else errors in
  let '(has_dangerous, dangerous_warnings) := check_dangerous_patterns sql in
  let warnings :=
    if has_dangerous then warnings ++ dangerous_warnings else warnings in
  let errors :=
    match strip sql with
    | [] => errors ++ ["Empty SQL query" : str]
    | _ => errors
    end in
  let errors :=
    if (1 <? count sql ";")%Z
    then errors ++ ["Multiple SQL statements not allowed" : str]
    else errors in
  let is_safe := (List.length errors =? 0)%nat in
  (is_safe, errors, warnings).

End QuerySafetyChecker.

Module RowLimitEnforcer.

(** Group 1 of a match; in [LIMIT\s+(\d+)] it takes part in every match. *)
Definition group1 (m : str * option str) : str :=
  match snd m with Some t => t | None => [] end.

Definition add_limit_clause (sql : str) (max_rows : Z) : outcome str :=
  let sql_upper := upper sql in
  let append :=
    and_then (format_int max_rows) (fun n =>
    Ok (rstrip sql ";" ++ (String "010" "LIMIT " : string) ++ n)) in
  if contains "LIMIT" sql_upper then
    match re_search "LIMIT\s+(\d+)" sql true with
    | Some limit_match =>
        and_then (to_int (group1 limit_match)) (fun existing_limit =>
        if (existing_limit <=? max_rows)%Z
        then Ok sql
        else
          and_then (format_int max_rows) (fun n =>
          Ok (re_sub "LIMIT\s+\d+" ("LIMIT " ++ n) sql true)))
    | None => append
    end
  else append.

Definition estimate_result_size (sql : str) : outcome Z :=
  match re_search "LIMIT\s+(\d+)" sql true with
  | Some limit_match => to_int (group1 limit_match)
  | None => Ok (-1)%Z
  end.

End RowLimitEnforcer.

(** [sanitize_user_input] *)
Definition sanitize_user_input (user_input : str) : str :=
  let sanitized := replace user_input "'" "''" in
  let sanitized := replace sanitized ";" [] in
  replace sanitized "--" [].

(** ** [src/models.py] *)

Inductive DatabaseType : Type :=
| SNOWFLAKE | DATABRICKS | POSTGRESQL | MYSQL.

(** The enumeration [LLMProvider] of [models.py]. *)
Inductive LLMProviderName : Type :=
| OPENAI | ANTHROPIC.

Inductive QueryStatus : Type :=
| PENDING | VALIDATING | EXECUTING | SUCCESS | FAILED | TIMEOUT.

(** One entry of [TableMetadata.columns]: the dict with keys [name],
    [type] and [nullable]. *)
Record Column : Type := {
  column_name : str;
  column_type : str;
  column_nullable : bool
}.

Record TableMetadata : Type := {
  name : str;
  schema : str;
  columns : list Column;
  row_count : option Z;
  description : option str
}.

(** [TableMetadata(name=..., schema=..., columns=..., row_count=...)] as
    the connector calls it.  pydantic checks the arguments against the
    declared types, and [columns] is declared [List[Dict[str, str]]]: an
    entry built from the inspector holds the [bool] under ["nullable"],
    which is no [str], so a list with an entry is refused with a
    [ValidationError]. *)
Definition new_TableMetadata (name schema : str) (columns : list Column)
    (row_count : option Z) : outcome TableMetadata :=
  match columns with
  | [] => Ok {| name := name; schema := schema; columns := [];
                row_count := row_count; description := None |}
  | _ :: _ => Raise "validation error for TableMetadata: columns: Input should be a valid string"
  end.

(** One entry of [SchemaContext.relationships]. *)
Record Relationship : Type := {
  from_table : str;
  from_column : str;
  to_table : str;
  to_column : str
}.

Record SchemaContext : Type := {
  tables : list TableMetadata;
  relationships : list Relationship;
  common_queries : list str;
  business_terms : list (str * str)
}.

Record SQLQuery : Type := {
  sql : str;
  explanation : option str;
  tables_used : list str;
  estimated_rows : option Z;
  confidence_score : option Q
}.

(** The assignment [sql_query.sql = s]. *)
Definition set_sql (q : SQLQuery) (s : str) : SQLQuery :=
  {| sql := s;
     explanation := explanation q;
     tables_used := tables_used q;
     estimated_rows := estimated_rows q;
     confidence_score := confidence_score q |}.

Record ValidationResult : Type := {
  is_valid : bool;
  errors : list str;
  warnings : list str;
  estimated_cost : option Q;
  safe_to_execute : bool
}.

(** [QueryResult]; a row is the list of its (column, value) pairs. *)
Record QueryResult : Type := {
  data : list (list (str * str));
  result_columns : list str;
  result_row_count : Z;
  truncated : bool
}.

(** The assignment [query_result.data = rows]. *)
Definition set_data (r : QueryResult) (rows : list (list (str * str)))
    : QueryResult :=
  {| data := rows;
     result_columns := result_columns r;
     result_row_count := result_row_count r;
     truncated := truncated r |}.

Record ChartConfig : Type := {
  chart_type : str;
  x_axis : option str;
  y_axis : option str;
  title : option str;
  color_column : option str
}.

(** [rows[:n]] *)
Definition slice_to {A : Type} (rows : list A) (n : Z) : list A :=
  if (0 <=? n)%Z then firstn (Z.to_nat n) rows
  else firstn (List.length rows - Z.to_nat (- n)) rows.

(** [AgentResult]; [ar_data] is [None] when the agent put no payload. *)
Record AgentResult (A : Type) : Type := {
  success : bool;
  ar_data : option A;
  error : option str
}.

Arguments success {A} _.
Arguments ar_data {A} _.
Arguments error {A} _.

Definition agent_ok {A : Type} (x : A) : AgentResult A :=
  {| success := true; ar_data := Some x; error := None |}.

Definition agent_failed {A : Type} (e : str) : AgentResult A :=
  {| success := false; ar_data := None; error := Some e |}.

(** ** [src/config.py] *)

Module Config.

(** A value of a configuration dict: a string or a number. *)
Inductive value : Type :=
| VStr (s : str)
| VInt (n : Z).

(** The truth value of [config.get(key)]. *)
Definition truthy (v : option value) : bool :=
  match v with
  | Some (VStr (_ :: _)) => true
  | Some (VInt n) => negb (n =? 0)%Z
  | _ => false
  end.

Record Settings : Type := {
  llm_provider : LLMProviderName;
  llm_model : str;
  openai_api_key : option str;
  anthropic_api_key : option str;
  default_database_type : DatabaseType;
  snowflake_account : option str;
  snowflake_user : option str;
  snowflake_password : option str;
  snowflake_database : option str;
  snowflake_schema : option str;
  snowflake_warehouse : option str;
  snowflake_role : option str;
  databricks_server_hostname : option str;
  databricks_http_path : option str;
  databricks_token : option str;
  databricks_catalog : option str;
  databricks_schema : option str;
  postgres_host : option str;
  postgres_port : Z;
  postgres_database : option str;
  postgres_user : option str;
  postgres_password : option str;
  mysql_host : option str;
  mysql_port : Z;
  mysql_database : option str;
  mysql_user : option str;
  mysql_password : option str;
  max_query_rows : Z;
  query_timeout_seconds : Z;
  allow_destructive_queries : bool;
  max_chart_points : Z
}.

Definition dict : Type := list (str * option value).

Definition vstr (x : option str) : option value := option_map VStr x.

(** [config.get(key)]: the value under [key], [None] when the key is
    missing. *)
Fixpoint dict_get (config : dict) (key : str) : option value :=
  match config with
  | [] => None
  | (k, v) :: rest => if PyStr.eqb k key then v else dict_get rest key
  end.

Definition get_database_config (self : Settings) (db_type : DatabaseType)
    : dict :=
  match db_type with
  | SNOWFLAKE =>
      [ ("account" : str, vstr (snowflake_account self));
        ("user" : str, vstr (snowflake_user self));
        ("password" : str, vstr (snowflake_password self));
        ("database" : str, vstr (snowflake_database self));
        ("schema" : str, vstr (snowflake_schema self));
        ("warehouse" : str, vstr (snowflake_warehouse self));
        ("role" : str, vstr (snowflake_role self)) ]
  | DATABRICKS =>
      [ ("server_hostname" : str, vstr (databricks_server_hostname self));
        ("http_path" : str, vstr (databricks_http_path self));
        ("token" : str, vstr (databricks_token self));
        ("catalog" : str, vstr (databricks_catalog self));
        ("schema" : str, vstr (databricks_schema self)) ]
  | POSTGRESQL =>
      [ ("host" : str, vstr (postgres_host self));
        ("port" : str, Some (VInt (postgres_port self)));
        ("database" : str, vstr (postgres_database self));
        ("user" : str, vstr (postgres_user self));
        ("password" : str, vstr (postgres_password self)) ]
  | MYSQL =>
      [ ("host" : str, vstr (mysql_host self));
        ("port" : str, Some (VInt (mysql_port self)));
        ("database" : str, vstr (mysql_database self));
        ("user" : str, vstr (mysql_user self));
        ("password" : str, vstr (mysql_password self)) ]
  end.

Definition validate_config (self : Settings) (db_type : DatabaseType) : bool :=
  let config := get_database_config self db_type in
  let required :=
    match db_type with
    | SNOWFLAKE =>
        ["account" : str; "user" : str; "password" : str; "database" : str]
    | DATABRICKS => ["server_hostname" : str; "http_path" : str; "token" : str]
    | POSTGRESQL =>
        ["host" : str; "database" : str; "user" : str; "password" : str]
    | MYSQL => ["host" : str; "database" : str; "user" : str; "password" : str]
    end in
  forallb (fun key => truthy (dict_get config key)) required.

End Config.

(** ** [src/agents/validation_agent.py] *)

Module ValidationAgent.

Record t : Type := {
  allow_destructive : bool;
  max_rows : Z
}.

(** [float] values as exact rationals. *)
Definition Qtruthy (x : Q) : bool := negb (Qeq_bool x 0).
Definition Qltb (x y : Q) : bool := negb (Qle_bool y x).

Definition round_half_even (q : Q) : Z :=
  let n := Qnum q in
  let d := Zpos (Qden q) in
  let fl := (n / d)%Z in
  let r2 := (2 * (n mod d))%Z in
  if (r2 <? d)%Z then fl
  else if (d <? r2)%Z then (fl + 1)%Z
  else if Z.even fl then fl else (fl + 1)%Z.

(** The [{x:.2f}] of an f-string. *)
Definition format_2f (x : Q) : str :=
  let h := Z.abs (round_half_even (x * 100)%Q) in
  let frac := (h mod 100)%Z in
  (if Qltb x 0 then "-" : str else []) ++
  of_int (h / 100) ++ "." ++
  (if (frac <? 10)%Z then "0" : str else []) ++ of_int frac.

Definition _check_syntax (sql : str) : bool :=
  let sql_upper := strip (upper sql) in
  let valid_starts := ["SELECT" : str; "WITH" : str] in
  if negb (existsb (fun keyword => startswith sql_upper keyword) valid_starts)
  then false
  else if negb (count sql "(" =? count sql ")")%Z
  then false
  else if startswith sql_upper "SELECT" && negb (contains "FROM" sql_upper)
  then false
  else true.

Definition _estimate_cost (sql : str) (tables_used : list str) : Q :=
  let cost := 0%Q in
  let sql_upper := upper sql in
  let cost := (cost + inject_Z (Z.of_nat (List.length tables_used)) * (1 # 10))%Q in
  let join_count := count sql_upper "JOIN" in
  let cost := (cost + inject_Z join_count * (15 # 100))%Q in
  let subquery_count := (count sql_upper "SELECT" - 1)%Z in
  let cost := (cost + inject_Z subquery_count * (2 # 10))%Q in
  let cost :=
    if contains "GROUP BY" sql_upper then (cost + (15 # 100))%Q else cost in
  let cost :=
    if contains "ORDER BY" sql_upper && negb (contains "LIMIT" sql_upper)
    then (cost + (1 # 10))%Q else cost in
  let cost :=
    if contains "DISTINCT" sql_upper then (cost + (1 # 10))%Q else cost in
  let window_functions :=
    ["ROW_NUMBER" : str; "RANK" : str; "DENSE_RANK" : str; "LAG" : str;
     "LEAD" : str] in
  let cost :=
    if existsb (fun func => contains func sql_upper) window_functions
    then (cost + (15 # 100))%Q else cost in
  if Qltb 1 cost then 1%Q else cost.

(** [validate_query]: the result, and the candidate query as the call
    leaves it (its [sql] field is assigned in place).  [None] stands for
    an argument that is no [SQLQuery]: reading its [sql] raises inside
    the [try], and the handler returns the failure.  The other exceptions
    of the body are the [ValueError]s of [int] and of the f-string with
    [max_rows]; both come before the assignment to [sql]. *)
Definition validate_query (self : t) (sql_query : option SQLQuery)
    (user_query : str) : AgentResult ValidationResult * option SQLQuery :=
  match sql_query with
  | None =>
      (agent_failed "'NoneType' object has no attribute 'sql'", None)
  | Some q =>
      let errors := [] in
      let warnings := [] in
      let sql := sql q in
      let syntax_valid := _check_syntax sql in
      let errors :=
        if negb syntax_valid
        then errors ++ ["SQL syntax appears invalid" : str] else errors in
      let '(is_safe, safety_errors, safety_warnings) :=
        QuerySafetyChecker.validate_query sql (allow_destructive self) in
      let errors := errors ++ safety_errors in
      let warnings := warnings ++ safety_warnings in
      let body :=
        and_then (RowLimitEnforcer.estimate_result_size sql)
          (fun estimated_rows =>
        and_then
          (if (estimated_rows =? -1)%Z || (max_rows self <? estimated_rows)%Z
           then
             and_then (format_int (max_rows self)) (fun n =>
             let warnings :=
               warnings ++
               ["Query may return many rows. Limit will be enforced (" ++
                n ++ " rows)"] in
             and_then (RowLimitEnforcer.add_limit_clause sql (max_rows self))
               (fun limited => Ok (warnings, set_sql q limited)))
           else Ok (warnings, q))
          (fun '(warnings, q) =>
        let estimated_cost := _estimate_cost sql (tables_used q) in
        let warnings :=
          match confidence_score q with
          | Some score =>
              if Qtruthy score && Qltb score (6 # 10)
              then warnings ++
                   ["Low confidence score (" ++ format_2f score ++
                    "). Query may not be accurate."]
              else warnings
          | None => warnings
          end in
        let safe_to_execute := (List.length errors =? 0)%nat in
        let validation_result :=
          {| is_valid := safe_to_execute;
             errors := errors;
             warnings := warnings;
             estimated_cost := Some estimated_cost;
             safe_to_execute := safe_to_execute |} in
        Ok (validation_result, q))) in
      match body with
      | Ok (validation_result, q) => (agent_ok validation_result, Some q)
      | Raise e => (agent_failed e, Some q)
      end
  end.

End ValidationAgent.

(** ** Effects: a state and exception monad

    [M S A] is a computation over a state [S] that returns an [A] or raises
    a Python [Exception] carrying a message; the state reached before a
    raise is kept, as the heap is. *)

Definition M (S A : Type) : Type := S -> outcome A * S.

Definition ret {S A : Type} (a : A) : M S A := fun s => (Ok a, s).

Definition raise {S A : Type} (msg : str) : M S A := fun s => (Raise msg, s).

Definition bind {S A B : Type} (m : M S A) (f : A -> M S B) : M S B :=
  fun s =>
    match m s with
    | (Ok a, s') => f a s'
    | (Raise e, s') => (Raise e, s')
    end.

(** [try: body  except Exception as e: handler(e)] *)
Definition try_except {S A : Type} (body : M S A) (handler : str -> M S A)
    : M S A :=
  fun s =>
    match body s with
    | (Ok a, s') => (Ok a, s')
    | (Raise e, s') => handler e s'
    end.

Definition get {S : Type} : M S S := fun s => (Ok s, s).
Definition modify {S : Type} (f : S -> S) : M S unit := fun s => (Ok tt, f s).

(** The result of a call to a collaborator, as a computation. *)
Definition lift_outcome {S A : Type} (o : outcome A) : M S A := fun s => (o, s).

Declare Scope monad_scope.
Delimit Scope monad_scope with monad.
Notation "x <- m ;; k" := (bind m (fun x => k))
  (at level 61, m at next level, right associativity) : monad_scope.
Notation "m ;;; k" := (bind m (fun _ => k))
  (at level 61, right associativity) : monad_scope.
Open Scope monad_scope.

(** ** [src/database/base.py] *)

Module DatabaseConnector.

(** What SQLAlchemy answers: the inspector's table names and columns,
    and the engine's [SELECT COUNT( * )] and query execution.  Any of them
    may raise. *)
Record Engine : Type := {
  inspector_get_table_names : option str -> outcome (list str);
  inspector_get_columns : str -> option str -> outcome (list Column);
  select_count : str -> outcome Z;
  conn_execute : str -> outcome (list (list (str * str)))
}.

(** A request sent to the database. *)
Inductive request : Type :=
| GetTableNames (schema : option str)
| GetColumns (table_name : str) (schema : option str)
| SelectCount (full_name : str)
| Execute (sql : str).

(** The connector's [_schema_cache], and the requests it has sent to the
    database so far (most recent first). *)
Record t : Type := {
  _schema_cache : option (list TableMetadata);
  sent : list request
}.

Definition init : t := {| _schema_cache := None; sent := [] |}.

Definition send {A : Type} (r : request) (answer : outcome A) : M t A :=
  modify (fun self => {| _schema_cache := _schema_cache self;
                         sent := r :: sent self |}) ;;;
  lift_outcome answer.

Definition set_cache (c : option (list TableMetadata)) : M t unit :=
  modify (fun self => {| _schema_cache := c; sent := sent self |}).

Section WithEngine.
Variable engine : Engine.

Definition get_tables (schema : option str) : M t (list str) :=
  send (GetTableNames schema) (inspector_get_table_names engine schema).

(** [x or "default"], [x] a string or [None]. *)
Definition or_default (schema : option str) : str :=
  match schema with
  | Some (c :: s) => c :: s
  | _ => "default"
  end.

Definition full_name (table_name : str) (schema : option str) : str :=
  match schema with
  | Some (c :: s) => (c :: s) ++ "." ++ table_name
  | _ => table_name
  end.

Definition get_table_metadata (table_name : str) (schema : option str)
    : M t TableMetadata :=
  columns <- send (GetColumns table_name schema)
                  (inspector_get_columns engine table_name schema) ;;
  row_count <-
    try_except
      (n <- send (SelectCount (full_name table_name schema))
                 (select_count engine (full_name table_name schema)) ;;
       ret (Some n))
      (fun _ => ret None) ;;
  lift_outcome
    (new_TableMetadata table_name (or_default schema) columns row_count).

(** The loop over [tables]: a table whose metadata cannot be read, or
    is refused by [TableMetadata], is skipped. *)
Fixpoint collect_metadata (tables : list str) (schema : option str)
    : M t (list TableMetadata) :=
  match tables with
  | [] => ret []
  | table :: rest =>
      found <- try_except
                 (metadata <- get_table_metadata table schema ;;
                  ret [metadata])
                 (fun _ => ret []) ;;
      others <- collect_metadata rest schema ;;
      ret (found ++ others)
  end.

Definition get_all_table_metadata (schema : option str) (use_cache : bool)
    : M t (list TableMetadata) :=
  self <- get ;;
  match _schema_cache self with
  | Some cached =>
      if use_cache then ret cached
      else
        tables <- get_tables schema ;;
        metadata_list <- collect_metadata tables schema ;;
        set_cache (Some metadata_list) ;;;
        ret metadata_list
  | None =>
      tables <- get_tables schema ;;
      metadata_list <- collect_metadata tables schema ;;
      set_cache (Some metadata_list) ;;;
      ret metadata_list
  end.

Definition execute_query (sql : str) : M t (list (list (str * str))) :=
  send (Execute sql) (conn_execute engine sql).

Definition clear_cache : M t unit := set_cache None.

End WithEngine.

End DatabaseConnector.

(** ** [src/database/snowflake_db.py], [src/database/databricks_db.py] *)

(** [urllib.parse.quote_plus] on characters below 128: letters, digits and
    [_ . - ~] stay, a blank becomes [+], anything else is [%XX]. *)
Module Urllib.

Definition hex_digit (n : nat) : ascii :=
  if (n <? 10)%nat then ascii_of_nat (48 + n) else ascii_of_nat (55 + n).

Definition unreserved (c : ascii) : bool :=
  is_upper c || is_lower c || is_digit c ||
  existsb (Ascii.eqb c) ("_.-~" : str).

Definition quote_char (c : ascii) : str :=
  if unreserved c then [c]
  else if Ascii.eqb c " " then ["+"%char]
  else ["%"%char; hex_digit (code c / 16); hex_digit (code c mod 16)].

Definition quote_plus (s : str) : str := flat_map quote_char s.

End Urllib.

(** The [str] of a configuration value, as an f-string prints it. *)
Definition fmt_value (v : option Config.value) : str :=
  match v with
  | Some (Config.VStr s) => s
  | Some (Config.VInt n) => of_int n
  | None => "None"
  end.

Module SnowflakeConnector.

Record t : Type := {
  account : option Config.value;
  user : option Config.value;
  password : option Config.value;
  database : option Config.value;
  schema : option Config.value;
  warehouse : option Config.value;
  role : option Config.value
}.

(** [__init__] *)
Definition init (config : Config.dict) : outcome t :=
  let self :=
    {| account := Config.dict_get config "account";
       user := Config.dict_get config "user";
       password := Config.dict_get config "password";
       database := Config.dict_get config "database";
       schema := Config.dict_get config "schema";
       warehouse := Config.dict_get config "warehouse";
       role := Config.dict_get config "role" |} in
  if negb (forallb Config.truthy
             [account self; user self; password self; database self])
  then Raise "Missing required Snowflake configuration"
  else Ok self.

(** [quote_plus] of a value that is no string raises a [TypeError]. *)
Definition get_connection_string (self : t) : outcome str :=
  match password self with
  | Some (Config.VStr p) =>
      let password_encoded := Urllib.quote_plus p in
      let conn_str :=
        "snowflake://" ++ fmt_value (user self) ++ ":" ++ password_encoded ++
        "@" ++ fmt_value (account self) in
      let conn_str :=
        if Config.truthy (database self) then
          let conn_str := conn_str ++ "/" ++ fmt_value (database self) in
          if Config.truthy (schema self)
          then conn_str ++ "/" ++ fmt_value (schema self)
          else conn_str
        else conn_str in
      let params := [] in
      let params :=
        if Config.truthy (warehouse self)
        then params ++ ["warehouse=" ++ fmt_value (warehouse self)]
        else params in
      let params :=
        if Config.truthy (role self)
        then params ++ ["role=" ++ fmt_value (role self)]
        else params in
      let conn_str :=
        match params with
        | [] => conn_str
        | _ => conn_str ++ "?" ++ join "&" params
        end in
      Ok conn_str
  | _ => Raise "quote_plus: not a string"
  end.

End SnowflakeConnector.

Module DatabricksConnector.

Record t : Type := {
  server_hostname : option Config.value;
  http_path : option Config.value;
  token : option Config.value;
  catalog : option Config.value;
  schema : option Config.value
}.

(** [__init__] *)
Definition init (config : Config.dict) : outcome t :=
  let self :=
    {| server_hostname := Config.dict_get config "server_hostname";
       http_path := Config.dict_get config "http_path";
       token := Config.dict_get config "token";
       catalog := Config.dict_get config "catalog";
       schema := Config.dict_get config "schema" |} in
  if negb (forallb Config.truthy
             [server_hostname self; http_path self; token self])
  then Raise "Missing required Databricks configuration"
  else Ok self.

Definition get_connection_string (self : t) : str :=
  let conn_str :=
    "databricks://token:" ++ fmt_value (token self) ++ "@" ++
    fmt_value (server_hostname self) in
  let params := ["http_path=" ++ fmt_value (http_path self)] in
  let params :=
    if Config.truthy (catalog self)
    then params ++ ["catalog=" ++ fmt_value (catalog self)]
    else params in
  let params :=
    if Config.truthy (schema self)
    then params ++ ["schema=" ++ fmt_value (schema self)]
    else params in
  conn_str ++ "?" ++ join "&" params.

End DatabricksConnector.

(** ** [src/agents/schema_agent.py] *)

Module SchemaAgent.

Definition _filter_relevant_tables (user_query : str)
    (all_tables : list TableMetadata) : list TableMetadata :=
  let query_lower := lower user_query in
  let query_words := to_set (split query_lower) in
  let relevant_tables :=
    filter
      (fun table =>
         let table_name_lower := lower (name table) in
         if existsb (fun word => contains word table_name_lower) query_words
         then true
         else
           let column_names :=
             map (fun col => lower (column_name col)) (columns table) in
           existsb
             (fun col_name =>
                existsb (fun word => contains word col_name) query_words)
             column_names)
      all_tables in
  match relevant_tables with
  | [] => firstn 20 all_tables
  | _ => relevant_tables
  end.

Definition _infer_relationships (tables : list TableMetadata)
    : list Relationship :=
  flat_map
    (fun table =>
       flat_map
         (fun column =>
            let col_name := lower (column_name column) in
            if endswith col_name "_id" || endswith col_name "id" then
              let potential_table :=
                replace (replace col_name "_id" []) "id" [] in
              flat_map
                (fun other_table =>
                   if PyStr.eqb (lower (name other_table)) potential_table
                   then [ {| from_table := name table;
                             from_column := column_name column;
                             to_table := name other_table;
                             to_column := "id" |} ]
                   else [])
                tables
            else [])
         (columns table))
    tables.

Definition get_schema_context (engine : DatabaseConnector.Engine)
    (user_query : str) (schema : option str) (use_cache : bool)
    : M DatabaseConnector.t (AgentResult SchemaContext) :=
  try_except
    (all_tables <-
       DatabaseConnector.get_all_table_metadata engine schema use_cache ;;
     let relevant_tables := _filter_relevant_tables user_query all_tables in
     let schema_context :=
       {| tables := relevant_tables;
          relationships := _infer_relationships relevant_tables;
          common_queries := [];
          business_terms := [] |} in
     ret (agent_ok schema_context))
    (fun e => ret (agent_failed e)).

End SchemaAgent.
(** ** [src/agents/execution_agent.py] *)

Module ExecutionAgent.

Record t : Type := { timeout_seconds : Z }.

Definition _parse_error_message (self : t) (error : str) : str :=
  let error_lower := lower error in
  if contains "does not exist" error_lower || contains "not found" error_lower
  then "Table or column not found. The query may reference non-existent database objects."
  else if contains "syntax error" error_lower
          || contains "invalid syntax" error_lower
  then "SQL syntax error. The query contains invalid SQL syntax."
  else if contains "timeout" error_lower || contains "timed out" error_lower
  then "Query execution timed out after " ++ of_int (timeout_seconds self) ++
       " seconds. Try simplifying the query."
  else if contains "permission" error_lower
          || contains "access denied" error_lower
  then "Permission denied. You don't have access to query these tables."
  else if contains "ambiguous" error_lower
  then "Ambiguous column reference. The query needs to specify which table columns belong to."
  else if contains "divide by zero" error_lower
          || contains "division by zero" error_lower
  then "Division by zero error. Check calculations in the query."
  else "Database error: " ++ error.

Definition no_sql : str := "'NoneType' object has no attribute 'sql'".

(** [None] for [sql_query] stands for an argument that is no [SQLQuery];
    the handler reads [sql_query.sql] again for its log line, so that
    failure leaves the function. *)
Definition execute_query (engine : DatabaseConnector.Engine) (self : t)
    (sql_query : option SQLQuery) (max_rows : option Z)
    : M DatabaseConnector.t (AgentResult QueryResult) :=
  try_except
    (match sql_query with
     | None => raise no_sql
     | Some q =>
         rows <- DatabaseConnector.execute_query engine (sql q) ;;
         let cut :=
           match max_rows with
           | Some m =>
               negb (m =? 0)%Z && (m <? Z.of_nat (List.length rows))%Z
           | None => false
           end in
         let rows :=
           match max_rows with
           | Some m => if cut then slice_to rows m else rows
           | None => rows
           end in
         let columns :=
           match rows with
           | first :: _ => map fst first
           | [] => []
           end in
         ret (agent_ok {| data := rows;
                          result_columns := columns;
                          result_row_count := Z.of_nat (List.length rows);
                          truncated := cut |})
     end)
    (fun error_msg =>
       match sql_query with
       | None => raise no_sql
       | Some _ =>
           ret {| success := false;
                  ar_data := None;
                  error := Some (_parse_error_message self error_msg) |}
       end).

End ExecutionAgent.

(** ** [src/agents/visualization_agent.py] *)

Module VisualizationAgent.

Record t : Type := { max_chart_points : Z }.

(** What lies outside the repository: the language model's recommendation
    parsed into a [ChartConfig] (the body of the [try] of
    [_determine_chart_type]) and Plotly's rendering ([_create_chart]). *)
Record Renderer : Type := {
  recommend_chart : QueryResult -> str -> outcome ChartConfig;
  _create_chart : list (list (str * str)) -> ChartConfig -> outcome str
}.

Definition _simple_chart_heuristic (query_result : QueryResult) : ChartConfig :=
  let columns := result_columns query_result in
  match columns with
  | c0 :: c1 :: _ =>
      {| chart_type := "bar"; x_axis := Some c0; y_axis := Some c1;
         title := Some ("Query Results" : str); color_column := None |}
  | _ =>
      {| chart_type := "table"; x_axis := None; y_axis := None;
         title := Some ("Query Results" : str); color_column := None |}
  end.

Definition _determine_chart_type (renderer : Renderer)
    (query_result : QueryResult) (user_query : str) : ChartConfig :=
  match recommend_chart renderer query_result user_query with
  | Ok config => config
  | Raise _ => _simple_chart_heuristic query_result
  end.

(** [generate_visualization]: the result, and the query result as the
    call leaves it (its [data] field is assigned in place). *)
Definition generate_visualization (self : t) (renderer : Renderer)
    (query_result : QueryResult) (user_query : str)
    : AgentResult str * QueryResult :=
  match data query_result with
  | [] => ({| success := true; ar_data := None; error := None |}, query_result)
  | _ :: _ =>
      let query_result :=
        if (max_chart_points self <? Z.of_nat (List.length (data query_result)))%Z
        then set_data query_result
               (slice_to (data query_result) (max_chart_points self))
        else query_result in
      let chart_config := _determine_chart_type renderer query_result user_query in
      match _create_chart renderer (data query_result) chart_config with
      | Ok chart_html => (agent_ok chart_html, query_result)
      | Raise e => (agent_failed e, query_result)
      end
  end.

End VisualizationAgent.

(** ** [src/orchestrator.py] *)

Module ChatbotOrchestrator.

Record ChatbotResponse : Type := {
  status : QueryStatus;
  user_query : str;
  response_sql : option SQLQuery;
  validation : option ValidationResult;
  result : option QueryResult;
  chart_html : option str;
  error_message : option str
}.

(** The collaborators outside this repository's control flow: the
    database behind the connector, the agent that asks the language model
    for SQL (it returns an [AgentResult] or raises), and what the
    visualization agent calls. *)
Record Collaborators : Type := {
  engine : DatabaseConnector.Engine;
  generate_sql : str -> option SchemaContext -> outcome (AgentResult SQLQuery);
  renderer : VisualizationAgent.Renderer
}.

(** The provider built by [_initialize_llm], with its key and model. *)
Inductive Provider : Type :=
| AnthropicProvider (api_key model : str)
| OpenAIProvider (api_key model : str).

(** The connector built by [_initialize_database]. *)
Inductive Connector : Type :=
| Snowflake (c : SnowflakeConnector.t)
| Databricks (c : DatabricksConnector.t).

(** The [{db_type}] of an f-string for a member of [DatabaseType], a
    [str] and [Enum]: its name as [Enum.__str__] writes it, which is what
    Python 3.11 and later format it to (earlier versions format it to its
    value, as in [snowflake]).  Only the text after the fixed start of the
    two error messages depends on it. *)
Definition show_database_type (db_type : DatabaseType) : str :=
  match db_type with
  | SNOWFLAKE => "DatabaseType.SNOWFLAKE"
  | DATABRICKS => "DatabaseType.DATABRICKS"
  | POSTGRESQL => "DatabaseType.POSTGRESQL"
  | MYSQL => "DatabaseType.MYSQL"
  end.

Definition _initialize_llm (settings : Config.Settings) : outcome Provider :=
  match Config.llm_provider settings with
  | ANTHROPIC =>
      match Config.anthropic_api_key settings with
      | Some (c :: key) =>
          Ok (AnthropicProvider (c :: key) (Config.llm_model settings))
      | _ => Raise "ANTHROPIC_API_KEY not set"
      end
  | OPENAI =>
      match Config.openai_api_key settings with
      | Some (c :: key) =>
          Ok (OpenAIProvider (c :: key) (Config.llm_model settings))
      | _ => Raise "OPENAI_API_KEY not set"
      end
  end.

Definition _initialize_database (settings : Config.Settings)
    (db_type : option DatabaseType) : outcome Connector :=
  let db_type :=
    match db_type with
    | Some t => t
    | None => Config.default_database_type settings
    end in
  if negb (Config.validate_config settings db_type) then
    Raise ("Invalid configuration for database type: " ++
           show_database_type db_type)
  else
    let config := Config.get_database_config settings db_type in
    match db_type with
    | SNOWFLAKE =>
        match SnowflakeConnector.init config with
        | Ok c => Ok (Snowflake c)
        | Raise e => Raise e
        end
    | DATABRICKS =>
        match DatabricksConnector.init config with
        | Ok c => Ok (Databricks c)
        | Raise e => Raise e
        end
    | _ => Raise ("Unsupported database type: " ++ show_database_type db_type)
    end.

Inductive stage : Type :=
| SchemaStage | GenerationStage | ValidationStage | ExecutionStage
| VisualizationStage.

(** The history of a run: which agent was called, and how each call
    ended. *)
Inductive event : Type :=
| Invoked (s : stage)
| Returned (s : stage) (success : bool)
| Validated (r : AgentResult ValidationResult)
| Raised (s : stage).

(** The heap a run works on: the connector, the response object being
    filled in, and the history (oldest event first). *)
Record state : Type := {
  db : DatabaseConnector.t;
  response : ChatbotResponse;
  trace : list event
}.

Definition emit (e : event) : M state unit :=
  modify (fun st => {| db := db st; response := response st;
                       trace := trace st ++ [e] |}).

Definition update (f : ChatbotResponse -> ChatbotResponse) : M state unit :=
  modify (fun st => {| db := db st; response := f (response st);
                       trace := trace st |}).

Definition on_db {A : Type} (m : M DatabaseConnector.t A) : M state A :=
  fun st =>
    let '(o, d) := m (db st) in
    (o, {| db := d; response := response st; trace := trace st |}).

Definition set_status (v : QueryStatus) : M state unit :=
  update (fun r => {| status := v; user_query := user_query r;
                      response_sql := response_sql r;
                      validation := validation r; result := result r;
                      chart_html := chart_html r;
                      error_message := error_message r |}).

Definition set_error_message (v : str) : M state unit :=
  update (fun r => {| status := status r; user_query := user_query r;
                      response_sql := response_sql r;
                      validation := validation r; result := result r;
                      chart_html := chart_html r;
                      error_message := Some v |}).

Definition set_response_sql (v : option SQLQuery) : M state unit :=
  update (fun r => {| status := status r; user_query := user_query r;
                      response_sql := v;
                      validation := validation r; result := result r;
                      chart_html := chart_html r;
                      error_message := error_message r |}).

Definition set_validation (v : option ValidationResult) : M state unit :=
  update (fun r => {| status := status r; user_query := user_query r;
                      response_sql := response_sql r;
                      validation := v; result := result r;
                      chart_html := chart_html r;
                      error_message := error_message r |}).

Definition set_result (v : option QueryResult) : M state unit :=
  update (fun r => {| status := status r; user_query := user_query r;
                      response_sql := response_sql r;
                      validation := validation r; result := v;
                      chart_html := chart_html r;
                      error_message := error_message r |}).

Definition set_chart_html (v : option str) : M state unit :=
  update (fun r => {| status := status r; user_query := user_query r;
                      response_sql := response_sql r;
                      validation := validation r; result := result r;
                      chart_html := v;
                      error_message := error_message r |}).

(** The [{x}] of an f-string for a string or [None]. *)
Definition fmt (x : option str) : str :=
  match x with Some m => m | None => "None" end.

(** A call to an agent, with its entry in the history. *)
Definition call {A : Type} (s : stage) (m : M state (AgentResult A))
    : M state (AgentResult A) :=
  emit (Invoked s) ;;;
  try_except
    (r <- m ;; emit (Returned s (success r)) ;;; ret r)
    (fun e => emit (Raised s) ;;; raise e).

Definition call_validation
    (m : M state (AgentResult ValidationResult))
    : M state (AgentResult ValidationResult) :=
  emit (Invoked ValidationStage) ;;;
  r <- m ;; emit (Validated r) ;;; ret r.

Section Pipeline.
Variable settings : Config.Settings.
Variable world : Collaborators.

Definition validation_agent : ValidationAgent.t :=
  {| ValidationAgent.allow_destructive :=
       Config.allow_destructive_queries settings;
     ValidationAgent.max_rows := Config.max_query_rows settings |}.

Definition execution_agent : ExecutionAgent.t :=
  {| ExecutionAgent.timeout_seconds := Config.query_timeout_seconds settings |}.

Definition visualization_agent : VisualizationAgent.t :=
  {| VisualizationAgent.max_chart_points := Config.max_chart_points settings |}.

(** The body of the [try] of [process_query]; each [ret tt] that
    follows a failure is a [return response]. *)
Definition pipeline (user_query : str) (request_max_rows : Z)
    (include_visualization : bool) : M state unit :=
  schema_result <-
    call SchemaStage
      (on_db (SchemaAgent.get_schema_context (engine world)
                user_query None true)) ;;
  if negb (success schema_result) then
    set_status FAILED ;;;
    set_error_message ("Failed to get schema: " ++ fmt (error schema_result))
  else
    let schema_context := ar_data schema_result in
    sql_result <-
      call GenerationStage
        (lift_outcome (generate_sql world user_query schema_context)) ;;
    if negb (success sql_result) then
      set_status FAILED ;;;
      set_error_message ("Failed to generate SQL: " ++ fmt (error sql_result))
    else
      set_response_sql (ar_data sql_result) ;;;
      set_status VALIDATING ;;;
      validation_result <-
        call_validation
          (let '(r, q) :=
             ValidationAgent.validate_query validation_agent
               (ar_data sql_result) user_query in
           set_response_sql q ;;; ret r) ;;
      if negb (success validation_result) then
        set_status FAILED ;;;
        set_error_message
          ("Validation failed: " ++ fmt (error validation_result))
      else
        set_validation (ar_data validation_result) ;;;
        match ar_data validation_result with
        | None =>
            raise "'NoneType' object has no attribute 'safe_to_execute'"
        | Some v =>
            if negb (safe_to_execute v) then
              set_status FAILED ;;;
              set_error_message
                ("Query failed safety validation: " ++ join "; " (errors v))
            else
              set_status EXECUTING ;;;
              st <- get ;;
              execution_result <-
                call ExecutionStage
                  (on_db (ExecutionAgent.execute_query (engine world)
                            execution_agent
                            (response_sql (response st))
                            (Some request_max_rows))) ;;
              if negb (success execution_result) then
                set_status FAILED ;;;
                set_error_message
                  ("Execution failed: " ++ fmt (error execution_result))
              else
                set_result (ar_data execution_result) ;;;
                (if include_visualization then
                   match ar_data execution_result with
                   | None =>
                       raise "'NoneType' object has no attribute 'row_count'"
                   | Some res =>
                       if (0 <? result_row_count res)%Z then
                         viz_result <-
                           call VisualizationStage
                             (let '(r, res') :=
                                VisualizationAgent.generate_visualization
                                  visualization_agent (renderer world)
                                  res user_query in
                              set_result (Some res') ;;; ret r) ;;
                         match ar_data viz_result with
                         | Some (c :: html) =>
                             if success viz_result
                             then set_chart_html (ar_data viz_result)
                             else ret tt
                         | _ => ret tt
                         end
                       else ret tt
                   end
                 else ret tt) ;;;
                set_status SUCCESS
        end.

(** [max_rows or self.settings.max_query_rows] *)
Definition effective_max_rows (max_rows : option Z) : Z :=
  match max_rows with
  | Some m => if (m =? 0)%Z then Config.max_query_rows settings else m
  | None => Config.max_query_rows settings
  end.

(** [process_query].  The conversation context and the database
    override are only stored in the request object and are left out. *)
Definition process_query (user_query user_id : str) (max_rows : option Z)
    (include_visualization : bool) : M state ChatbotResponse :=
  let request_max_rows := effective_max_rows max_rows in
  update (fun _ => {| status := PENDING; user_query := user_query;
                      response_sql := None; validation := None;
                      result := None; chart_html := None;
                      error_message := None |}) ;;;
  try_except
    (pipeline user_query request_max_rows include_visualization ;;;
     st <- get ;; ret (response st))
    (fun e =>
       set_status FAILED ;;;
       set_error_message ("Unexpected error: " ++ e) ;;;
       st <- get ;; ret (response st)).

End Pipeline.

Definition fresh : state :=
  {| db := DatabaseConnector.init;
     response := {| status := PENDING; user_query := [];
                    response_sql := None; validation := None;
                    result := None; chart_html := None;
                    error_message := None |};
     trace := [] |}.

End ChatbotOrchestrator.

(** ** Vocabulary of the statements *)

(** The character before the position reached by [p]-characters of [s]. *)
Fixpoint run_end (p : ascii -> bool) (prev : option ascii) (s : str)
    : option ascii :=
  match s with
  | c :: s' => if p c then run_end p (Some c) s' else prev
  | [] => prev
  end.

Fixpoint take_while (p : ascii -> bool) (s : str) : str :=
  match s with
  | c :: s' => if p c then c :: take_while p s' else []
  | [] => []
  end.

(** The last character of [pre], or [prev] when [pre] is empty. *)
Fixpoint last_char (prev : option ascii) (pre : str) : option ascii :=
  match pre with
  | [] => prev
  | c :: pre' => last_char (Some c) pre'
  end.

(** The pattern of the row-limit rewrite, read one character at a time.
    [limit_from q s] is the match of what is left of [LIMIT\s+(\d+)] in
    state [q] at the head of [s]: the digits captured and the text after
    the match. *)
Inductive lstate : Type := L0 | L1 | L2 | L3 | L4 | L5 | L6.

Definition ci (x c : ascii) : bool := atom_ok true (Lit x) c.

Definition digits_at (s : str) : option (str * str) :=
  match s with
  | d :: _ =>
      if is_digit d then Some (take_while is_digit s, lstrip_by is_digit s)
      else None
  | [] => None
  end.

Fixpoint limit_from (q : lstate) (s : str) : option (str * str) :=
  match s with
  | [] => None
  | c :: s' =>
      match q with
      | L0 => if ci "L" c then limit_from L1 s' else None
      | L1 => if ci "I" c then limit_from L2 s' else None
      | L2 => if ci "M" c then limit_from L3 s' else None
      | L3 => if ci "I" c then limit_from L4 s' else None
      | L4 => if ci "T" c then limit_from L5 s' else None
      | L5 => if is_space c then limit_from L6 s' else None
      | L6 => if is_space c then limit_from L6 s' else digits_at s
      end
  end.

Definition LIMIT_GROUP : regex := Eval vm_compute in re_compile "LIMIT\s+(\d+)".
Definition LIMIT_PLAIN : regex := Eval vm_compute in re_compile "LIMIT\s+\d+".

(** What is left of the two patterns in each state. *)
Definition residual (grouped : bool) (q : lstate) : regex :=
  let r := if grouped then LIMIT_GROUP else LIMIT_PLAIN in
  match q with
  | L0 => r
  | L1 => skipn 1 r
  | L2 => skipn 2 r
  | L3 => skipn 3 r
  | L4 => skipn 4 r
  | L5 => skipn 5 r
  | L6 => skipn 6 r
  end.

(** What a match reports: the text after it and group 1. *)
Definition report (grouped : bool) (m : option (str * str))
    : option (str * option str) :=
  match m with
  | Some (ds, rest) => Some (rest, if grouped then Some ds else None)
  | None => None
  end.

(** [s] holds a clause [LIMIT k]: the pattern matches at some position
    and captures the digits of [k]. *)
Definition has_limit (s : str) (k : Z) : Prop :=
  exists pre suf m,
    s = pre ++ suf /\
    match_here true LIMIT_GROUP (last_char None pre) suf no_groups = Some m /\
    int_value (RowLimitEnforcer.group1 m) = k.

(** The substitution of the row-limit rewrite. *)
Definition limit_sub (repl s : str) : str :=
  sub_from true LIMIT_PLAIN repl 0 None s.

(** Every [LIMIT] clause with a number in [s] has the digits [ds0]. *)
Definition only_limit (ds0 s : str) : Prop :=
  forall pre suf ds rest,
    s = pre ++ suf -> limit_from L0 suf = Some (ds, rest) -> ds = ds0.

(** The keyword [kw] stands in [text] as whole words, in any letter case:
    some stretch of [text] reads [kw] once put in upper case, and no word
    character touches it on either side. *)
Definition word_occurrence (kw text : str) : Prop :=
  exists pre w post,
    text = pre ++ w ++ post /\ upper w = kw /\
    word_before (last_char None pre) = false /\
    word_after post = false.

(** An error message of the destructive-operation scan. *)
Definition destructive_related (e : str) : bool :=
  startswith e "Destructive operation detected".

(** The literal pieces of a keyword. *)
Definition lits (w : str) : regex := map (fun c => One (Lit c)) w.

(** [s] without the suffix [suffix], when it ends with it. *)
Definition rstrip_suffix (s suffix : str) : str :=
  if endswith s suffix then firstn (List.length s - List.length suffix) s else s.

(** A database with the schemas [sales] (table [orders]) and [hr] (table
    [employees]); the inspector lists no column for either table, and
    neither has a row. *)
Definition two_schemas : DatabaseConnector.Engine :=
  {| DatabaseConnector.inspector_get_table_names := fun schema =>
       match schema with
       | Some s => if PyStr.eqb s "sales" then Ok ["orders" : str]
                   else if PyStr.eqb s "hr" then Ok ["employees" : str]
                   else Ok []
       | None => Ok []
       end;
     DatabaseConnector.inspector_get_columns := fun _ _ => Ok [];
     DatabaseConnector.select_count := fun _ => Ok 0%Z;
     DatabaseConnector.conn_execute := fun _ => Ok [] |}.

(** A run of [process_query] starts on a connector [d] with an empty
    history. *)
Definition start (d : DatabaseConnector.t) : ChatbotOrchestrator.state :=
  {| ChatbotOrchestrator.db := d;
     ChatbotOrchestrator.response := ChatbotOrchestrator.response ChatbotOrchestrator.fresh;
     ChatbotOrchestrator.trace := [] |}.

(** The validation stage returned a result that allows execution. *)
Definition validated_safe (e : ChatbotOrchestrator.event) : bool :=
  match e with
  | ChatbotOrchestrator.Validated r =>
      success r &&
      match ar_data r with Some v => safe_to_execute v | None => false end
  | _ => false
  end.

(** The validation stage returned a result that forbids execution. *)
Definition validated_unsafe (e : ChatbotOrchestrator.event) : bool :=
  match e with
  | ChatbotOrchestrator.Validated r =>
      match ar_data r with Some v => negb (safe_to_execute v) | None => false end
  | _ => false
  end.

Definition is_execution (e : ChatbotOrchestrator.event) : bool :=
  match e with
  | ChatbotOrchestrator.Invoked ChatbotOrchestrator.ExecutionStage => true
  | _ => false
  end.

(** Every call of the execution stage in the history comes after a
    validation that allows it. *)
Fixpoint guarded (seen : bool) (tr : list ChatbotOrchestrator.event) : bool :=
  match tr with
  | [] => true
  | e :: tr' =>
      (if is_execution e then seen else true) &&
      guarded (seen || validated_safe e) tr'
  end.

(** A stage failed: schema retrieval, generation, validation or execution
    returned without success, validation forbade execution or returned no
    result, or a collaborator raised. *)
Definition failed_event (e : ChatbotOrchestrator.event) : bool :=
  match e with
  | ChatbotOrchestrator.Invoked _ => false
  | ChatbotOrchestrator.Returned ChatbotOrchestrator.VisualizationStage _ => false
  | ChatbotOrchestrator.Returned _ ok => negb ok
  | ChatbotOrchestrator.Validated r =>
      negb (success r) ||
      match ar_data r with Some v => negb (safe_to_execute v) | None => true end
  | ChatbotOrchestrator.Raised _ => true
  end.

Definition failed_with_message (r : ChatbotOrchestrator.ChatbotResponse) : Prop :=
  ChatbotOrchestrator.status r = FAILED /\
  exists m, ChatbotOrchestrator.error_message r = Some m /\ m <> [].

(** [post m s Q]: running [m] from the state [s] ends in an outcome and a
    state that satisfy [Q]. *)
Definition post {S A : Type} (m : M S A) (s : S)
    (Q : outcome A -> S -> Prop) : Prop :=
  Q (fst (m s)) (snd (m s)).

(** What every run of [process_query] satisfies. *)
Definition run_spec (o : outcome ChatbotOrchestrator.ChatbotResponse)
    (st : ChatbotOrchestrator.state) : Prop :=
  o = Ok (ChatbotOrchestrator.response st) /\
  guarded false (ChatbotOrchestrator.trace st) = true /\
  (existsb validated_unsafe (ChatbotOrchestrator.trace st) = true ->
   ChatbotOrchestrator.status (ChatbotOrchestrator.response st) = FAILED /\
   existsb is_execution (ChatbotOrchestrator.trace st) = false) /\
  (ChatbotOrchestrator.status (ChatbotOrchestrator.response st) = SUCCESS \/
   failed_with_message (ChatbotOrchestrator.response st)) /\
  (existsb failed_event (ChatbotOrchestrator.trace st) = true ->
   failed_with_message (ChatbotOrchestrator.response st)).

(** The statement with which [get_table_metadata] counts the rows of a
    table. *)
Definition count_statement (full_name : str) : str :=
  "SELECT COUNT(*) FROM " ++ full_name.

(** The text a request passes to [conn.execute], if it does. *)
Definition statement_of (r : DatabaseConnector.request) : list str :=
  match r with
  | DatabaseConnector.Execute text => [text]
  | DatabaseConnector.SelectCount full_name => [count_statement full_name]
  | _ => []
  end.

(** The statements the connector has passed to [conn.execute], most
    recent first: the queries of [execute_query] and the row counts of
    [get_table_metadata]. *)
Definition executed (d : DatabaseConnector.t) : list str :=
  flat_map statement_of (DatabaseConnector.sent d).

(** The row counts of the tables [tables] of [schema], the last one
    first. *)
Definition counts_of (schema : option str) (tables : list str) : list str :=
  rev (map (fun table =>
              count_statement (DatabaseConnector.full_name table schema))
           tables).

(** The database can list the columns of the table. *)
Definition readable (engine : DatabaseConnector.Engine) (schema : option str)
    (table : str) : bool :=
  match DatabaseConnector.inspector_get_columns engine table schema with
  | Ok _ => true
  | Raise _ => false
  end.

(** The database lists the table without any column: the tables of
    which [TableMetadata] accepts the metadata. *)
Definition columnless (engine : DatabaseConnector.Engine)
    (schema : option str) (table : str) : bool :=
  match DatabaseConnector.inspector_get_columns engine table schema with
  | Ok [] => true
  | _ => false
  end.

(** Names written in ASCII: the tables' and their columns'. *)
Definition ascii_names (tables : list TableMetadata) : bool :=
  forallb
    (fun table =>
       isascii (name table) &&
       forallb (fun column => isascii (column_name column)) (columns table))
    tables.

(** A database with one table [t] of [n] rows with one column, which
    answers every query with all its rows. *)
Definition table_of_rows (n : nat) : DatabaseConnector.Engine :=
  {| DatabaseConnector.inspector_get_table_names := fun _ => Ok ["t" : str];
     DatabaseConnector.inspector_get_columns := fun _ _ =>
       Ok [ {| column_name := "id"; column_type := "INTEGER";
               column_nullable := false |} ];
     DatabaseConnector.select_count := fun _ => Ok (Z.of_nat n);
     DatabaseConnector.conn_execute := fun _ =>
       Ok (map (fun i => [("id" : str, of_int (Z.of_nat i))]) (seq 0 n)) |}.

(** The ways [process_query] starts the [error_message] of a failure. *)
Definition failure_prefixes : list str :=
  [ "Failed to get schema: " : str;
    "Failed to generate SQL: " : str;
    "Validation failed: " : str;
    "Query failed safety validation: " : str;
    "Execution failed: " : str;
    "Unexpected error: " : str ].

(** The generation agent answered the question with the query [q]. *)
Definition generated (world : ChatbotOrchestrator.Collaborators)
    (user_query : str) (q : SQLQuery) : Prop :=
  exists context answer,
    ChatbotOrchestrator.generate_sql world user_query context = Ok answer /\
    success answer = true /\ ar_data answer = Some q.

(** The text passes the syntax check and the safety check reports no
    error for it. *)
Definition accepted (settings : Config.Settings) (text : str) : Prop :=
  ValidationAgent._check_syntax text = true /\
  snd (fst (QuerySafetyChecker.validate_query text
              (Config.allow_destructive_queries settings))) = [].

(** The row counts the schema stage of a run may have executed: none
    (the cache was filled, or the listing raised), or those of the listed
    tables whose columns the database can list. *)
Definition schema_counts (world : ChatbotOrchestrator.Collaborators)
    (counts : list str) : Prop :=
  counts = [] \/
  exists tables,
    DatabaseConnector.inspector_get_table_names
      (ChatbotOrchestrator.engine world) None = Ok tables /\
    counts =
      counts_of None
        (filter (readable (ChatbotOrchestrator.engine world) None) tables).

(** What a run of [process_query] leaves in the response and has passed
    to [conn.execute]. *)
Definition run_detail (settings : Config.Settings)
    (world : ChatbotOrchestrator.Collaborators) (user_query : str)
    (max_rows : option Z) (include_visualization : bool)
    (d : DatabaseConnector.t)
    (o : outcome ChatbotOrchestrator.ChatbotResponse)
    (st : ChatbotOrchestrator.state) : Prop :=
  let r := ChatbotOrchestrator.response st in
  let N := Config.max_query_rows settings in
  let m := ChatbotOrchestrator.effective_max_rows settings max_rows in
  let points := Config.max_chart_points settings in
  exists counts,
    schema_counts world counts /\
    ((ChatbotOrchestrator.status r = FAILED /\
      ChatbotOrchestrator.result r = None /\
      ChatbotOrchestrator.chart_html r = None /\
      (exists msg,
         ChatbotOrchestrator.error_message r = Some msg /\
         existsb (startswith msg) failure_prefixes = true) /\
      (executed (ChatbotOrchestrator.db st) = counts ++ executed d \/
       exists q text,
         generated world user_query q /\ accepted settings (sql q) /\
         RowLimitEnforcer.add_limit_clause (sql q) N = Ok text /\
         executed (ChatbotOrchestrator.db st) =
         text :: counts ++ executed d)) \/
     (ChatbotOrchestrator.status r = SUCCESS /\
      ChatbotOrchestrator.error_message r = None /\
      exists q text v rows res dropped charted,
        generated world user_query q /\ accepted settings (sql q) /\
        RowLimitEnforcer.add_limit_clause (sql q) N = Ok text /\
        ChatbotOrchestrator.response_sql r = Some (set_sql q text) /\
        ChatbotOrchestrator.validation r = Some v /\
        errors v = [] /\ is_valid v = true /\ safe_to_execute v = true /\
        executed (ChatbotOrchestrator.db st) = text :: counts ++ executed d /\
        DatabaseConnector.conn_execute (ChatbotOrchestrator.engine world)
          text = Ok rows /\
        ChatbotOrchestrator.result r = Some res /\
        rows = (data res ++ charted) ++ dropped /\
        result_row_count res = Z.of_nat (List.length (data res ++ charted)) /\
        ((0 < m)%Z -> (result_row_count res <= m)%Z) /\
        (include_visualization = false -> charted = []) /\
        (include_visualization = true ->
         (0 <= points < result_row_count res)%Z ->
         Z.of_nat (List.length (data res)) = points) /\
        (ChatbotOrchestrator.chart_html r <> None ->
         include_visualization = true /\ (0 < result_row_count res)%Z))).

(** The settings as [src/config.py] declares them, with nothing set in
    the environment. *)
Definition defaults : Config.Settings :=
  {| Config.llm_provider := ANTHROPIC;
     Config.llm_model := "claude-sonnet-4-20250514";
     Config.openai_api_key := None;
     Config.anthropic_api_key := None;
     Config.default_database_type := SNOWFLAKE;
     Config.snowflake_account := None;
     Config.snowflake_user := None;
     Config.snowflake_password := None;
     Config.snowflake_database := None;
     Config.snowflake_schema := None;
     Config.snowflake_warehouse := None;
     Config.snowflake_role := None;
     Config.databricks_server_hostname := None;
     Config.databricks_http_path := None;
     Config.databricks_token := None;
     Config.databricks_catalog := None;
     Config.databricks_schema := None;
     Config.postgres_host := None;
     Config.postgres_port := 5432;
     Config.postgres_database := None;
     Config.postgres_user := None;
     Config.postgres_password := None;
     Config.mysql_host := None;
     Config.mysql_port := 3306;
     Config.mysql_database := None;
     Config.mysql_user := None;
     Config.mysql_password := None;
     Config.max_query_rows := 10000;
     Config.query_timeout_seconds := 300;
     Config.allow_destructive_queries := false;
     Config.max_chart_points := 1000 |}.

(** Collaborators for the examples: the database [table_of_rows 5], a
    generation agent that always answers with the given text, no
    recommendation from the model and a renderer that returns a fixed
    page. *)
Definition answering (text : str) : ChatbotOrchestrator.Collaborators :=
  {| ChatbotOrchestrator.engine := table_of_rows 5;
     ChatbotOrchestrator.generate_sql := fun _ _ =>
       Ok (agent_ok {| sql := text; explanation := None;
                       tables_used := ["t" : str]; estimated_rows := None;
                       confidence_score := Some (9 # 10)%Q |});
     ChatbotOrchestrator.renderer :=
       {| VisualizationAgent.recommend_chart := fun _ _ => Raise "no model";
          VisualizationAgent._create_chart := fun _ _ =>
            Ok ("<div>chart</div>" : str) |} |}.

(** [str(n)] does not raise: [n] has at most [MAX_STR_DIGITS] digits. *)
Definition printable (n : Z) : bool :=
  (List.length (of_int (Z.abs n)) <=? MAX_STR_DIGITS)%nat.

(** * Properties *)

(** ** Characters *)

Ltac by_char c :=
  destruct c as [[] [] [] [] [] [] [] []]; vm_compute; try reflexivity;
  try discriminate; try (intros; discriminate); auto.

Lemma is_word_upper_char (c : ascii) : is_word (upper_char c) = is_word c.
Proof. by_char c. Qed.

Lemma digit_not_space (c : ascii) : is_digit c = true -> is_space c = false.
Proof. by_char c. Qed.

Lemma space_not_digit (c : ascii) : is_space c = true -> is_digit c = false.
Proof. by_char c. Qed.

Lemma ci_lower_eq (x c : ascii) :
  atom_ok true (Lit x) c = true -> lower_char c = lower_char x.
Proof.
  unfold atom_ok. intros H. apply Ascii.eqb_eq in H. now symmetry.
Qed.

Lemma upper_of_lower_char (c : ascii) : upper_char (lower_char c) = upper_char c.
Proof. by_char c. Qed.

Lemma ci_upper (x c : ascii) :
  atom_ok true (Lit x) c = true -> upper_char c = upper_char x.
Proof.
  intros H. apply ci_lower_eq in H.
  rewrite <- (upper_of_lower_char c), H. apply upper_of_lower_char.
Qed.

(** ** The matcher *)

Lemma match_star_cons ic a r prev c s g :
  match_here ic (Star a :: r) prev (c :: s) g =
  if atom_ok ic a c
  then match match_here ic (Star a :: r) (Some c) s g with
       | Some m => Some m
       | None => match_here ic r prev (c :: s) g
       end
  else match_here ic r prev (c :: s) g.
Proof. reflexivity. Qed.

Lemma match_star_nil ic a r prev g :
  match_here ic (Star a :: r) prev [] g = match_here ic r prev [] g.
Proof. reflexivity. Qed.

Lemma match_one_cons ic a r prev c s g :
  match_here ic (One a :: r) prev (c :: s) g =
  if atom_ok ic a c then match_here ic r (Some c) s g else None.
Proof. reflexivity. Qed.

Lemma take_while_lstrip p s : take_while p s ++ lstrip_by p s = s.
Proof.
  induction s as [|c s IH]; simpl; [reflexivity|].
  destruct (p c); simpl; [now rewrite IH | reflexivity].
Qed.

Lemma take_while_all p s : Forall (fun c => p c = true) (take_while p s).
Proof.
  induction s as [|c s IH]; simpl; [constructor|].
  destruct (p c) eqn:E; [constructor; assumption | constructor].
Qed.

Lemma lstrip_by_head p s c s' : lstrip_by p s = c :: s' -> p c = false.
Proof.
  induction s as [|x s IH]; simpl; [discriminate|].
  destruct (p x) eqn:E; [assumption|].
  intros H; injection H as -> _; assumption.
Qed.

Lemma lstrip_by_length p s : (List.length (lstrip_by p s) <= List.length s)%nat.
Proof.
  induction s as [|x s IH]; simpl; [lia|]. destruct (p x); simpl; lia.
Qed.

Lemma firstn_take_while p s :
  firstn (List.length s - List.length (lstrip_by p s)) s = take_while p s.
Proof.
  rewrite <- (take_while_lstrip p s) at 1 3.
  rewrite length_app, Nat.add_sub.
  rewrite firstn_app, Nat.sub_diag, firstn_all. simpl. now rewrite app_nil_r.
Qed.

(** A greedy star never gives characters back when what follows cannot
    start with one of them. *)
Lemma match_star_commit ic a r g :
  (forall prev c s, atom_ok ic a c = true ->
                    match_here ic r prev (c :: s) g = None) ->
  forall s prev,
    match_here ic (Star a :: r) prev s g =
    match_here ic r (run_end (atom_ok ic a) prev s)
      (lstrip_by (atom_ok ic a) s) g.
Proof.
  intros Hr. induction s as [|c s IH]; intros prev.
  - reflexivity.
  - rewrite match_star_cons. cbn [lstrip_by run_end].
    destruct (atom_ok ic a c) eqn:E.
    + rewrite IH.
      destruct (match_here ic r _ (lstrip_by _ s) g); [reflexivity|].
      now apply Hr.
    + reflexivity.
Qed.

(** Nor when what follows always succeeds. *)
Lemma match_star_total ic a r g :
  (forall prev s, match_here ic r prev s g <> None) ->
  forall s prev,
    match_here ic (Star a :: r) prev s g =
    match_here ic r (run_end (atom_ok ic a) prev s)
      (lstrip_by (atom_ok ic a) s) g.
Proof.
  intros Hr. induction s as [|c s IH]; intros prev.
  - reflexivity.
  - rewrite match_star_cons. cbn [lstrip_by run_end].
    destruct (atom_ok ic a c) eqn:E.
    + rewrite IH.
      destruct (match_here ic r _ (lstrip_by _ s) g) eqn:F; [reflexivity|].
      now apply Hr in F.
    + reflexivity.
Qed.

(** A match somewhere gives [re.search] a match. *)
Lemma search_from_found ic r suf m :
  forall pre prev,
    match_here ic r (last_char prev pre) suf no_groups = Some m ->
    search_from ic r prev (pre ++ suf) <> None.
Proof.
  induction pre as [|c pre IH]; intros prev H; simpl in H.
  - destruct suf; simpl; rewrite H; discriminate.
  - simpl. destruct (match_here ic r prev (c :: pre ++ suf) no_groups);
      [discriminate|]. now apply IH.
Qed.

(** What [re.search] finds is a match at some position. *)
Lemma search_from_inv ic r m :
  forall s prev,
    search_from ic r prev s = Some m ->
    exists pre suf,
      s = pre ++ suf /\
      match_here ic r (last_char prev pre) suf no_groups = Some m.
Proof.
  induction s as [|c s IH]; intros prev H; simpl in H.
  - destruct (match_here ic r prev [] no_groups) eqn:E; [|discriminate].
    exists [], []. now rewrite <- H.
  - destruct (match_here ic r prev (c :: s) no_groups) eqn:E.
    + exists [], (c :: s). now rewrite <- H.
    + destruct (IH _ H) as (pre & suf & -> & Hm).
      exists (c :: pre), suf. split; [reflexivity | exact Hm].
Qed.

(** When [re.search] fails, the pattern matches at no position. *)
Lemma search_from_none ic r :
  forall pre suf prev,
    search_from ic r prev (pre ++ suf) = None ->
    match_here ic r (last_char prev pre) suf no_groups = None.
Proof.
  induction pre as [|c pre IH]; intros suf prev H; simpl in *.
  - destruct suf; simpl in H;
      destruct (match_here ic r prev _ no_groups); [discriminate| reflexivity
      |discriminate|reflexivity].
  - destruct (match_here ic r prev (c :: pre ++ suf) no_groups);
      [discriminate|]. now apply IH.
Qed.

(** ** The row-limit pattern *)

Lemma limit_from_L6 s : limit_from L6 s = digits_at (lstrip_by is_space s).
Proof.
  induction s as [|c s IH]; [reflexivity|]. simpl.
  destruct (is_space c) eqn:E; [exact IH|]. reflexivity.
Qed.

Lemma digits_at_space c s : is_space c = true -> digits_at (c :: s) = None.
Proof. intros H. unfold digits_at. now rewrite (space_not_digit _ H). Qed.

Lemma match_digits grouped prev s :
  match_here true (skipn 7 (residual grouped L0)) prev s no_groups =
  report grouped (digits_at s).
Proof.
  destruct s as [|d u]; [now destruct grouped|].
  assert (T : forall g', forall p x,
             match_here true [GClose] p x g' <> None) by (intros; discriminate).
  assert (T' : forall p x, match_here true [] p x no_groups <> None)
    by (intros; discriminate).
  destruct grouped.
  - change (skipn 7 (residual true L0))
      with [GOpen; One Digit; Star Digit; GClose].
    change (match_here true [GOpen; One Digit; Star Digit; GClose] prev (d :: u) no_groups)
      with (match_here true [One Digit; Star Digit; GClose] prev (d :: u)
              (open_group no_groups (d :: u))).
    rewrite match_one_cons. cbn [atom_ok]. unfold digits_at.
    destruct (is_digit d) eqn:E; [|reflexivity].
    rewrite (match_star_total true Digit [GClose] _ (T _)).
    cbn [match_here close_group open_group g_open g_text atom_ok report].
    change (atom_ok true Digit) with is_digit.
    assert (R : lstrip_by is_digit (d :: u) = lstrip_by is_digit u)
      by (cbn [lstrip_by]; now rewrite E).
    rewrite <- R, firstn_take_while. reflexivity.
  - change (skipn 7 (residual false L0)) with [One Digit; Star Digit].
    rewrite match_one_cons. cbn [atom_ok]. unfold digits_at.
    destruct (is_digit d) eqn:E; [|reflexivity].
    rewrite (match_star_total true Digit [] _ T').
    cbn [match_here report take_while lstrip_by g_text no_groups atom_ok].
    now rewrite E.
Qed.

Lemma match_limit_from grouped q :
  forall s prev,
    match_here true (residual grouped q) prev s no_groups =
    report grouped (limit_from q s).
Proof.
  assert (H6 : forall s prev,
             match_here true (residual grouped L6) prev s no_groups =
             report grouped (limit_from L6 s)).
  { intros s prev. rewrite limit_from_L6.
    replace (residual grouped L6)
      with (Star Space :: skipn 7 (residual grouped L0))
      by (destruct grouped; vm_compute; reflexivity).
    rewrite match_star_commit.
    - apply match_digits.
    - intros p c x Hc. rewrite match_digits, digits_at_space; [reflexivity|].
      exact Hc. }
  assert (H5 : forall s prev,
             match_here true (residual grouped L5) prev s no_groups =
             report grouped (limit_from L5 s)).
  { intros [|c s] prev; [destruct grouped; vm_compute; reflexivity|].
    replace (residual grouped L5) with (One Space :: residual grouped L6)
      by (destruct grouped; vm_compute; reflexivity).
    rewrite match_one_cons. cbn [limit_from atom_ok].
    destruct (is_space c); [apply H6 | reflexivity]. }
  assert (step : forall x q q',
             residual grouped q = One (Lit x) :: residual grouped q' ->
             (forall c s, limit_from q (c :: s) =
                          if ci x c then limit_from q' s else None) ->
             (forall s prev,
                 match_here true (residual grouped q') prev s no_groups =
                 report grouped (limit_from q' s)) ->
             forall s prev,
               match_here true (residual grouped q) prev s no_groups =
               report grouped (limit_from q s)).
  { intros x q0 q' Hr Hl IH [|c s] prev.
    - rewrite Hr. now destruct q0.
    - rewrite Hr, match_one_cons, Hl. fold (ci x c).
      destruct (ci x c); [apply IH | reflexivity]. }
  assert (H4 := step "T"%char L4 L5
                  ltac:(destruct grouped; vm_compute; reflexivity)
                  ltac:(reflexivity) H5).
  assert (H3 := step "I"%char L3 L4
                  ltac:(destruct grouped; vm_compute; reflexivity)
                  ltac:(reflexivity) H4).
  assert (H2 := step "M"%char L2 L3
                  ltac:(destruct grouped; vm_compute; reflexivity)
                  ltac:(reflexivity) H3).
  assert (H1 := step "I"%char L1 L2
                  ltac:(destruct grouped; vm_compute; reflexivity)
                  ltac:(reflexivity) H2).
  assert (H0 := step "L"%char L0 L1
                  ltac:(destruct grouped; vm_compute; reflexivity)
                  ltac:(reflexivity) H1).
  destruct q; assumption.
Qed.

Lemma match_limit_plain prev s :
  match_here true LIMIT_PLAIN prev s no_groups =
  report false (limit_from L0 s).
Proof. exact (match_limit_from false L0 s prev). Qed.

Lemma match_limit_group prev s :
  match_here true LIMIT_GROUP prev s no_groups =
  report true (limit_from L0 s).
Proof. exact (match_limit_from true L0 s prev). Qed.

(** A match takes at least one character and leaves a suffix. *)
Lemma limit_from_split q :
  forall s ds rest,
    limit_from q s = Some (ds, rest) ->
    exists used, s = used ++ rest /\ used <> [].
Proof.
  assert (D : forall s ds rest,
             digits_at s = Some (ds, rest) ->
             exists used, s = used ++ rest /\ used <> []).
  { intros [|d u] ds rest; unfold digits_at; [discriminate|].
    destruct (is_digit d) eqn:E; [|discriminate].
    intros H; injection H as <- <-. exists (take_while is_digit (d :: u)).
    split; [now rewrite take_while_lstrip|].
    cbn [take_while]. rewrite E. discriminate. }
  assert (C : forall (c : ascii) s rest,
             (exists used, s = used ++ rest /\ used <> []) ->
             exists used, c :: s = used ++ rest /\ used <> []).
  { intros c s rest (used & -> & _). exists (c :: used).
    split; [reflexivity | discriminate]. }
  intros s. revert q.
  induction s as [|c s IH]; intros q ds rest H; [discriminate|].
  destruct q; cbn [limit_from] in H;
    try (match type of H with
         | (if ?b then _ else _) = _ => destruct b eqn:E; [|discriminate]
         end; apply C; eapply IH; exact H).
  destruct (is_space c) eqn:E.
  - apply C. eapply IH. exact H.
  - eapply D. exact H.
Qed.

Lemma limit_from_rest_head q :
  forall s ds rest c rest',
    limit_from q s = Some (ds, rest) -> rest = c :: rest' ->
    is_digit c = false.
Proof.
  intros s. revert q.
  induction s as [|x s IH]; intros q ds rest c rest' H ->; [discriminate|].
  assert (D : digits_at (x :: s) = Some (ds, c :: rest') -> is_digit c = false).
  { unfold digits_at. destruct (is_digit x); [|discriminate].
    intros E; injection E as _ E.
    exact (lstrip_by_head is_digit (x :: s) _ _ E). }
  destruct q; cbn [limit_from] in H;
    try (match type of H with
         | (if ?b then _ else _) = _ => destruct b eqn:E; [|discriminate]
         end; eapply IH; [exact H | reflexivity]).
  destruct (is_space x) eqn:E.
  - eapply IH; [exact H | reflexivity].
  - now apply D.
Qed.

Lemma limit_from_digits q :
  forall s ds rest,
    limit_from q s = Some (ds, rest) ->
    ds <> [] /\ Forall (fun c => is_digit c = true) ds.
Proof.
  intros s. revert q.
  induction s as [|x s IH]; intros q ds rest H; [discriminate|].
  assert (D : digits_at (x :: s) = Some (ds, rest) ->
              ds <> [] /\ Forall (fun c => is_digit c = true) ds).
  { unfold digits_at. destruct (is_digit x) eqn:E; [|discriminate].
    intros F; injection F as <- _.
    split; [|exact (take_while_all is_digit (x :: s))].
    cbn [take_while]. rewrite E. discriminate. }
  destruct q; cbn [limit_from] in H;
    try (match type of H with
         | (if ?b then _ else _) = _ => destruct b eqn:E; [|discriminate]
         end; eapply IH; exact H).
  destruct (is_space x) eqn:E.
  - eapply IH; exact H.
  - now apply D.
Qed.

(** ** The substitution *)

Lemma limit_sub_prev repl s skip p p' :
  sub_from true LIMIT_PLAIN repl skip p s =
  sub_from true LIMIT_PLAIN repl skip p' s.
Proof.
  destruct s as [|c s], skip as [|n]; cbn [sub_from]; try reflexivity;
    now rewrite !match_limit_plain.
Qed.

Lemma limit_sub_skip repl :
  forall n s p,
    sub_from true LIMIT_PLAIN repl n p s = limit_sub repl (skipn n s).
Proof.
  unfold limit_sub. induction n as [|n IH]; intros s p.
  - cbn [skipn]. apply limit_sub_prev.
  - destruct s as [|c s]; cbn [sub_from skipn].
    + now rewrite match_limit_plain.
    + apply IH.
Qed.

Lemma limit_sub_nil repl : limit_sub repl [] = [].
Proof. unfold limit_sub. cbn [sub_from]. now rewrite match_limit_plain. Qed.

Lemma limit_sub_match repl s ds rest :
  limit_from L0 s = Some (ds, rest) ->
  limit_sub repl s = repl ++ limit_sub repl rest.
Proof.
  intros H. destruct (limit_from_split _ _ _ _ H) as (used & -> & Hu).
  destruct used as [|c used]; [contradiction|].
  unfold limit_sub at 1. cbn [sub_from app].
  rewrite match_limit_plain. change (c :: used ++ rest) with ((c :: used) ++ rest).
  rewrite H. cbn [report].
  replace (List.length ((c :: used) ++ rest) - List.length rest)%nat
    with (S (List.length used)) by (rewrite length_app; cbn [List.length]; lia).
  f_equal. cbn [app]. rewrite limit_sub_skip.
  now rewrite skipn_app, skipn_all, Nat.sub_diag.
Qed.

Lemma limit_sub_step repl c s :
  limit_from L0 (c :: s) = None ->
  limit_sub repl (c :: s) = c :: limit_sub repl s.
Proof.
  intros H. unfold limit_sub at 1. cbn [sub_from].
  rewrite match_limit_plain, H. cbn [report]. f_equal. apply limit_sub_prev.
Qed.

(** ** Decimal numerals *)

Lemma string_of_uint_digits (d : Decimal.uint) :
  Forall (fun c => is_digit c = true)
    (list_ascii_of_string (DecimalString.NilEmpty.string_of_uint d)).
Proof.
  induction d; cbn [DecimalString.NilEmpty.string_of_uint list_ascii_of_string];
    constructor; auto.
Qed.

Lemma of_int_pos (n : Z) :
  (0 < n)%Z ->
  exists d, Z.to_int n = Decimal.Pos d /\ d <> Decimal.Nil /\
            of_int n = list_ascii_of_string (DecimalString.NilEmpty.string_of_uint d).
Proof.
  intros H. destruct n as [|p|p]; try lia.
  exists (Pos.to_uint p). repeat split.
  apply DecimalPos.Unsigned.to_uint_nonnil.
Qed.

Lemma of_int_digits (n : Z) :
  (0 < n)%Z -> Forall (fun c => is_digit c = true) (of_int n).
Proof.
  intros H. destruct (of_int_pos n H) as (d & _ & _ & ->).
  apply string_of_uint_digits.
Qed.

Lemma of_int_nonempty (n : Z) : (0 < n)%Z -> of_int n <> [].
Proof.
  intros H. destruct (of_int_pos n H) as (d & _ & Hd & ->).
  destruct d; try contradiction; discriminate.
Qed.

Lemma int_value_of_int (n : Z) : (0 < n)%Z -> int_value (of_int n) = n.
Proof.
  intros H. destruct (of_int_pos n H) as (d & Hd & _ & E).
  unfold int_value. rewrite E, string_of_list_ascii_of_string.
  rewrite DecimalString.NilEmpty.usu.
  rewrite <- (DecimalZ.of_to n), Hd. reflexivity.
Qed.

(** ** Substrings *)

Lemma startswith_app p x : startswith (p ++ x) p = true.
Proof.
  induction p as [|c p IH]; [now destruct x|].
  cbn [app startswith]. now rewrite Ascii.eqb_refl, IH.
Qed.

Lemma startswith_inv p : forall s,
  startswith s p = true -> exists x, s = p ++ x.
Proof.
  induction p as [|c p IH]; intros s H.
  - now exists s.
  - destruct s as [|x s]; [discriminate|]. cbn [startswith] in H.
    apply andb_prop in H as [E H]. apply Ascii.eqb_eq in E as ->.
    destruct (IH _ H) as (y & ->). now exists y.
Qed.

Lemma contains_here sub s : startswith s sub = true -> contains sub s = true.
Proof. intros H. destruct s; cbn [contains]; now rewrite H. Qed.

Lemma contains_cons sub c s : contains sub s = true -> contains sub (c :: s) = true.
Proof. intros H. cbn [contains]. rewrite H. apply orb_true_r. Qed.

Lemma contains_app sub pre s :
  contains sub s = true -> contains sub (pre ++ s) = true.
Proof.
  intros H. induction pre as [|c pre IH]; [exact H|].
  now apply contains_cons.
Qed.

Lemma contains_inv sub : forall s,
  contains sub s = true -> exists pre post, s = pre ++ sub ++ post.
Proof.
  induction s as [|c s IH]; cbn [contains]; intros H.
  - rewrite orb_false_r in H. destruct (startswith_inv _ _ H) as (x & ->).
    now exists [], x.
  - apply orb_prop in H as [H|H].
    + destruct (startswith_inv _ _ H) as (x & ->). now exists [], x.
    + destruct (IH H) as (pre & post & ->). now exists (c :: pre), post.
Qed.

(** ** No clause appears that the substitution did not write *)

Lemma limit_from_L q x :
  q <> L0 -> limit_from q ("L"%char :: x) = None.
Proof. destruct q; intros H; [contradiction| reflexivity ..]. Qed.

Lemma limit_sub_no_new repl0 :
  let repl := "L"%char :: repl0 in
  forall n t, (List.length t <= n)%nat ->
  forall q, q <> L0 ->
    limit_from q (limit_sub repl t) <> None -> limit_from q t <> None.
Proof.
  intros repl. induction n as [|n IH]; intros t Hn q Hq H.
  - destruct t; [|cbn [List.length] in Hn; lia].
    now rewrite limit_sub_nil in H.
  - destruct (limit_from L0 t) as [[ds rest]|] eqn:E.
    + rewrite (limit_sub_match _ _ _ _ E) in H.
      unfold repl in H. cbn [app] in H. now rewrite limit_from_L in H.
    + destruct t as [|c t]; [now rewrite limit_sub_nil in H|].
      rewrite (limit_sub_step _ _ _ E) in H.
      cbn [List.length] in Hn. assert (Ht : (List.length t <= n)%nat) by lia.
      destruct q; try contradiction; cbn [limit_from] in *;
        try (match goal with
             | |- (if ?b then _ else _) <> None =>
                 destruct b; [|exact H]
             end; apply (IH t Ht); [discriminate | exact H]).
      destruct (is_space c).
      * apply (IH t Ht); [discriminate | exact H].
      * unfold digits_at in *. destruct (is_digit c); [discriminate|exact H].
Qed.

Lemma only_limit_nil ds0 : only_limit ds0 [].
Proof.
  intros pre suf ds rest E H. symmetry in E.
  apply app_eq_nil in E as [_ ->]. discriminate.
Qed.

Lemma only_limit_cons ds0 c s :
  (forall ds rest, limit_from L0 (c :: s) = Some (ds, rest) -> ds = ds0) ->
  only_limit ds0 s -> only_limit ds0 (c :: s).
Proof.
  intros Hc Hs pre suf ds rest E H. destruct pre as [|x pre].
  - cbn [app] in E. subst suf. eapply Hc. exact H.
  - injection E as _ E. eapply Hs; eassumption.
Qed.

Lemma only_limit_skip ds0 c s :
  ci "L" c = false -> only_limit ds0 s -> only_limit ds0 (c :: s).
Proof.
  intros Hc. apply only_limit_cons. intros ds rest.
  cbn [limit_from]. now rewrite Hc.
Qed.

Lemma digit_not_L c : is_digit c = true -> ci "L" c = false.
Proof. by_char c. Qed.

Lemma only_limit_digits ds0 d s :
  Forall (fun c => is_digit c = true) d ->
  only_limit ds0 s -> only_limit ds0 (d ++ s).
Proof.
  induction 1 as [|c d Hc _ IH]; intros Hs; [exact Hs|].
  cbn [app]. apply only_limit_skip; [now apply digit_not_L | now apply IH].
Qed.

Lemma take_while_app_stop p d s :
  Forall (fun c => p c = true) d ->
  take_while p s = [] -> take_while p (d ++ s) = d.
Proof.
  induction 1 as [|c d Hc _ IH]; intros Hs; [exact Hs|].
  cbn [app take_while]. now rewrite Hc, IH.
Qed.

(** The clause the substitution writes reads back as written. *)
Lemma limit_from_written d s ds rest :
  d <> [] -> Forall (fun c => is_digit c = true) d ->
  take_while is_digit s = [] ->
  limit_from L0 ("LIMIT " ++ d ++ s) = Some (ds, rest) -> ds = d.
Proof.
  intros Hne Hd Hs.
  change (limit_from L0 ("LIMIT " ++ d ++ s)) with (limit_from L6 (d ++ s)).
  destruct Hd as [|c d Hc Hd]; [contradiction|].
  cbn [app limit_from]. rewrite (digit_not_space _ Hc).
  unfold digits_at. rewrite Hc. intros H; injection H as <- _.
  apply (take_while_app_stop is_digit (c :: d) s); [now constructor | exact Hs].
Qed.

Lemma limit_sub_head repl0 s :
  take_while is_digit s = [] ->
  take_while is_digit (limit_sub ("L"%char :: repl0) s) = [].
Proof.
  intros H. destruct (limit_from L0 s) as [[ds rest]|] eqn:E.
  - rewrite (limit_sub_match _ _ _ _ E). reflexivity.
  - destruct s as [|c s]; [now rewrite limit_sub_nil|].
    rewrite (limit_sub_step _ _ _ E). cbn [take_while] in *.
    destruct (is_digit c); [discriminate | reflexivity].
Qed.

Lemma limit_rest_no_digit q s ds rest :
  limit_from q s = Some (ds, rest) -> take_while is_digit rest = [].
Proof.
  intros H. destruct rest as [|c rest']; [reflexivity|].
  cbn [take_while].
  now rewrite (limit_from_rest_head _ _ _ _ _ _ H eq_refl).
Qed.

(** After the substitution every clause carries the replacement's number. *)
Lemma limit_sub_only d :
  d <> [] -> Forall (fun c => is_digit c = true) d ->
  forall n s, (List.length s <= n)%nat ->
    only_limit d (limit_sub ("LIMIT " ++ d) s).
Proof.
  intros Hne Hd. induction n as [|n IH]; intros s Hn.
  - destruct s; [|cbn [List.length] in Hn; lia].
    rewrite limit_sub_nil. apply only_limit_nil.
  - destruct (limit_from L0 s) as [[ds rest]|] eqn:E.
    + rewrite (limit_sub_match _ _ _ _ E).
      destruct (limit_from_split _ _ _ _ E) as (used & Hs & Hu).
      assert (Hr : (List.length rest <= n)%nat).
      { subst s. rewrite length_app in Hn.
        destruct used; [contradiction|]. cbn [List.length] in Hn. lia. }
      specialize (IH rest Hr).
      rewrite <- app_assoc.
      change ("LIMIT " ++ d ++ limit_sub ("LIMIT " ++ d) rest)
        with ("L"%char :: "I"%char :: "M"%char :: "I"%char :: "T"%char ::
              " "%char :: d ++ limit_sub ("LIMIT " ++ d) rest).
      apply only_limit_cons.
      * intros ds' rest' H.
        apply (limit_from_written d (limit_sub ("LIMIT " ++ d) rest) ds' rest');
          [exact Hne | exact Hd | | exact H].
        apply (limit_sub_head ("IMIT " ++ d)).
        eapply limit_rest_no_digit. exact E.
      * repeat (apply only_limit_skip; [reflexivity|]).
        now apply only_limit_digits.
    + destruct s as [|c s]; [rewrite limit_sub_nil; apply only_limit_nil|].
      rewrite (limit_sub_step _ _ _ E).
      cbn [List.length] in Hn. assert (Hs : (List.length s <= n)%nat) by lia.
      apply only_limit_cons; [|now apply IH].
      intros ds rest H. exfalso.
      cbn [limit_from] in E, H. destruct (ci "L" c); [|discriminate].
      assert (F : limit_from L1 (limit_sub ("LIMIT " ++ d) s) <> None)
        by (rewrite H; discriminate).
      apply (limit_sub_no_new ("IMIT " ++ d) n s Hs L1) in F;
        [contradiction | discriminate].
Qed.

(** The substitution writes its replacement wherever a clause stood. *)
Lemma limit_sub_contains repl suf :
  limit_from L0 suf <> None ->
  forall pre, contains repl (limit_sub repl (pre ++ suf)) = true.
Proof.
  intros H. induction pre as [|c pre IH].
  - cbn [app]. destruct (limit_from L0 suf) as [[ds rest]|] eqn:E;
      [|contradiction].
    rewrite (limit_sub_match _ _ _ _ E). apply contains_here, startswith_app.
  - cbn [app]. destruct (limit_from L0 (c :: pre ++ suf)) as [[ds rest]|] eqn:E.
    + rewrite (limit_sub_match _ _ _ _ E). apply contains_here, startswith_app.
    + rewrite (limit_sub_step _ _ _ E). now apply contains_cons.
Qed.


(** ** [RowLimitEnforcer] *)

Lemma compile_limit_group : re_compile "LIMIT\s+(\d+)" = LIMIT_GROUP.
Proof. vm_compute. reflexivity. Qed.

Lemma compile_limit_plain : re_compile "LIMIT\s+\d+" = LIMIT_PLAIN.
Proof. vm_compute. reflexivity. Qed.

Lemma re_search_limit s :
  re_search "LIMIT\s+(\d+)" s true = search_from true LIMIT_GROUP None s.
Proof. unfold re_search. now rewrite compile_limit_group. Qed.

Lemma re_sub_limit repl s :
  re_sub "LIMIT\s+\d+" repl s true = limit_sub repl s.
Proof. unfold re_sub, limit_sub. now rewrite compile_limit_plain. Qed.

Lemma int_value_nonneg s : (0 <= int_value s)%Z.
Proof.
  unfold int_value.
  destruct (DecimalString.NilEmpty.uint_of_string _); [|lia].
  unfold Z.of_uint. apply N2Z.is_nonneg.
Qed.

Lemma startswith_nil s : startswith s [] = true.
Proof. now destruct s. Qed.

(** A match of the pattern starts with the letters of [LIMIT]. *)
Lemma limit_from_upper s :
  limit_from L0 s <> None -> startswith (upper s) "LIMIT" = true.
Proof.
  destruct s as [|c1 [|c2 [|c3 [|c4 [|c5 s]]]]]; cbn [limit_from];
    repeat match goal with
           | |- (if ?b then _ else _) <> None -> _ =>
               let E := fresh "E" in
               destruct b eqn:E; [|intros F; now contradiction F]
           | |- None <> None -> _ => intros F; now contradiction F
           end.
  intros _. unfold ci in *.
  apply ci_upper in E, E0, E1, E2, E3.
  cbn [upper map]. rewrite E, E0, E1, E2, E3.
  cbn [startswith list_ascii_of_string]. rewrite startswith_nil.
  vm_compute. reflexivity.
Qed.

Lemma search_limit_inv s m :
  search_from true LIMIT_GROUP None s = Some m ->
  exists pre suf ds rest,
    s = pre ++ suf /\ limit_from L0 suf = Some (ds, rest) /\
    m = (rest, Some ds).
Proof.
  intros H. destruct (search_from_inv _ _ _ _ _ H) as (pre & suf & -> & Hm).
  rewrite match_limit_group in Hm.
  destruct (limit_from L0 suf) as [[ds rest]|] eqn:E; [|discriminate].
  injection Hm as <-. now exists pre, suf, ds, rest.
Qed.

Lemma search_limit_contains s m :
  search_from true LIMIT_GROUP None s = Some m ->
  contains "LIMIT" (upper s) = true.
Proof.
  intros H. destruct (search_limit_inv _ _ H) as (pre & suf & ds & rest & -> & E & _).
  unfold upper. rewrite map_app. apply contains_app, contains_here.
  apply limit_from_upper. rewrite E. discriminate.
Qed.

Lemma search_limit_has s m :
  search_from true LIMIT_GROUP None s = Some m ->
  has_limit s (int_value (RowLimitEnforcer.group1 m)).
Proof.
  intros H. destruct (search_from_inv _ _ _ _ _ H) as (pre & suf & -> & Hm).
  now exists pre, suf, m.
Qed.


Lemma to_int_ok s :
  (List.length s <= MAX_STR_DIGITS)%nat -> to_int s = Ok (int_value s).
Proof.
  intros H. unfold to_int. apply Nat.ltb_ge in H. now rewrite H.
Qed.

Lemma to_int_inv s k :
  to_int s = Ok k -> (List.length s <= MAX_STR_DIGITS)%nat /\ k = int_value s.
Proof.
  unfold to_int. destruct (Nat.ltb_spec MAX_STR_DIGITS (List.length s));
    [discriminate|].
  intros E. injection E as <-. now split.
Qed.

Lemma to_int_raise s e :
  to_int s = Raise e -> (MAX_STR_DIGITS < List.length s)%nat.
Proof.
  unfold to_int. destruct (Nat.ltb_spec MAX_STR_DIGITS (List.length s));
    [now intros _ | discriminate].
Qed.

Lemma format_int_ok n : printable n = true -> format_int n = Ok (of_int n).
Proof.
  unfold printable, format_int. intros H. apply Nat.leb_le in H.
  apply Nat.ltb_ge in H. now rewrite H.
Qed.

Lemma format_int_inv n d :
  format_int n = Ok d -> d = of_int n /\ printable n = true.
Proof.
  unfold printable, format_int.
  destruct (Nat.ltb_spec MAX_STR_DIGITS (List.length (of_int (Z.abs n))));
    [discriminate|].
  intros E. injection E as <-. split; [reflexivity | now apply Nat.leb_le].
Qed.

Lemma estimate_none s :
  RowLimitEnforcer.estimate_result_size s = Ok (-1)%Z <->
  re_search "LIMIT\s+(\d+)" s true = None.
Proof.
  unfold RowLimitEnforcer.estimate_result_size.
  destruct (re_search _ s true) as [m|]; split; try reflexivity; try discriminate.
  intros H. apply to_int_inv in H as [_ H].
  pose proof (int_value_nonneg (RowLimitEnforcer.group1 m)). lia.
Qed.

Lemma estimate_some s m :
  re_search "LIMIT\s+(\d+)" s true = Some m ->
  RowLimitEnforcer.estimate_result_size s = to_int (RowLimitEnforcer.group1 m).
Proof. unfold RowLimitEnforcer.estimate_result_size. now intros ->. Qed.

(** Without a numbered clause the limit is appended. *)
Lemma add_limit_clause_append s n :
  re_search "LIMIT\s+(\d+)" s true = None ->
  RowLimitEnforcer.add_limit_clause s n =
  and_then (format_int n) (fun d =>
  Ok (rstrip s ";" ++ (String "010" "LIMIT " : string) ++ d)).
Proof.
  intros H. unfold RowLimitEnforcer.add_limit_clause. rewrite H.
  now destruct (contains "LIMIT" (upper s)).
Qed.

(** With a numbered clause, the number of the first one decides. *)
Lemma add_limit_clause_some s n m :
  re_search "LIMIT\s+(\d+)" s true = Some m ->
  RowLimitEnforcer.add_limit_clause s n =
  and_then (to_int (RowLimitEnforcer.group1 m)) (fun k =>
  if (k <=? n)%Z then Ok s
  else and_then (format_int n) (fun d => Ok (limit_sub ("LIMIT " ++ d) s))).
Proof.
  intros H. unfold RowLimitEnforcer.add_limit_clause. rewrite H.
  rewrite re_search_limit in H. rewrite (search_limit_contains _ _ H).
  destruct (to_int (RowLimitEnforcer.group1 m)) as [k|e]; [|reflexivity].
  cbn [and_then]. destruct (k <=? n)%Z; [reflexivity|].
  destruct (format_int n) as [d|e]; [|reflexivity].
  cbn [and_then]. now rewrite re_sub_limit.
Qed.

(** A first clause within the bound leaves the text as it is. *)
Lemma add_limit_clause_keep s n m :
  re_search "LIMIT\s+(\d+)" s true = Some m ->
  (List.length (RowLimitEnforcer.group1 m) <= MAX_STR_DIGITS)%nat ->
  (int_value (RowLimitEnforcer.group1 m) <= n)%Z ->
  RowLimitEnforcer.add_limit_clause s n = Ok s.
Proof.
  intros H Hd Hk. rewrite (add_limit_clause_some _ _ _ H), (to_int_ok _ Hd).
  cbn [and_then]. apply Z.leb_le in Hk. now rewrite Hk.
Qed.

(** A first clause above the bound has every clause rewritten. *)
Lemma add_limit_clause_sub s n m :
  re_search "LIMIT\s+(\d+)" s true = Some m ->
  (List.length (RowLimitEnforcer.group1 m) <= MAX_STR_DIGITS)%nat ->
  (n < int_value (RowLimitEnforcer.group1 m))%Z ->
  printable n = true ->
  RowLimitEnforcer.add_limit_clause s n =
  Ok (limit_sub ("LIMIT " ++ of_int n) s).
Proof.
  intros H Hd Hk Hp. rewrite (add_limit_clause_some _ _ _ H), (to_int_ok _ Hd).
  cbn [and_then]. apply Z.leb_gt in Hk. rewrite Hk.
  now rewrite (format_int_ok _ Hp).
Qed.

(** What [validate_query] returns and leaves in the candidate.  It fails,
    leaving the candidate as it was, exactly when [int] raises on the
    number of the first clause, or the limit has to be enforced and
    [max_rows] cannot be printed.  Otherwise it succeeds and leaves in the
    candidate what [add_limit_clause] returns for its text, whether or not
    it calls it. *)
Lemma validate_query_run self q uq :
  let N := ValidationAgent.max_rows self in
  let run := ValidationAgent.validate_query self (Some q) uq in
  match RowLimitEnforcer.estimate_result_size (sql q) with
  | Raise e => run = (agent_failed e, Some q)
  | Ok k =>
      if ((k =? -1)%Z || (N <? k)%Z) && negb (printable N)
      then exists e, format_int N = Raise e /\ run = (agent_failed e, Some q)
      else
        exists v limited,
          RowLimitEnforcer.add_limit_clause (sql q) N = Ok limited /\
          run = (agent_ok v, Some (set_sql q limited)) /\
          is_valid v = (List.length (errors v) =? 0)%nat /\
          safe_to_execute v = (List.length (errors v) =? 0)%nat /\
          errors v =
            (if negb (ValidationAgent._check_syntax (sql q))
             then ["SQL syntax appears invalid" : str] else []) ++
            snd (fst (QuerySafetyChecker.validate_query (sql q)
                        (ValidationAgent.allow_destructive self)))
  end.
Proof.
  cbv zeta. unfold ValidationAgent.validate_query.
  destruct (QuerySafetyChecker.validate_query _ _) as [[is_safe e] w].
  cbn [fst snd].
  destruct (RowLimitEnforcer.estimate_result_size (sql q)) as [k|msg] eqn:Ek;
    [|reflexivity].
  cbn [and_then].
  destruct (re_search "LIMIT\s+(\d+)" (sql q) true) as [m|] eqn:E.
  - rewrite (estimate_some _ _ E) in Ek. apply to_int_inv in Ek as [Hd ->].
    pose proof (int_value_nonneg (RowLimitEnforcer.group1 m)) as Hm.
    destruct (Z.eqb_spec (int_value (RowLimitEnforcer.group1 m)) (-1)); [lia|].
    cbn [orb].
    destruct (Z.ltb_spec (ValidationAgent.max_rows self)
                (int_value (RowLimitEnforcer.group1 m))) as [L|L].
    + cbn [andb]. destruct (printable (ValidationAgent.max_rows self)) eqn:P.
      * cbn [negb]. rewrite (format_int_ok _ P). cbn [and_then].
        rewrite (add_limit_clause_sub _ _ _ E Hd L P). cbn [and_then].
        eexists _, _. split; [reflexivity|]. split; [reflexivity|].
        cbn [is_valid safe_to_execute errors]. repeat split.
      * cbn [negb]. unfold format_int, printable in *.
        apply Nat.leb_gt in P. apply Nat.ltb_lt in P. rewrite P.
        cbn [and_then]. eexists. split; reflexivity.
    + cbn [andb and_then].
      rewrite (add_limit_clause_keep _ _ _ E Hd L).
      exists {| is_valid := (List.length
                               ((if negb (ValidationAgent._check_syntax (sql q))
                                 then [] ++ ["SQL syntax appears invalid" : str]
                                 else []) ++ e) =? 0)%nat;
                errors := (if negb (ValidationAgent._check_syntax (sql q))
                           then [] ++ ["SQL syntax appears invalid" : str]
                           else []) ++ e;
                warnings :=
                  match confidence_score q with
                  | Some score =>
                      if ValidationAgent.Qtruthy score &&
                         ValidationAgent.Qltb score (6 # 10)
                      then ([] ++ w) ++
                           ["Low confidence score (" ++
                            ValidationAgent.format_2f score ++
                            "). Query may not be accurate."]
                      else [] ++ w
                  | None => [] ++ w
                  end;
                estimated_cost :=
                  Some (ValidationAgent._estimate_cost (sql q) (tables_used q));
                safe_to_execute :=
                  (List.length
                     ((if negb (ValidationAgent._check_syntax (sql q))
                       then [] ++ ["SQL syntax appears invalid" : str]
                       else []) ++ e) =? 0)%nat |}, (sql q).
      split; [reflexivity|]. split; [now destruct q|].
      cbn [is_valid safe_to_execute errors]. repeat split.
  - apply estimate_none in E as E'. rewrite E' in Ek. injection Ek as <-.
    cbn [Z.eqb orb andb].
    destruct (printable (ValidationAgent.max_rows self)) eqn:P.
    + cbn [negb]. rewrite (format_int_ok _ P). cbn [and_then].
      rewrite (add_limit_clause_append _ _ E), (format_int_ok _ P).
      cbn [and_then].
      eexists _, _. split; [reflexivity|]. split; [reflexivity|].
      cbn [is_valid safe_to_execute errors]. repeat split.
    + cbn [negb]. unfold format_int, printable in *.
      apply Nat.leb_gt in P. apply Nat.ltb_lt in P. rewrite P.
      cbn [and_then]. eexists. split; reflexivity.
Qed.

Lemma endswith_app s p : endswith (s ++ p) p = true.
Proof. unfold endswith. rewrite rev_app_distr. apply startswith_app. Qed.

Lemma has_limit_only d s k :
  only_limit d s -> has_limit s k -> k = int_value d.
Proof.
  intros Hs (pre & suf & m & -> & Hm & <-).
  rewrite match_limit_group in Hm.
  destruct (limit_from L0 suf) as [[ds rest]|] eqn:E; [|discriminate].
  injection Hm as <-. cbn. f_equal. eapply Hs; [reflexivity | exact E].
Qed.

(** C3 (amended).  For every SQL text written in ASCII and every positive
    [max_rows] N (of at most 4300 digits), with k the number of the first
    (leftmost) [LIMIT <number>] clause of the text, or -1 when it has none
    ([estimate_result_size]), the row-limit rewrite ([add_limit_clause],
    which is also what [validate_query] leaves in the candidate) gives:
    with no such clause, the text without its trailing semicolons followed
    by a new line and [LIMIT N], so it ends in [LIMIT N]; with k <= N, the
    text unchanged, [LIMIT k] kept; with k > N, a text that contains
    [LIMIT N] and no [LIMIT k].  When the number of the first clause has
    more than 4300 digits, [int] raises: the rewrite raises, and
    [validate_query] returns a failure and leaves the candidate as it
    was. *)
Theorem add_limit_clause_by_first_limit (text : str) (N : Z) :
  isascii text = true -> (0 < N)%Z -> printable N = true ->
  match RowLimitEnforcer.estimate_result_size text with
  | Raise e =>
      RowLimitEnforcer.add_limit_clause text N = Raise e /\
      forall self q uq,
        ValidationAgent.max_rows self = N -> sql q = text ->
        ValidationAgent.validate_query self (Some q) uq =
        (agent_failed e, Some q)
  | Ok k =>
      exists out,
        RowLimitEnforcer.add_limit_clause text N = Ok out /\
        (forall self q uq,
            ValidationAgent.max_rows self = N -> sql q = text ->
            option_map sql
              (snd (ValidationAgent.validate_query self (Some q) uq)) =
            Some out) /\
        (k = (-1)%Z ->
         out = rstrip text ";" ++ (String "010" "LIMIT " : string) ++ of_int N /\
         endswith out ("LIMIT " ++ of_int N) = true) /\
        ((0 <= k <= N)%Z -> out = text /\ has_limit out k) /\
        ((N < k)%Z ->
         contains ("LIMIT " ++ of_int N) out = true /\ ~ has_limit out k)
  end.
Proof.
  intros _ HN HP.
  assert (V : forall self q uq,
            ValidationAgent.max_rows self = N -> sql q = text ->
            match RowLimitEnforcer.estimate_result_size text with
            | Raise e =>
                ValidationAgent.validate_query self (Some q) uq =
                (agent_failed e, Some q)
            | Ok k =>
                exists limited,
                  RowLimitEnforcer.add_limit_clause text N = Ok limited /\
                  option_map sql
                    (snd (ValidationAgent.validate_query self (Some q) uq)) =
                  Some limited
            end).
  { intros self q uq <- <-. pose proof (validate_query_run self q uq) as R.
    cbv zeta in R.
    destruct (RowLimitEnforcer.estimate_result_size (sql q)) as [k|e];
      [|exact R].
    rewrite HP, andb_false_r in R.
    destruct R as (v & limited & Ha & -> & _).
    exists limited. split; [exact Ha | reflexivity]. }
  destruct (re_search "LIMIT\s+(\d+)" text true) as [m|] eqn:E.
  - rewrite (estimate_some _ _ E) in *.
    destruct (to_int (RowLimitEnforcer.group1 m)) as [k|e] eqn:Ek.
    + apply to_int_inv in Ek as [Hd ->].
      set (k := int_value (RowLimitEnforcer.group1 m)).
      pose proof (int_value_nonneg (RowLimitEnforcer.group1 m)) as Hk.
      fold k in Hk.
      destruct (Z.le_gt_cases k N) as [L|G].
      * exists text. split; [exact (add_limit_clause_keep _ _ _ E Hd L)|].
        split.
        { intros self q uq H1 H2.
          destruct (V self q uq H1 H2) as (limited & Ha & Hs).
          rewrite (add_limit_clause_keep _ _ _ E Hd L) in Ha.
          injection Ha as <-. exact Hs. }
        split; [intros F; lia|]. split; [|intros F; lia].
        intros _. split; [reflexivity|].
        rewrite re_search_limit in E. now apply search_limit_has.
      * exists (limit_sub ("LIMIT " ++ of_int N) text).
        split; [exact (add_limit_clause_sub _ _ _ E Hd G HP)|].
        split.
        { intros self q uq H1 H2.
          destruct (V self q uq H1 H2) as (limited & Ha & Hs).
          rewrite (add_limit_clause_sub _ _ _ E Hd G HP) in Ha.
          injection Ha as <-. exact Hs. }
        split; [intros F; lia|]. split; [intros F; lia|].
        intros _. rewrite re_search_limit in E.
        assert (O : only_limit (of_int N)
                      (limit_sub ("LIMIT " ++ of_int N) text)).
        { apply (limit_sub_only _ (of_int_nonempty _ HN) (of_int_digits _ HN)
                   (List.length text)). lia. }
        split.
        -- destruct (search_limit_inv _ _ E)
             as (pre & suf & ds & rest & -> & F & _).
           apply limit_sub_contains. rewrite F. discriminate.
        -- intros Hl. apply (has_limit_only _ _ _ O) in Hl.
           rewrite int_value_of_int in Hl by exact HN. lia.
    + rewrite (add_limit_clause_some _ _ _ E), Ek. split; [reflexivity|].
      intros self q uq H1 H2. exact (V self q uq H1 H2).
  - pose proof (proj2 (estimate_none text) E) as Ek. rewrite Ek in *.
    assert (A : RowLimitEnforcer.add_limit_clause text N =
                Ok (rstrip text ";" ++ (String "010" "LIMIT " : string) ++
                    of_int N)).
    { now rewrite (add_limit_clause_append _ _ E), (format_int_ok _ HP). }
    eexists. split; [exact A|]. split.
    { intros self q uq H1 H2.
      destruct (V self q uq H1 H2) as (limited & Ha & Hs).
      rewrite A in Ha. injection Ha as <-. exact Hs. }
    split; [|split; intros F; lia].
    intros _. split; [reflexivity|].
    change (list_ascii_of_string (String "010" "LIMIT "))
      with (["010"%char] ++ list_ascii_of_string "LIMIT ").
    rewrite <- (app_assoc ["010"%char]), app_assoc. apply endswith_app.
Qed.

Lemma add_limit_clause_by_first_limit_witness :
  exists out,
    RowLimitEnforcer.add_limit_clause "SELECT * FROM users LIMIT 5000" 1000 =
      Ok out /\
    contains "LIMIT 1000" out = true /\ ~ has_limit out 5000.
Proof.
  pose proof (add_limit_clause_by_first_limit
                "SELECT * FROM users LIMIT 5000" 1000 eq_refl eq_refl eq_refl)
    as H.
  assert (E : RowLimitEnforcer.estimate_result_size
                "SELECT * FROM users LIMIT 5000" = Ok 5000%Z)
    by (vm_compute; reflexivity).
  rewrite E in H. destruct H as (out & Ho & _ & _ & _ & H).
  exists out. split; [exact Ho|]. apply H. reflexivity.
Defined.

(** C3, as stated, fails on a text with two clauses: the inner [LIMIT 5] is
    the first one and is within the bound, so the text is returned as it
    is; it has [LIMIT 5000] with 5000 > 1000, still contains it, and does
    not contain [LIMIT 1000]. *)
Lemma add_limit_clause_second_limit_kept :
  let text : str := "SELECT * FROM (SELECT * FROM t LIMIT 5) x LIMIT 5000" in
  isascii text = true /\
  has_limit text 5000 /\
  (1000 < 5000)%Z /\
  RowLimitEnforcer.add_limit_clause text 1000 = Ok text /\
  contains "LIMIT 1000" text = false.
Proof.
  cbv zeta. split; [reflexivity|]. split.
  - exists (list_ascii_of_string "SELECT * FROM (SELECT * FROM t LIMIT 5) x "),
           (list_ascii_of_string "LIMIT 5000"),
           ([], Some (list_ascii_of_string "5000")).
    repeat split; vm_compute; reflexivity.
  - repeat split; vm_compute; reflexivity.
Qed.



(** ** The destructive-operation scan *)

Lemma match_lits r g : forall w prev s,
  match_here true (lits w ++ r) prev (w ++ s) g =
  match_here true r (last_char prev w) s g.
Proof.
  induction w as [|c w IH]; intros prev s; [reflexivity|].
  cbn [lits map app]. rewrite match_one_cons. cbn [atom_ok].
  rewrite Ascii.eqb_refl. apply IH.
Qed.

Lemma match_bnd r prev s g :
  match_here true (Bnd :: r) prev s g =
  if at_boundary prev s then match_here true r prev s g else None.
Proof. reflexivity. Qed.

Lemma last_char_upper pre : forall prev,
  last_char (option_map upper_char prev) (upper pre) =
  option_map upper_char (last_char prev pre).
Proof.
  induction pre as [|c pre IH]; intros prev; [reflexivity|].
  cbn [upper map last_char]. apply (IH (Some c)).
Qed.

Lemma word_before_upper prev :
  word_before (option_map upper_char prev) = word_before prev.
Proof. destruct prev; [apply is_word_upper_char | reflexivity]. Qed.

Lemma word_after_upper s : word_after (upper s) = word_after s.
Proof. destruct s; [reflexivity | apply is_word_upper_char]. Qed.

Lemma scan_found patterns text prefix pattern :
  In pattern patterns -> re_search pattern text true <> None ->
  QuerySafetyChecker.scan patterns text prefix <> [].
Proof.
  unfold QuerySafetyChecker.scan. intros Hin Hs.
  induction patterns as [|p ps IH]; [contradiction|].
  cbn [flat_map]. destruct Hin as [->|Hin].
  - destruct (re_search pattern text true); [discriminate | contradiction].
  - intros E. apply app_eq_nil in E as [_ E]. now apply IH.
Qed.

(** Where a keyword stands as whole words, its pattern matches the text in
    upper case. *)
Lemma keyword_search kw r text :
  word_occurrence kw text ->
  (forall prev post,
      word_before prev = false -> word_after post = false ->
      match_here true r prev (kw ++ post) no_groups <> None) ->
  search_from true r None (upper text) <> None.
Proof.
  intros (pre & w & post & -> & <- & Hpre & Hpost) Hm.
  unfold upper. rewrite !map_app. fold (upper pre) (upper w) (upper post).
  specialize (Hm (last_char None (upper pre)) (upper post)).
  destruct (match_here true r _ (upper w ++ upper post) no_groups) as [m|] eqn:E.
  - eapply search_from_found. exact E.
  - exfalso. apply Hm; [|now rewrite word_after_upper|reflexivity].
    pose proof (last_char_upper pre None) as L. cbn [option_map] in L.
    rewrite L, word_before_upper. exact Hpre.
Qed.

Lemma boundary_left prev c s :
  word_before prev = false -> is_word c = true ->
  at_boundary prev (c :: s) = true.
Proof. unfold at_boundary. cbn [word_after]. now intros -> ->. Qed.

Lemma boundary_right c s :
  is_word c = true -> word_after s = false ->
  at_boundary (Some c) s = true.
Proof. unfold at_boundary. cbn [word_before]. now intros -> ->. Qed.

Lemma search_truncate text :
  word_occurrence "TRUNCATE" text ->
  re_search "\bTRUNCATE\b" (upper text) true <> None.
Proof.
  intros H. unfold re_search.
  replace (re_compile "\bTRUNCATE\b") with (Bnd :: lits "TRUNCATE" ++ [Bnd])
    by (vm_compute; reflexivity).
  apply (keyword_search _ _ _ H). intros prev post Hp Hq.
  assert (B : at_boundary prev (list_ascii_of_string "TRUNCATE" ++ post) = true)
    by (apply (boundary_left prev "T"%char); [exact Hp | reflexivity]).
  rewrite match_bnd, B, match_lits, match_bnd.
  cbn [last_char list_ascii_of_string].
  rewrite boundary_right; [discriminate|reflexivity|exact Hq].
Qed.

Lemma match_space_then r prev s g :
  (forall c s', s = c :: s' -> is_space c = false) ->
  match_here true (One Space :: Star Space :: r) prev (" "%char :: s) g =
  match_here true r (Some " "%char) s g.
Proof.
  intros H. rewrite match_one_cons. cbn [atom_ok].
  change (is_space " ") with true. cbv iota.
  destruct s as [|c s']; [reflexivity|].
  rewrite match_star_cons. cbn [atom_ok]. now rewrite (H c s' eq_refl).
Qed.

Lemma search_two_words (w1 w2 pattern : str) text :
  re_compile pattern =
    Bnd :: lits w1 ++ One Space :: Star Space :: lits w2 ++ [Bnd] ->
  (forall prev post, word_before prev = false ->
      at_boundary prev (w1 ++ post) = true) ->
  (forall post, word_after post = false ->
      at_boundary (last_char (Some " "%char) w2) post = true) ->
  (forall c s x, w2 ++ x = c :: s -> is_space c = false) ->
  word_occurrence (w1 ++ " "%char :: w2) text ->
  re_search pattern (upper text) true <> None.
Proof.
  intros Hr Hl Hrt Hsp H. unfold re_search. rewrite Hr.
  apply (keyword_search _ _ _ H). intros prev post Hp Hq.
  rewrite <- app_assoc. cbn [app].
  rewrite match_bnd, Hl by exact Hp.
  rewrite match_lits.
  rewrite match_space_then by (intros c s; apply Hsp).
  rewrite match_lits, match_bnd, Hrt by exact Hq. discriminate.
Qed.

Lemma search_drop_table text :
  word_occurrence "DROP TABLE" text ->
  re_search "\bDROP\s+TABLE\b" (upper text) true <> None.
Proof.
  apply (search_two_words "DROP" "TABLE").
  - vm_compute. reflexivity.
  - intros prev post Hp. now apply (boundary_left prev "D"%char).
  - intros post Hq. now apply (boundary_right "E"%char).
  - intros c s x E. injection E as <- _. reflexivity.
Qed.

Lemma search_delete_from text :
  word_occurrence "DELETE FROM" text ->
  re_search "\bDELETE\s+FROM\b" (upper text) true <> None.
Proof.
  apply (search_two_words "DELETE" "FROM").
  - vm_compute. reflexivity.
  - intros prev post Hp. now apply (boundary_left prev "D"%char).
  - intros post Hq. now apply (boundary_right "M"%char).
  - intros c s x E. injection E as <- _. reflexivity.
Qed.

Lemma is_destructive_found text :
  word_occurrence "DROP TABLE" text \/ word_occurrence "TRUNCATE" text \/
  word_occurrence "DELETE FROM" text ->
  exists issues,
    QuerySafetyChecker.is_destructive text = (true, issues) /\ issues <> [].
Proof.
  intros H. unfold QuerySafetyChecker.is_destructive.
  set (issues := QuerySafetyChecker.scan _ _ _).
  assert (Hi : issues <> []).
  { destruct H as [H|[H|H]].
    - apply (scan_found _ _ _ "\bDROP\s+TABLE\b");
        [cbn; tauto | now apply search_drop_table].
    - apply (scan_found _ _ _ "\bTRUNCATE\b");
        [cbn; tauto | now apply search_truncate].
    - apply (scan_found _ _ _ "\bDELETE\s+FROM\b");
        [cbn; tauto | now apply search_delete_from]. }
  exists issues. split; [|exact Hi].
  destruct issues; [contradiction | reflexivity].
Qed.

Lemma length_eqb_nonempty {A : Type} (l : list A) :
  l <> [] -> (List.length l =? 0)%nat = false.
Proof. destruct l; [contradiction | reflexivity]. Qed.

Lemma safety_blocks text :
  word_occurrence "DROP TABLE" text \/ word_occurrence "TRUNCATE" text \/
  word_occurrence "DELETE FROM" text ->
  exists errs warns,
    QuerySafetyChecker.validate_query text false = (false, errs, warns) /\
    errs <> [].
Proof.
  intros H. destruct (is_destructive_found _ H) as (issues & E & Hi).
  unfold QuerySafetyChecker.validate_query. rewrite E.
  destruct (QuerySafetyChecker.check_dangerous_patterns text) as [hd dw].
  cbn [andb negb app].
  set (e1 := match strip text with [] => _ | _ => _ end).
  set (e2 := if (1 <? count text ";")%Z then _ else _).
  assert (H2 : e2 <> []).
  { subst e2 e1. destruct (1 <? count text ";")%Z, (strip text);
      destruct issues; try contradiction; discriminate. }
  exists e2, (if hd then [] ++ dw else []).
  now rewrite (length_eqb_nonempty _ H2).
Qed.








(** ** The cost estimate *)

(** C4.  On the destructive statement of the repository's own test, with
    no table listed, [_estimate_cost] is -0.2: the text has no [SELECT],
    the subquery term is (0 - 1) * 0.2 and nothing floors it, so the
    result leaves the interval from 0 to 1 that the docstring gives. *)
Theorem estimate_cost_below_zero :
  (ValidationAgent._estimate_cost "DROP TABLE users" [] == - (2 # 10))%Q /\
  (ValidationAgent._estimate_cost "DROP TABLE users" [] < 0)%Q /\
  count (upper "DROP TABLE users") "SELECT" = 0%Z.
Proof. repeat split; vm_compute; reflexivity. Qed.

(** ** Relationship inference *)

(** C7.  For the tables [video(id)] and [clips(id, video_id)] no
    relationship is inferred: [replace] removes every [id] of the column
    name, not only the suffix, so [video_id] is looked up as [veo]. *)
Theorem infer_relationships_misses_video :
  let video := {| name := "video"; schema := "public";
                  columns := [ {| column_name := "id"; column_type := "int";
                                  column_nullable := false |} ];
                  row_count := None; description := None |} in
  let clips := {| name := "clips"; schema := "public";
                  columns := [ {| column_name := "id"; column_type := "int";
                                  column_nullable := false |};
                               {| column_name := "video_id"; column_type := "int";
                                  column_nullable := false |} ];
                  row_count := None; description := None |} in
  endswith (lower "video_id") "_id" = true /\
  lower (name video) = rstrip_suffix (lower "video_id") "_id" /\
  replace (replace (lower "video_id") "_id" []) "id" [] = "veo" /\
  SchemaAgent._infer_relationships [video; clips] = [].
Proof. cbv zeta. repeat split; vm_compute; reflexivity. Qed.

(** ** The confidence check *)

(** C9.  A confidence score of 0.0 is present and below 0.6, and the
    validation appends no warning: the test [score and score < 0.6] takes
    the zero for a missing score. *)
Theorem zero_confidence_not_warned :
  let q := {| sql := "SELECT * FROM users LIMIT 10"; explanation := None;
              tables_used := []; estimated_rows := None;
              confidence_score := Some 0%Q |} in
  let self := {| ValidationAgent.allow_destructive := false;
                 ValidationAgent.max_rows := 10000 |} in
  (0 < 6 # 10)%Q /\
  option_map warnings
    (ar_data (fst (ValidationAgent.validate_query self (Some q) "all users"))) =
  Some [].
Proof. cbv zeta. split; [reflexivity | vm_compute; reflexivity]. Qed.

(** ** The relevance filter *)

Lemma query_words_users :
  to_set (split (lower "show me all users")) =
  ["show" : str; "me" : str; "all" : str; "users" : str].
Proof. vm_compute. reflexivity. Qed.

Lemma existsb_false {A : Type} (f : A -> bool) (l : list A) :
  (forall x, In x l -> f x = false) -> existsb f l = false.
Proof.
  intros H. induction l as [|x l IH]; [reflexivity|].
  cbn [existsb]. rewrite (H x (or_introl eq_refl)). apply IH.
  intros y Hy. apply H. now right.
Qed.

Lemma filter_none {A : Type} (f : A -> bool) (l : list A) :
  (forall x, In x l -> f x = false) -> filter f l = [].
Proof.
  intros H. induction l as [|x l IH]; [reflexivity|].
  cbn [filter]. rewrite (H x (or_introl eq_refl)). apply IH.
  intros y Hy. apply H. now right.
Qed.

(** C8 (amended).  When the catalog has a table named [users] and, in
    every other table, neither the lower-case name nor a lower-case column
    name contains one of the words of the question ([show], [me], [all],
    [users]), filtering with [show me all users] returns that one table. *)
Theorem filter_users_only (before after : list TableMetadata) (t : TableMetadata) :
  name t = "users" ->
  (forall t' w,
      In t' (before ++ after) ->
      In w ["show" : str; "me" : str; "all" : str; "users" : str] ->
      contains w (lower (name t')) = false /\
      forall col, In col (columns t') ->
                  contains w (lower (column_name col)) = false) ->
  SchemaAgent._filter_relevant_tables "show me all users"
    (before ++ t :: after) = [t].
Proof.
  intros Ht Hothers. unfold SchemaAgent._filter_relevant_tables.
  rewrite query_words_users.
  set (words := ["show" : str; "me" : str; "all" : str; "users" : str]) in *.
  set (relevant := fun table : TableMetadata => _).
  assert (No : forall t', In t' (before ++ after) -> relevant t' = false).
  { intros t' Hin. unfold relevant.
    rewrite (existsb_false _ words)
      by (intros w Hw; exact (proj1 (Hothers t' w Hin Hw))).
    apply existsb_false. intros c Hc. apply in_map_iff in Hc as (col & <- & Hcol).
    apply existsb_false. intros w Hw.
    exact (proj2 (Hothers t' w Hin Hw) col Hcol). }
  assert (Yes : relevant t = true).
  { unfold relevant. rewrite Ht. reflexivity. }
  rewrite filter_app. cbn [filter]. rewrite Yes.
  rewrite !filter_none; [reflexivity | |];
    intros x Hx; apply No, in_or_app; [right | left]; exact Hx.
Qed.

Lemma filter_users_only_witness :
  let id := {| column_name := "id"; column_type := "int";
               column_nullable := false |} in
  let table := fun n : string =>
    {| name := n; schema := "public"; columns := [id];
       row_count := None; description := None |} in
  SchemaAgent._filter_relevant_tables "show me all users"
    [table "users"; table "orders"; table "products"] = [table "users"].
Proof.
  cbv zeta.
  apply (filter_users_only []
           [ {| name := "orders"; schema := "public";
                columns := [ {| column_name := "id"; column_type := "int";
                                column_nullable := false |} ];
                row_count := None; description := None |};
             {| name := "products"; schema := "public";
                columns := [ {| column_name := "id"; column_type := "int";
                                column_nullable := false |} ];
                row_count := None; description := None |} ]).
  - reflexivity.
  - intros t' w Ht Hw. cbn [app In] in Ht, Hw.
    destruct Ht as [<-|[<-|[]]];
      destruct Hw as [<-|[<-|[<-|[<-|[]]]]];
      (split; [vm_compute; reflexivity |
               intros col [<-|[]]; vm_compute; reflexivity]).
Defined.

(** C8, as stated, fails on a catalog whose other table has a [name]
    column: no other name holds [users], yet [me] is part of [name] and
    the filter returns both tables. *)
Lemma filter_users_returns_products_too :
  let col := fun n : string =>
    {| column_name := n; column_type := "text"; column_nullable := false |} in
  let users := {| name := "users"; schema := "public"; columns := [col "id"];
                  row_count := None; description := None |} in
  let products := {| name := "products"; schema := "public";
                     columns := [col "id"; col "name"];
                     row_count := None; description := None |} in
  contains "users" (lower (name products)) = false /\
  forallb (fun c => negb (contains "users" (lower (column_name c))))
    (columns products) = true /\
  SchemaAgent._filter_relevant_tables "show me all users" [users; products] =
  [users; products].
Proof. cbv zeta. repeat split; vm_compute; reflexivity. Qed.


(** ** The schema cache *)

(** A lookup that returns leaves what it returned in the cache. *)
Lemma cache_after_lookup engine schema use_cache self l self' :
  DatabaseConnector.get_all_table_metadata engine schema use_cache self =
    (Ok l, self') ->
  DatabaseConnector._schema_cache self' = Some l.
Proof.
  unfold DatabaseConnector.get_all_table_metadata.
  unfold bind at 1. cbn [get].
  assert (F : forall s0,
    (tables <- DatabaseConnector.get_tables engine schema;;
     metadata_list <- DatabaseConnector.collect_metadata engine tables schema;;
     DatabaseConnector.set_cache (Some metadata_list);;; ret metadata_list) s0 =
      (Ok l, self') ->
    DatabaseConnector._schema_cache self' = Some l).
  { intros s0. unfold bind.
    destruct (DatabaseConnector.get_tables engine schema s0)
      as [[tables|e] s1]; [|discriminate].
    destruct (DatabaseConnector.collect_metadata engine tables schema s1)
      as [[ml|e] s2]; [|discriminate].
    cbn. intros H; injection H as <- <-. reflexivity. }
  destruct (DatabaseConnector._schema_cache self) as [cached|] eqn:E.
  - destruct use_cache.
    + cbn. intros H; injection H as <- <-. exact E.
    + apply F.
  - apply F.
Qed.

(** With a filled cache a caching lookup returns the cached catalog and
    leaves the connector as it was. *)
Lemma cache_hit engine schema self cached :
  DatabaseConnector._schema_cache self = Some cached ->
  DatabaseConnector.get_all_table_metadata engine schema true self =
    (Ok cached, self).
Proof.
  intros H. unfold DatabaseConnector.get_all_table_metadata.
  unfold bind. cbn [get]. now rewrite H.
Qed.

(** X28.  The connector keeps one catalog, whatever the schema name:
    after a lookup that returned a catalog, for whichever schema and with
    or without the cache, a caching lookup for any schema name returns
    that same catalog and leaves the connector unchanged, so a cache hit
    sends no request to the database. *)
Theorem schema_cache_single_slot
    (engine : DatabaseConnector.Engine) (schema schema' : option str)
    (use_cache : bool) (self self' : DatabaseConnector.t)
    (l : list TableMetadata) :
  DatabaseConnector.get_all_table_metadata engine schema use_cache self =
    (Ok l, self') ->
  DatabaseConnector._schema_cache self' = Some l /\
  DatabaseConnector.get_all_table_metadata engine schema' true self' =
    (Ok l, self') /\
  DatabaseConnector.sent
    (snd (DatabaseConnector.get_all_table_metadata engine schema' true self')) =
  DatabaseConnector.sent self'.
Proof.
  intros H. apply cache_after_lookup in H.
  split; [exact H|]. rewrite (cache_hit engine schema' self' l H).
  split; reflexivity.
Qed.

Lemma schema_cache_single_slot_witness :
  let first :=
    DatabaseConnector.get_all_table_metadata two_schemas (Some ("sales" : str))
      true DatabaseConnector.init in
  fst first =
    Ok [ {| name := "orders"; schema := "sales"; columns := [];
            row_count := Some 0%Z; description := None |} ] /\
  DatabaseConnector.get_all_table_metadata two_schemas (Some ("sales" : str))
    true (snd first) = (fst first, snd first).
Proof.
  cbv zeta. split; [vm_compute; reflexivity|].
  destruct (DatabaseConnector.get_all_table_metadata two_schemas
              (Some ("sales" : str)) true DatabaseConnector.init)
    as [[l|e] s] eqn:E; [|vm_compute in E; discriminate E].
  cbn [fst snd].
  exact (proj1 (proj2 (schema_cache_single_slot two_schemas
                         (Some ("sales" : str)) (Some ("sales" : str))
                         true DatabaseConnector.init s l E))).
Defined.

(** C6.  The cache has one slot and no key.  On a database with the
    schemas [sales] (table [orders]) and [hr] (table [employees]), after
    the catalog of [sales] was fetched a lookup for [hr] returns the cached
    catalog of [sales] and sends no request, where a lookup for [hr] on a
    connector with an empty cache returns the catalog of [hr]. *)
Theorem cache_returns_other_schema :
  let sales := Some ("sales" : str) in
  let hr := Some ("hr" : str) in
  let after_sales :=
    snd (DatabaseConnector.get_all_table_metadata two_schemas sales true
           DatabaseConnector.init) in
  let cached :=
    DatabaseConnector.get_all_table_metadata two_schemas hr true after_sales in
  let live :=
    DatabaseConnector.get_all_table_metadata two_schemas hr true
      DatabaseConnector.init in
  fst cached =
    Ok [ {| name := "orders"; schema := "sales"; columns := [];
            row_count := Some 0%Z; description := None |} ] /\
  DatabaseConnector.sent (snd cached) = DatabaseConnector.sent after_sales /\
  fst live =
    Ok [ {| name := "employees"; schema := "hr"; columns := [];
            row_count := Some 0%Z; description := None |} ].
Proof. cbv zeta. repeat split; vm_compute; reflexivity. Qed.

(** ** Running monadic code *)

Section Post.
Context {S : Type}.

Lemma post_ret {A} (a : A) (s : S) Q : Q (Ok a) s -> post (ret a) s Q.
Proof. exact (fun H => H). Qed.

Lemma post_raise {A} (e : str) (s : S) (Q : outcome A -> S -> Prop) :
  Q (Raise e) s -> post (raise e) s Q.
Proof. exact (fun H => H). Qed.

Lemma post_lift {A} (o : outcome A) (s : S) Q : Q o s -> post (lift_outcome o) s Q.
Proof. exact (fun H => H). Qed.

Lemma post_get (s : S) Q : Q (Ok s) s -> post get s Q.
Proof. exact (fun H => H). Qed.

Lemma post_modify (f : S -> S) (s : S) Q : Q (Ok tt) (f s) -> post (modify f) s Q.
Proof. exact (fun H => H). Qed.

Lemma post_bind {A B} (m : M S A) (f : A -> M S B) (s : S) Q :
  post m s (fun o s' =>
              match o with
              | Ok a => post (f a) s' Q
              | Raise e => Q (Raise e) s'
              end) ->
  post (bind m f) s Q.
Proof.
  unfold post, bind. destruct (m s) as [[a|e] s']; exact (fun H => H).
Qed.

Lemma post_try {A} (body : M S A) (handler : str -> M S A) (s : S) Q :
  post body s (fun o s' =>
                 match o with
                 | Ok a => Q (Ok a) s'
                 | Raise e => post (handler e) s' Q
                 end) ->
  post (try_except body handler) s Q.
Proof.
  unfold post, try_except. destruct (body s) as [[a|e] s']; exact (fun H => H).
Qed.

End Post.

Lemma post_on_db {A} (m : M DatabaseConnector.t A)
    (s : ChatbotOrchestrator.state) Q :
  Q (fst (m (ChatbotOrchestrator.db s)))
    {| ChatbotOrchestrator.db := snd (m (ChatbotOrchestrator.db s));
       ChatbotOrchestrator.response := ChatbotOrchestrator.response s;
       ChatbotOrchestrator.trace := ChatbotOrchestrator.trace s |} ->
  post (ChatbotOrchestrator.on_db m) s Q.
Proof.
  unfold post, ChatbotOrchestrator.on_db.
  destruct (m (ChatbotOrchestrator.db s)); exact (fun H => H).
Qed.

(** ** The orchestrator *)

Ltac tidy :=
  cbn [fst snd ChatbotOrchestrator.db ChatbotOrchestrator.response
       ChatbotOrchestrator.trace ChatbotOrchestrator.status
       ChatbotOrchestrator.user_query ChatbotOrchestrator.response_sql
       ChatbotOrchestrator.validation ChatbotOrchestrator.result
       ChatbotOrchestrator.chart_html ChatbotOrchestrator.error_message
       success ar_data error app negb start ChatbotOrchestrator.fresh].

(** One step of the run: the rule of the construct at the head. *)
Ltac wp :=
  lazymatch goal with
  | |- post (bind _ _) _ _ => apply post_bind
  | |- post (ret _) _ _ => apply post_ret
  | |- post (raise _) _ _ => apply post_raise
  | |- post (try_except _ _) _ _ => apply post_try
  | |- post (ChatbotOrchestrator.emit _) _ _ => apply post_modify
  | |- post (ChatbotOrchestrator.update _) _ _ => apply post_modify
  | |- post (ChatbotOrchestrator.set_status _) _ _ => apply post_modify
  | |- post (ChatbotOrchestrator.set_error_message _) _ _ => apply post_modify
  | |- post (ChatbotOrchestrator.set_response_sql _) _ _ => apply post_modify
  | |- post (ChatbotOrchestrator.set_validation _) _ _ => apply post_modify
  | |- post (ChatbotOrchestrator.set_result _) _ _ => apply post_modify
  | |- post (ChatbotOrchestrator.set_chart_html _) _ _ => apply post_modify
  | |- post get _ _ => apply post_get
  | |- post (lift_outcome ?o) _ _ =>
      apply post_lift; destruct o as [[? ? ?]|?]
  | |- post (ChatbotOrchestrator.on_db ?m) ?s _ =>
      apply post_on_db; tidy;
      match goal with
      | |- context [m ?d] => destruct (m d) as [[[? ? ?]|?] ?]
      end
  | |- post (ChatbotOrchestrator.call _ _) _ _ =>
      unfold ChatbotOrchestrator.call
  | |- post (ChatbotOrchestrator.call_validation _) _ _ =>
      unfold ChatbotOrchestrator.call_validation
  | |- post (let '(_, _) := ?x in _) _ _ => destruct x as [[? ? ?] ?]
  | |- post (if negb ?b then _ else _) _ _ =>
      first [ is_var b; destruct b | let E := fresh "E" in destruct b eqn:E ]
  | |- post (if ?b then _ else _) _ _ =>
      first [ is_var b; destruct b | let E := fresh "E" in destruct b eqn:E ]
  | |- post (match ?x with _ => _ end) _ _ =>
      first [ is_var x; destruct x | let E := fresh "E" in destruct x eqn:E ]
  end; tidy.

(** A finished run against [run_spec]. *)
Ltac leaf :=
  unfold run_spec, failed_with_message; tidy;
  cbn [guarded existsb validated_safe validated_unsafe is_execution
       failed_event success ar_data andb orb negb];
  repeat match goal with
         | H : safe_to_execute _ = _ |- _ => rewrite H
         end;
  cbn [andb orb negb];
  repeat split; try reflexivity; try discriminate;
  try (left; reflexivity);
  try (right; split; [reflexivity|]);
  try (intros _; split; [reflexivity|]);
  try (intros _);
  try (eexists; split;
       [reflexivity | cbn [list_ascii_of_string app]; discriminate]).

Lemma process_query_spec settings world uq uid max_rows viz d :
  post (ChatbotOrchestrator.process_query settings world uq uid max_rows viz)
    (start d) run_spec.
Proof.
  unfold ChatbotOrchestrator.process_query, ChatbotOrchestrator.pipeline.
  repeat wp; leaf.
Qed.

Lemma guarded_sound tr :
  forall seen,
    guarded seen tr = true ->
    forall before after,
      tr = before ++
           ChatbotOrchestrator.Invoked ChatbotOrchestrator.ExecutionStage :: after ->
      seen = true \/
      exists r v,
        In (ChatbotOrchestrator.Validated r) before /\
        success r = true /\ ar_data r = Some v /\ safe_to_execute v = true.
Proof.
  induction tr as [|e tr IH]; intros seen G before after E.
  - now destruct before.
  - cbn [guarded] in G. apply andb_prop in G as [G1 G2].
    destruct before as [|e' before]; injection E as -> E.
    + left. exact G1.
    + destruct (IH _ G2 _ _ E) as [S | (r & v & Hin & H)].
      * apply orb_prop in S as [S|S]; [now left | right].
        destruct e' as [s|s ok|r|s]; try discriminate.
        cbn [validated_safe] in S. apply andb_prop in S as [S1 S2].
        destruct (ar_data r) as [v|] eqn:Ev; [|discriminate].
        exists r, v. repeat split; try assumption. now left.
      * right. exists r, v. split; [now right | exact H].
Qed.

(** C2.  In every run of [process_query], a call of the execution stage
    comes after the validation stage has returned a successful result with
    [safe_to_execute] true; and when the validation returned a result with
    [safe_to_execute] false, the run returns the response with status
    [FAILED] and the execution stage is never called. *)
Theorem execution_needs_safe_validation
    (settings : Config.Settings)
    (world : ChatbotOrchestrator.Collaborators)
    (user_query user_id : str) (max_rows : option Z)
    (include_visualization : bool) (d : DatabaseConnector.t) :
  let run :=
    ChatbotOrchestrator.process_query settings world user_query user_id
      max_rows include_visualization (start d) in
  let history := ChatbotOrchestrator.trace (snd run) in
  (forall before after,
      history =
        before ++
        ChatbotOrchestrator.Invoked ChatbotOrchestrator.ExecutionStage :: after ->
      exists r v,
        In (ChatbotOrchestrator.Validated r) before /\
        success r = true /\ ar_data r = Some v /\ safe_to_execute v = true) /\
  (forall r v,
      In (ChatbotOrchestrator.Validated r) history ->
      ar_data r = Some v -> safe_to_execute v = false ->
      fst run = Ok (ChatbotOrchestrator.response (snd run)) /\
      ChatbotOrchestrator.status (ChatbotOrchestrator.response (snd run)) = FAILED /\
      ~ In (ChatbotOrchestrator.Invoked ChatbotOrchestrator.ExecutionStage)
          history).
Proof.
  intros run history.
  destruct (process_query_spec settings world user_query user_id max_rows
              include_visualization d) as (Hret & Hg & Hu & _ & _).
  fold run in Hret, Hg, Hu. fold history in Hg, Hu. split.
  - intros before after E.
    destruct (guarded_sound _ _ Hg _ _ E) as [F | H]; [discriminate | exact H].
  - intros r v Hin Hv Hs.
    assert (U : existsb validated_unsafe history = true).
    { apply existsb_exists. exists (ChatbotOrchestrator.Validated r).
      split; [exact Hin|]. cbn [validated_unsafe]. now rewrite Hv, Hs. }
    destruct (Hu U) as (Hst & Hx). repeat split; try assumption.
    intros Hi. assert (X : existsb is_execution history = true).
    { apply existsb_exists. eexists. split; [exact Hi | reflexivity]. }
    rewrite Hx in X. discriminate.
Qed.

(** C5.  Every run of [process_query] returns a response and raises
    nothing.  The response has status [SUCCESS], or status [FAILED] with a
    non-empty [error_message]; and when a stage failed (schema retrieval,
    SQL generation, validation or execution returned without success,
    validation forbade execution, or a collaborator raised) it is [FAILED]
    with a non-empty message. *)
Theorem process_query_always_responds
    (settings : Config.Settings)
    (world : ChatbotOrchestrator.Collaborators)
    (user_query user_id : str) (max_rows : option Z)
    (include_visualization : bool) (d : DatabaseConnector.t) :
  let run :=
    ChatbotOrchestrator.process_query settings world user_query user_id
      max_rows include_visualization (start d) in
  let answer := ChatbotOrchestrator.response (snd run) in
  fst run = Ok answer /\
  (ChatbotOrchestrator.status answer = SUCCESS \/ failed_with_message answer) /\
  (forall e,
      In e (ChatbotOrchestrator.trace (snd run)) -> failed_event e = true ->
      failed_with_message answer).
Proof.
  intros run answer.
  destruct (process_query_spec settings world user_query user_id max_rows
              include_visualization d) as (Hret & _ & _ & Hd & Hf).
  fold run in Hret, Hd, Hf. fold answer in Hret, Hd, Hf.
  split; [exact Hret | split; [exact Hd|]].
  intros e Hin He. apply Hf, existsb_exists. now exists e.
Qed.


(** ** The rewrite is stable *)

Lemma rstrip_by_split p s :
  exists tail, s = rstrip_by p s ++ tail.
Proof.
  unfold rstrip_by. exists (rev (take_while p (rev s))).
  rewrite <- rev_app_distr, take_while_lstrip. now rewrite rev_involutive.
Qed.

(** What stands before a line break and an [L] matches as well before
    anything else: the pattern cannot run across them. *)
Lemma limit_from_before_break x y t :
  forall q,
    limit_from q (x ++ "010"%char :: "L"%char :: y) <> None ->
    limit_from q (x ++ t) <> None.
Proof.
  induction x as [|c x IH]; intros q H.
  - exfalso. apply H. destruct q; reflexivity.
  - cbn [app] in *. destruct q; cbn [limit_from] in *;
      try (match goal with
           | |- (if ?b then _ else _) <> None => destruct b; [|exact H]
           end; now apply IH).
    destruct (is_space c); [now apply IH|].
    unfold digits_at in *. destruct (is_digit c); [discriminate | exact H].
Qed.

Lemma only_limit_prefix d r y :
  (forall pre suf, r = pre ++ suf -> limit_from L0 (suf ++ y) = None) ->
  only_limit d y -> only_limit d (r ++ y).
Proof.
  revert y. induction r as [|c r IH]; intros y Hr Hy; [exact Hy|].
  cbn [app]. apply only_limit_cons.
  - intros ds rest H. pose proof (Hr [] (c :: r) eq_refl) as F.
    cbn [app] in F. rewrite F in H. discriminate.
  - apply IH; [|exact Hy]. intros pre suf E. apply (Hr (c :: pre) suf).
    now rewrite E.
Qed.

Lemma only_limit_written d :
  d <> [] -> Forall (fun c => is_digit c = true) d ->
  only_limit d ("LIMIT " ++ d).
Proof.
  intros Hne Hd.
  change ("LIMIT " ++ d)
    with ("L"%char :: "I"%char :: "M"%char :: "I"%char :: "T"%char ::
          " "%char :: d).
  apply only_limit_cons.
  - intros ds rest H.
    apply (limit_from_written d [] ds rest Hne Hd eq_refl).
    now rewrite app_nil_r.
  - repeat (apply only_limit_skip; [reflexivity|]).
    rewrite <- (app_nil_r d). apply only_limit_digits; [exact Hd|].
    apply only_limit_nil.
Qed.

(** The appended clause is the only one of the text. *)
Lemma only_limit_appended s d :
  d <> [] -> Forall (fun c => is_digit c = true) d ->
  re_search "LIMIT\s+(\d+)" s true = None ->
  only_limit d (rstrip s ";" ++ (String "010" "LIMIT " : string) ++ d).
Proof.
  intros Hne Hd H. rewrite re_search_limit in H.
  destruct (rstrip_by_split (fun c => existsb (Ascii.eqb c) ";") s) as (tail & E).
  fold (rstrip s ";") in E.
  change (list_ascii_of_string (String "010" "LIMIT ") ++ d)
    with ("010"%char :: "LIMIT " ++ d).
  apply only_limit_prefix.
  - intros pre suf Er.
    destruct (limit_from L0 (suf ++ "010"%char :: "LIMIT " ++ d)) eqn:F;
      [|reflexivity].
    exfalso.
    assert (G : limit_from L0 (suf ++ tail) <> None).
    { apply (limit_from_before_break suf ("IMIT " ++ d) tail L0).
      change ("010"%char :: "L"%char :: "IMIT " ++ d)
        with ("010"%char :: "LIMIT " ++ d).
      rewrite F. discriminate. }
    apply G. rewrite E, Er, <- app_assoc in H.
    apply search_from_none in H. rewrite match_limit_group in H.
    now destruct (limit_from L0 (suf ++ tail)) as [[? ?]|].
  - apply only_limit_skip; [reflexivity|]. now apply only_limit_written.
Qed.

Lemma written_found pre d post :
  d <> [] -> Forall (fun c => is_digit c = true) d ->
  search_from true LIMIT_GROUP None (pre ++ "LIMIT " ++ d ++ post) <> None.
Proof.
  intros Hne Hd.
  destruct (match_here true LIMIT_GROUP (last_char None pre)
              ("LIMIT " ++ d ++ post) no_groups) as [m|] eqn:E.
  - eapply search_from_found. exact E.
  - exfalso. rewrite match_limit_group in E.
    change (limit_from L0 ("LIMIT " ++ d ++ post))
      with (limit_from L6 (d ++ post)) in E.
    destruct Hd as [|c d Hc Hd]; [contradiction|].
    cbn [app limit_from] in E. rewrite (digit_not_space _ Hc) in E.
    unfold digits_at in E. rewrite Hc in E. discriminate.
Qed.

(** When every clause of a text carries [d] and one is there, the first
    one carries [d]. *)
Lemma estimate_only d s :
  only_limit d s -> search_from true LIMIT_GROUP None s <> None ->
  exists m, re_search "LIMIT\s+(\d+)" s true = Some m /\
            RowLimitEnforcer.group1 m = d.
Proof.
  intros Ho Hs. rewrite re_search_limit.
  destruct (search_from true LIMIT_GROUP None s) as [m|] eqn:E;
    [|contradiction].
  exists m. split; [reflexivity|].
  destruct (search_limit_inv _ _ E) as (pre & suf & ds & rest & -> & F & ->).
  cbn. eapply Ho; [reflexivity | exact F].
Qed.

(** After the rewrite the first clause of the text is within the bound. *)
Lemma printable_length n :
  (0 < n)%Z -> printable n = true ->
  (List.length (of_int n) <= MAX_STR_DIGITS)%nat.
Proof.
  unfold printable. intros Hn H. apply Nat.leb_le in H.
  now rewrite Z.abs_eq in H by lia.
Qed.

(** What the rewrite returns has a numbered clause, and the number of its
    first one can be read and is within the bound. *)
Lemma add_limit_clause_first s n out :
  (0 < n)%Z ->
  RowLimitEnforcer.add_limit_clause s n = Ok out ->
  exists m,
    re_search "LIMIT\s+(\d+)" out true = Some m /\
    (List.length (RowLimitEnforcer.group1 m) <= MAX_STR_DIGITS)%nat /\
    (0 <= int_value (RowLimitEnforcer.group1 m) <= n)%Z.
Proof.
  intros Hn.
  pose proof (of_int_nonempty _ Hn) as Hne.
  pose proof (of_int_digits _ Hn) as Hd.
  destruct (re_search "LIMIT\s+(\d+)" s true) as [m|] eqn:E.
  - rewrite (add_limit_clause_some _ _ _ E).
    destruct (to_int (RowLimitEnforcer.group1 m)) as [k|e] eqn:Ek;
      [|discriminate].
    apply to_int_inv in Ek as [Hl ->]. cbn [and_then].
    destruct (Z.leb_spec (int_value (RowLimitEnforcer.group1 m)) n) as [L|G].
    + intros H. injection H as <-. exists m.
      split; [exact E|]. split; [exact Hl|].
      split; [apply int_value_nonneg | exact L].
    + destruct (format_int n) as [d|e] eqn:Ef; [|discriminate].
      apply format_int_inv in Ef as [-> Hp]. cbn [and_then].
      intros H. injection H as <-.
      destruct (estimate_only (of_int n) (limit_sub ("LIMIT " ++ of_int n) s))
        as (m' & Hm & Hg).
      * apply (limit_sub_only _ Hne Hd (List.length s)). lia.
      * rewrite re_search_limit in E.
        destruct (search_limit_inv _ _ E) as (pre & suf & ds & rest & -> & F & _).
        assert (C : contains ("LIMIT " ++ of_int n)
                      (limit_sub ("LIMIT " ++ of_int n) (pre ++ suf)) = true)
          by (apply limit_sub_contains; rewrite F; discriminate).
        destruct (contains_inv _ _ C) as (a & b & ->).
        rewrite <- app_assoc. now apply written_found.
      * exists m'. split; [exact Hm|]. rewrite Hg.
        split; [now apply printable_length|].
        rewrite int_value_of_int by exact Hn. lia.
  - rewrite (add_limit_clause_append _ _ E).
    destruct (format_int n) as [d|e] eqn:Ef; [|discriminate].
    apply format_int_inv in Ef as [-> Hp]. cbn [and_then].
    intros H. injection H as <-.
    destruct (estimate_only (of_int n)
                (rstrip s ";" ++ (String "010" "LIMIT " : string) ++ of_int n))
      as (m' & Hm & Hg).
    + now apply only_limit_appended.
    + replace (rstrip s ";" ++ (String "010" "LIMIT " : string) ++ of_int n)
        with ((rstrip s ";" ++ ["010"%char]) ++ "LIMIT " ++ of_int n ++ [])
        by (rewrite app_nil_r, <- app_assoc; reflexivity).
      now apply written_found.
    + exists m'. split; [exact Hm|]. rewrite Hg.
      split; [now apply printable_length|].
      rewrite int_value_of_int by exact Hn. lia.
Qed.

(** X1.  For a text written in ASCII and a positive bound, rewriting what
    the rewrite returned changes nothing. *)
Theorem add_limit_clause_idempotent (text out : str) (N : Z) :
  isascii text = true -> (0 < N)%Z ->
  RowLimitEnforcer.add_limit_clause text N = Ok out ->
  RowLimitEnforcer.add_limit_clause out N = Ok out.
Proof.
  intros _ HN H.
  destruct (add_limit_clause_first text N out HN H) as (m & E & Hl & _ & L).
  exact (add_limit_clause_keep _ _ _ E Hl L).
Qed.

Lemma add_limit_clause_idempotent_witness :
  RowLimitEnforcer.add_limit_clause "SELECT a FROM t;" 100 =
    Ok (String "S" "ELECT a FROM t" ++ String "010" "LIMIT 100" : str) /\
  RowLimitEnforcer.add_limit_clause
    (String "S" "ELECT a FROM t" ++ String "010" "LIMIT 100") 100 =
    Ok (String "S" "ELECT a FROM t" ++ String "010" "LIMIT 100" : str).
Proof.
  split; [vm_compute; reflexivity|].
  apply (add_limit_clause_idempotent "SELECT a FROM t;"
           (String "S" "ELECT a FROM t" ++ String "010" "LIMIT 100") 100).
  - reflexivity.
  - reflexivity.
  - vm_compute. reflexivity.
Defined.

(** X2.  For a text written in ASCII and a positive bound, what the
    rewrite returns always has a [LIMIT <number>] clause whose number can be
    read, and its first one is at most the bound: the size estimate of the
    rewritten text lies between 0 and the bound. *)
Theorem add_limit_clause_within_bound (text out : str) (N : Z) :
  isascii text = true -> (0 < N)%Z ->
  RowLimitEnforcer.add_limit_clause text N = Ok out ->
  exists k,
    RowLimitEnforcer.estimate_result_size out = Ok k /\ (0 <= k <= N)%Z.
Proof.
  intros _ HN H.
  destruct (add_limit_clause_first text N out HN H) as (m & E & Hl & L).
  exists (int_value (RowLimitEnforcer.group1 m)).
  split; [|exact L]. now rewrite (estimate_some _ _ E), (to_int_ok _ Hl).
Qed.

Lemma add_limit_clause_within_bound_witness :
  exists k,
    RowLimitEnforcer.estimate_result_size "SELECT a FROM t LIMIT 100" = Ok k /\
    (0 <= k <= 100)%Z.
Proof.
  apply (add_limit_clause_within_bound "SELECT a FROM t LIMIT 500"
           "SELECT a FROM t LIMIT 100" 100).
  - reflexivity.
  - reflexivity.
  - vm_compute. reflexivity.
Defined.

(** ** Bounds of the cost estimate *)

Lemma count_from_nonneg sub s : forall skip, (0 <= count_from sub skip s)%Z.
Proof.
  induction s as [|c s IH]; intros skip; cbn [count_from]; [lia|].
  destruct skip; [|apply IH].
  destruct (startswith (c :: s) sub); [|apply IH].
  specialize (IH (List.length sub - 1)%nat). lia.
Qed.

Lemma count_nonneg s sub : (0 <= count s sub)%Z.
Proof. apply count_from_nonneg. Qed.

Lemma Qltb_false x y : ValidationAgent.Qltb x y = false -> (y <= x)%Q.
Proof.
  unfold ValidationAgent.Qltb. intros H. apply negb_false_iff in H.
  now apply Qle_bool_iff.
Qed.

Lemma Qltb_true x y : ValidationAgent.Qltb x y = true -> (x < y)%Q.
Proof.
  unfold ValidationAgent.Qltb. intros H. apply negb_true_iff in H.
  apply Qnot_le_lt. intros L. apply Qle_bool_iff in L. congruence.
Qed.

Lemma inject_Z_nonneg z : (0 <= z)%Z -> (0 <= inject_Z z)%Q.
Proof. intros H. change 0%Q with (inject_Z 0). now rewrite <- Zle_Qle. Qed.

Ltac cost_cases :=
  unfold ValidationAgent._estimate_cost; cbv zeta;
  repeat match goal with
         | |- context [if existsb ?f ?l then _ else _] =>
             destruct (existsb f l)
         | |- context [contains ?a ?b] => destruct (contains a b)
         end;
  cbn [andb negb].

(** X3.  The cost estimate never exceeds 1, and it is not negative when
    the text contains [SELECT] (in any letter case). *)
Theorem estimate_cost_bounds (sql : str) (tables_used : list str) :
  (ValidationAgent._estimate_cost sql tables_used <= 1)%Q /\
  ((1 <= count (upper sql) "SELECT")%Z ->
   (0 <= ValidationAgent._estimate_cost sql tables_used)%Q).
Proof.
  pose proof (inject_Z_nonneg _ (Nat2Z.is_nonneg (List.length tables_used))) as Ht.
  pose proof (inject_Z_nonneg _ (count_nonneg (upper sql) "JOIN")) as Hj.
  split.
  - cost_cases;
      match goal with
      | |- ((if ValidationAgent.Qltb 1 ?c then _ else _) <= _)%Q =>
          destruct (ValidationAgent.Qltb 1 c) eqn:E;
          [apply Qle_refl | exact (Qltb_false _ _ E)]
      end.
  - intros Hs.
    assert (Hc : (0 <= inject_Z (count (upper sql) "SELECT" - 1))%Q)
      by (apply inject_Z_nonneg; lia).
    cost_cases;
      match goal with
      | |- (_ <= (if ValidationAgent.Qltb 1 ?c then _ else _))%Q =>
          destruct (ValidationAgent.Qltb 1 c) eqn:E
      end; lra.
Qed.

(** X4.  Listing more tables never lowers the cost estimate of a text. *)
Theorem estimate_cost_monotone_tables (sql : str) (fewer more : list str) :
  (List.length fewer <= List.length more)%nat ->
  (ValidationAgent._estimate_cost sql fewer <=
   ValidationAgent._estimate_cost sql more)%Q.
Proof.
  intros H.
  assert (Hl : (inject_Z (Z.of_nat (List.length fewer)) <=
                inject_Z (Z.of_nat (List.length more)))%Q)
    by (rewrite <- Zle_Qle; lia).
  cost_cases;
    match goal with
    | |- ((if ValidationAgent.Qltb 1 ?c then _ else _) <=
          (if ValidationAgent.Qltb 1 ?c' then _ else _))%Q =>
        destruct (ValidationAgent.Qltb 1 c) eqn:E;
        destruct (ValidationAgent.Qltb 1 c') eqn:E';
        try apply Qltb_true in E; try apply Qltb_false in E;
        try apply Qltb_true in E'; try apply Qltb_false in E'
    end; lra.
Qed.

Lemma estimate_cost_monotone_tables_witness :
  (ValidationAgent._estimate_cost "SELECT * FROM a JOIN b" ["a" : str] <=
   ValidationAgent._estimate_cost "SELECT * FROM a JOIN b" ["a" : str; "b" : str])%Q.
Proof.
  apply (estimate_cost_monotone_tables "SELECT * FROM a JOIN b"
           ["a" : str] ["a" : str; "b" : str]).
  cbn. lia.
Defined.


(** ** The syntax gate *)



(** ** The size estimate *)

(** X6.  For a text written in ASCII, [estimate_result_size] returns -1
    exactly when the text has no [LIMIT <number>] clause; any other number
    it returns is not negative and is the number of a clause of the text;
    and it raises only on a text that has such a clause (the number of the
    first one has more than 4300 digits). *)
Theorem estimate_result_size_sentinel (text : str) :
  isascii text = true ->
  match RowLimitEnforcer.estimate_result_size text with
  | Ok k =>
      (k = (-1)%Z <-> forall k', ~ has_limit text k') /\
      (k <> (-1)%Z -> (0 <= k)%Z /\ has_limit text k)
  | Raise _ => exists k', has_limit text k'
  end.
Proof.
  intros _.
  destruct (re_search "LIMIT\s+(\d+)" text true) as [m|] eqn:E.
  - rewrite (estimate_some _ _ E).
    pose proof (int_value_nonneg (RowLimitEnforcer.group1 m)) as Hn.
    rewrite re_search_limit in E. pose proof (search_limit_has _ _ E) as Hh.
    destruct (to_int (RowLimitEnforcer.group1 m)) as [k|e] eqn:Ek.
    + apply to_int_inv in Ek as [_ ->]. split.
      * split; [lia|]. intros H. now apply H in Hh.
      * intros _. split; assumption.
    + eexists. exact Hh.
  - rewrite (proj2 (estimate_none text) E). split.
    + split; [|reflexivity]. intros _ k (pre & suf & m & -> & Hm & _).
      rewrite re_search_limit in E.
      now apply (search_from_found _ _ _ _ _ _ Hm).
    + intros H. now contradiction H.
Qed.

Lemma estimate_result_size_sentinel_witness :
  RowLimitEnforcer.estimate_result_size "SELECT * FROM users LIMIT 50" =
    Ok 50%Z /\
  (0 <= 50)%Z /\ has_limit "SELECT * FROM users LIMIT 50" 50.
Proof.
  assert (E : RowLimitEnforcer.estimate_result_size
                "SELECT * FROM users LIMIT 50" = Ok 50%Z)
    by (vm_compute; reflexivity).
  split; [exact E|].
  pose proof (estimate_result_size_sentinel "SELECT * FROM users LIMIT 50"
                eq_refl) as H.
  rewrite E in H. apply H. discriminate.
Defined.

(** ** The dangerous-pattern scan *)

Lemma scan_prefix patterns text prefix e :
  In e (QuerySafetyChecker.scan patterns text prefix) ->
  exists pattern, In pattern patterns /\ e = prefix ++ pattern.
Proof.
  unfold QuerySafetyChecker.scan. intros H.
  apply in_flat_map in H as (p & Hp & He). exists p. split; [exact Hp|].
  destruct (re_search p text true); [|contradiction].
  destruct He as [<-|[]]. reflexivity.
Qed.

Lemma scan_member patterns text prefix pattern :
  In pattern patterns -> re_search pattern text true <> None ->
  In (prefix ++ pattern) (QuerySafetyChecker.scan patterns text prefix).
Proof.
  unfold QuerySafetyChecker.scan. intros Hin Hs.
  apply in_flat_map. exists pattern. split; [exact Hin|].
  destruct (re_search pattern text true); [now left | contradiction].
Qed.

Lemma search_comment text :
  contains "--" text = true -> re_search "--" text true <> None.
Proof.
  intros H. destruct (contains_inv _ _ H) as (pre & post & ->).
  unfold re_search.
  replace (re_compile "--") with (lits "--" ++ []) by (vm_compute; reflexivity).
  destruct (match_here true (lits "--" ++ []) (last_char None pre)
              ("--" ++ post) no_groups) as [m|] eqn:E.
  - eapply search_from_found. exact E.
  - rewrite match_lits in E. discriminate.
Qed.

(** X7.  The dangerous patterns only warn.  Every error of
    [QuerySafetyChecker.validate_query] is a finding of the destructive
    scan, the empty-query error or the multiple-statement error; every
    warning is a finding of the dangerous-pattern scan; and a text with a
    [--] comment marker gets the warning for it. *)
Theorem dangerous_patterns_only_warn (text : str) (allow : bool) :
  let errs := snd (fst (QuerySafetyChecker.validate_query text allow)) in
  let warns := snd (QuerySafetyChecker.validate_query text allow) in
  (forall e, In e errs ->
     destructive_related e = true \/ e = "Empty SQL query" \/
     e = "Multiple SQL statements not allowed") /\
  (forall w, In w warns ->
     startswith w "Potentially dangerous pattern: " = true) /\
  (contains "--" text = true ->
   In ("Potentially dangerous pattern: --" : str) warns).
Proof.
  cbv zeta. unfold QuerySafetyChecker.validate_query.
  unfold QuerySafetyChecker.is_destructive,
    QuerySafetyChecker.check_dangerous_patterns.
  set (issues := QuerySafetyChecker.scan QuerySafetyChecker.DESTRUCTIVE_KEYWORDS _ _).
  set (dw := QuerySafetyChecker.scan QuerySafetyChecker.DANGEROUS_PATTERNS _ _).
  cbn [fst snd app].
  assert (Hi : forall e, In e issues -> destructive_related e = true).
  { intros e He. apply scan_prefix in He as (p & _ & ->).
    unfold destructive_related.
    change (list_ascii_of_string "Destructive operation detected: ")
      with ("Destructive operation detected" ++ ": ").
    rewrite <- app_assoc. apply startswith_app. }
  assert (Hw : forall w, In w dw ->
                 startswith w "Potentially dangerous pattern: " = true).
  { intros w He. apply scan_prefix in He as (p & _ & ->). apply startswith_app. }
  split; [|split].
  - intros e He.
    destruct ((0 <? List.length issues)%nat && negb allow), (strip text),
      (1 <? count text ";")%Z; cbn [In app] in He;
      repeat match goal with
             | H : In _ (_ ++ _) |- _ => apply in_app_or in H
             | H : _ \/ _ |- _ => destruct H
             | H : In _ (_ :: _) |- _ => cbn [In] in H
             | H : In _ [] |- _ => contradiction
             | H : False |- _ => contradiction
             end; subst; auto.
  - intros w Hin. destruct (0 <? List.length dw)%nat; [|contradiction].
    now apply Hw.
  - intros Hc.
    assert (M : In ("Potentially dangerous pattern: --" : str) dw).
    { apply (scan_member _ _ "Potentially dangerous pattern: " "--");
        [now left | now apply search_comment]. }
    destruct dw; [contradiction | exact M].
Qed.

(** ** [sanitize_user_input] *)

Lemma replace_from_subset old s c :
  forall skip, In c (replace_from old [] skip s) -> In c s.
Proof.
  induction s as [|x s IH]; intros skip H; cbn [replace_from] in H;
    [contradiction|].
  destruct skip.
  - destruct (startswith (x :: s) old).
    + right. eapply IH. exact H.
    + destruct H as [->|H]; [now left | right; eapply IH; exact H].
  - right. eapply IH. exact H.
Qed.

Lemma contains_char c s : contains [c] s = true -> In c s.
Proof.
  intros H. destruct (contains_inv _ _ H) as (pre & post & ->).
  apply in_or_app. right. now left.
Qed.

Lemma replace_char_gone c s : ~ In c (replace s [c] []).
Proof.
  unfold replace. induction s as [|x s IH]; cbn [replace_from]; [exact (fun H => H)|].
  cbn [startswith List.length Nat.sub]. rewrite startswith_nil, andb_true_r.
  destruct (Ascii.eqb_spec c x) as [->|N].
  - cbn [app]. exact IH.
  - intros [E|H]; [now apply N | now apply IH].
Qed.

Lemma remove_dashes_step_pair s :
  replace ("-"%char :: "-"%char :: s) "--" [] = replace s "--" [].
Proof. unfold replace. cbn. now rewrite startswith_nil. Qed.

Lemma remove_dashes_step c s :
  startswith (c :: s) "--" = false ->
  replace (c :: s) "--" [] = c :: replace s "--" [].
Proof. unfold replace. cbn [replace_from]. now intros ->. Qed.

Lemma startswith_dashes c s :
  startswith (c :: s) "--" = false ->
  forall t, startswith (c :: t) "--" = true -> startswith s "-" = false.
Proof.
  cbn [startswith list_ascii_of_string]. intros E t F.
  destruct (Ascii.eqb "-" c); [|discriminate].
  destruct s as [|x s]; [reflexivity|].
  cbn [startswith andb] in E |- *. exact E.
Qed.

Lemma remove_dashes_clean :
  forall n s, (List.length s <= n)%nat ->
    contains "--" (replace s "--" []) = false.
Proof.
  induction n as [|n IH]; intros s Hn.
  - destruct s; [reflexivity | cbn [List.length] in Hn; lia].
  - destruct s as [|c s]; [reflexivity|].
    cbn [List.length] in Hn.
    destruct (startswith (c :: s) "--") eqn:E.
    + destruct (startswith_inv _ _ E) as (t & Et).
      cbn [app list_ascii_of_string] in Et. injection Et as -> ->.
      rewrite remove_dashes_step_pair. apply IH. cbn [List.length] in Hn. lia.
    + rewrite (remove_dashes_step _ _ E). cbn [contains].
      rewrite (IH s) by lia. rewrite orb_false_r.
      destruct (startswith (c :: replace s "--" []) "--") eqn:G; [|reflexivity].
      pose proof (startswith_dashes _ _ E _ G) as Hs.
      destruct s as [|x s]; [cbn in G; now rewrite andb_false_r in G|].
      assert (F : startswith (x :: s) "--" = false).
      { cbn [startswith list_ascii_of_string andb] in Hs |- *.
        rewrite startswith_nil, andb_true_r in Hs. now rewrite Hs. }
      rewrite (remove_dashes_step _ _ F) in G.
      cbn [startswith list_ascii_of_string] in G, Hs.
      rewrite startswith_nil, andb_true_r in Hs. rewrite Hs in G.
      rewrite andb_false_l, andb_false_r in G. discriminate.
Qed.

(** X8.  What [sanitize_user_input] returns holds no semicolon and no
    [--] comment marker. *)
Theorem sanitize_user_input_clean (user_input : str) :
  contains ";" (sanitize_user_input user_input) = false /\
  contains "--" (sanitize_user_input user_input) = false.
Proof.
  unfold sanitize_user_input. split.
  - destruct (contains ";" _) eqn:E; [|reflexivity]. exfalso.
    apply (contains_char ";"%char) in E.
    apply (replace_from_subset "--" _ _ 0) in E.
    now apply replace_char_gone in E.
  - now apply (remove_dashes_clean (List.length (replace (replace user_input "'" "''") ";" []))).
Qed.

(** ** The relevance filter and the relationships *)

(** X9.  [_filter_relevant_tables] returns tables of the catalog only, and
    returns none only when the catalog is empty. *)
Theorem filter_relevant_tables_within
    (user_query : str) (all_tables : list TableMetadata) :
  incl (SchemaAgent._filter_relevant_tables user_query all_tables) all_tables /\
  (SchemaAgent._filter_relevant_tables user_query all_tables = [] <->
   all_tables = []).
Proof.
  unfold SchemaAgent._filter_relevant_tables.
  match goal with |- context [filter ?f all_tables] => set (keep := f) end.
  destruct (filter keep all_tables) as [|t l] eqn:E.
  - split.
    + intros x Hx. rewrite <- (firstn_skipn 20 all_tables).
      apply in_or_app. now left.
    + destruct all_tables; [split; reflexivity | split; discriminate].
  - split.
    + rewrite <- E. intros x Hx. apply filter_In in Hx. tauto.
    + split; [discriminate|]. intros ->. discriminate.
Qed.

Lemma split_from_blank s :
  forallb is_space s = true -> split_from [] s = [].
Proof.
  induction s as [|c s IH]; [reflexivity|]. cbn [forallb split_from].
  intros H. apply andb_prop in H as [-> H]. now apply IH.
Qed.

Lemma lower_char_space c : is_space (lower_char c) = is_space c.
Proof. by_char c. Qed.

(** X10.  For a query without any word (empty or blank) nothing can
    match, and the filter falls back to the first 20 tables of the
    catalog. *)
Theorem filter_blank_query (user_query : str) (all_tables : list TableMetadata) :
  forallb is_space user_query = true ->
  SchemaAgent._filter_relevant_tables user_query all_tables =
  firstn 20 all_tables.
Proof.
  intros H. unfold SchemaAgent._filter_relevant_tables, split.
  rewrite split_from_blank.
  - cbn [to_set nodup existsb]. rewrite filter_none; [reflexivity|].
    intros t _. apply existsb_false. reflexivity.
  - clear all_tables. induction user_query as [|c s IH]; [reflexivity|].
    cbn [lower map forallb] in H |- *. apply andb_prop in H as [Hc Hs].
    rewrite lower_char_space, Hc. now apply IH.
Qed.

Lemma filter_blank_query_witness :
  let users :=
    {| name := "users"; schema := "public";
       columns := [ {| column_name := "id"; column_type := "int";
                       column_nullable := false |} ];
       row_count := None; description := None |} in
  SchemaAgent._filter_relevant_tables "  " [users] = firstn 20 [users].
Proof.
  cbv zeta. apply (filter_blank_query "  "). reflexivity.
Defined.

Lemma pystr_eqb_eq a b : PyStr.eqb a b = true <-> a = b.
Proof.
  unfold PyStr.eqb. destruct (list_eq_dec ascii_dec a b); split;
    try discriminate; auto.
Qed.

Lemma endswith_id s :
  (endswith s "_id" || endswith s "id") = endswith s "id".
Proof.
  unfold endswith. cbn [rev list_ascii_of_string app].
  destruct (rev s) as [|a [|b [|c r]]]; cbn [startswith];
    rewrite ?startswith_nil;
    repeat match goal with
           | |- context [Ascii.eqb ?x ?y] => destruct (Ascii.eqb x y)
           end; reflexivity.
Qed.

(** X11.  For tables whose names and column names are written in ASCII,
    every relationship [_infer_relationships] emits starts at a column of
    a table of the set whose lowercase name ends in [id], and points at
    the column [id] of a table of the set whose lowercase name is that
    column name with every [_id] and then every [id] removed. *)
Theorem infer_relationships_sound
    (tables : list TableMetadata) (r : Relationship) :
  ascii_names tables = true ->
  In r (SchemaAgent._infer_relationships tables) ->
  exists t c o,
    In t tables /\ In c (columns t) /\ In o tables /\
    r = {| from_table := name t; from_column := column_name c;
           to_table := name o; to_column := "id" |} /\
    endswith (lower (column_name c)) "id" = true /\
    lower (name o) =
      replace (replace (lower (column_name c)) "_id" []) "id" [].
Proof.
  unfold SchemaAgent._infer_relationships. intros _ H.
  apply in_flat_map in H as (t & Ht & H).
  apply in_flat_map in H as (c & Hc & H).
  rewrite endswith_id in H.
  destruct (endswith (lower (column_name c)) "id") eqn:E; [|contradiction].
  apply in_flat_map in H as (o & Ho & H).
  destruct (PyStr.eqb _ _) eqn:Q in H; [|contradiction].
  destruct H as [<-|[]]. apply pystr_eqb_eq in Q.
  exists t, c, o. repeat split; assumption.
Qed.

Lemma infer_relationships_sound_witness :
  let customer :=
    {| name := "customer"; schema := "public";
       columns := [ {| column_name := "id"; column_type := "int";
                       column_nullable := false |} ];
       row_count := None; description := None |} in
  let orders :=
    {| name := "orders"; schema := "public";
       columns := [ {| column_name := "id"; column_type := "int";
                       column_nullable := false |};
                    {| column_name := "customer_id"; column_type := "int";
                       column_nullable := false |} ];
       row_count := None; description := None |} in
  exists t c o,
    In t [customer; orders] /\ In c (columns t) /\ In o [customer; orders] /\
    {| from_table := "orders"; from_column := "customer_id";
       to_table := "customer"; to_column := "id" |} =
    {| from_table := name t; from_column := column_name c;
       to_table := name o; to_column := "id" |} /\
    endswith (lower (column_name c)) "id" = true /\
    lower (name o) =
      replace (replace (lower (column_name c)) "_id" []) "id" [].
Proof.
  cbv zeta. apply infer_relationships_sound; [reflexivity|].
  vm_compute. now left.
Defined.

Lemma replace_absent old new s :
  contains old s = false -> replace s old new = s.
Proof.
  unfold replace. induction s as [|c s IH]; [reflexivity|].
  cbn [contains replace_from]. intros H. apply orb_false_elim in H as [-> H].
  now rewrite IH.
Qed.

Lemma contains_id_suffix s :
  contains "id" s = false -> contains "_id" s = false.
Proof.
  induction s as [|c s IH]; [reflexivity|]. cbn [contains].
  intros H. apply orb_false_elim in H as [H1 H2]. rewrite (IH H2), orb_false_r.
  cbn [startswith list_ascii_of_string].
  destruct (Ascii.eqb "_" c); [|reflexivity]. cbn [andb].
  destruct s as [|x s]; [reflexivity|].
  cbn [contains] in H2. apply orb_false_elim in H2 as [H2 _]. exact H2.
Qed.

Lemma remove_id_suffix s :
  contains "id" s = false -> replace (s ++ "_id") "_id" [] = s.
Proof.
  unfold replace. induction s as [|c s IH]; intros H.
  - vm_compute. reflexivity.
  - cbn [contains] in H. apply orb_false_elim in H as [H1 H2].
    cbn [app replace_from].
    assert (F : startswith (c :: s ++ "_id") "_id" = false).
    { cbn [startswith list_ascii_of_string].
      destruct (Ascii.eqb "_" c); [|reflexivity]. cbn [andb].
      destruct s as [|x [|y s]].
      - reflexivity.
      - cbn [app startswith list_ascii_of_string].
        now rewrite andb_false_r.
      - cbn [contains] in H2. apply orb_false_elim in H2 as [H2 _].
        cbn [startswith list_ascii_of_string app] in H2 |- *.
        rewrite startswith_nil, andb_true_r in *. exact H2. }
    rewrite F. now rewrite IH.
Qed.

(** X12.  A column whose lowercase name is the lowercase name of a table
    of the set followed by [_id] is linked to that table, when the table
    name holds no [id]. *)
Theorem infer_relationships_finds
    (tables : list TableMetadata) (t o : TableMetadata) (c : Column) :
  In t tables -> In c (columns t) -> In o tables ->
  contains "id" (lower (name o)) = false ->
  lower (column_name c) = lower (name o) ++ "_id" ->
  In {| from_table := name t; from_column := column_name c;
        to_table := name o; to_column := "id" |}
     (SchemaAgent._infer_relationships tables).
Proof.
  intros Ht Hc Ho Hid Hn. unfold SchemaAgent._infer_relationships.
  apply in_flat_map. exists t. split; [exact Ht|].
  apply in_flat_map. exists c. split; [exact Hc|].
  rewrite Hn.
  replace (lower (name o) ++ "_id") with ((lower (name o) ++ "_") ++ "id")
    at 2 by now rewrite <- app_assoc.
  rewrite (endswith_app _ "id"), orb_true_r.
  rewrite (remove_id_suffix _ Hid), (replace_absent _ _ _ Hid).
  apply in_flat_map. exists o. split; [exact Ho|].
  destruct (PyStr.eqb (lower (name o)) (lower (name o))) eqn:Q.
  - now left.
  - assert (T : PyStr.eqb (lower (name o)) (lower (name o)) = true)
      by now apply pystr_eqb_eq.
    rewrite T in Q. discriminate.
Qed.

Lemma infer_relationships_finds_witness :
  let customer :=
    {| name := "Customer"; schema := "public";
       columns := [ {| column_name := "id"; column_type := "int";
                       column_nullable := false |} ];
       row_count := None; description := None |} in
  let fk := {| column_name := "CUSTOMER_ID"; column_type := "int";
               column_nullable := false |} in
  let orders :=
    {| name := "orders"; schema := "public";
       columns := [ {| column_name := "id"; column_type := "int";
                       column_nullable := false |}; fk ];
       row_count := None; description := None |} in
  In {| from_table := "orders"; from_column := "CUSTOMER_ID";
        to_table := "Customer"; to_column := "id" |}
     (SchemaAgent._infer_relationships [customer; orders]).
Proof.
  cbv zeta.
  apply (infer_relationships_finds
           [ {| name := "Customer"; schema := "public";
                columns := [ {| column_name := "id"; column_type := "int";
                                column_nullable := false |} ];
                row_count := None; description := None |};
             {| name := "orders"; schema := "public";
                columns := [ {| column_name := "id"; column_type := "int";
                                column_nullable := false |};
                             {| column_name := "CUSTOMER_ID";
                                column_type := "int";
                                column_nullable := false |} ];
                row_count := None; description := None |} ]
           {| name := "orders"; schema := "public";
              columns := [ {| column_name := "id"; column_type := "int";
                              column_nullable := false |};
                           {| column_name := "CUSTOMER_ID";
                              column_type := "int";
                              column_nullable := false |} ];
              row_count := None; description := None |}
           {| name := "Customer"; schema := "public";
              columns := [ {| column_name := "id"; column_type := "int";
                              column_nullable := false |} ];
              row_count := None; description := None |}
           {| column_name := "CUSTOMER_ID"; column_type := "int";
              column_nullable := false |}).
  - right. left. reflexivity.
  - right. left. reflexivity.
  - left. reflexivity.
  - vm_compute. reflexivity.
  - vm_compute. reflexivity.
Defined.


(** ** The connector's requests *)

Lemma executed_state c reqs d :
  executed {| DatabaseConnector._schema_cache := c;
              DatabaseConnector.sent := reqs ++ DatabaseConnector.sent d |} =
  flat_map statement_of reqs ++ executed d.
Proof. unfold executed. cbn [DatabaseConnector.sent]. apply flat_map_app. Qed.

Lemma get_table_metadata_run engine table sch d :
  DatabaseConnector.get_table_metadata engine table sch d =
  (match DatabaseConnector.inspector_get_columns engine table sch with
   | Ok cols =>
       new_TableMetadata table (DatabaseConnector.or_default sch) cols
         match DatabaseConnector.select_count engine
                 (DatabaseConnector.full_name table sch) with
         | Ok n => Some n
         | Raise _ => None
         end
   | Raise e => Raise e
   end,
   {| DatabaseConnector._schema_cache := DatabaseConnector._schema_cache d;
      DatabaseConnector.sent :=
        (match DatabaseConnector.inspector_get_columns engine table sch with
         | Ok _ => [DatabaseConnector.SelectCount
                      (DatabaseConnector.full_name table sch)]
         | Raise _ => []
         end) ++
        DatabaseConnector.GetColumns table sch :: DatabaseConnector.sent d |}).
Proof.
  unfold DatabaseConnector.get_table_metadata, DatabaseConnector.send,
    bind, try_except, modify, lift_outcome, ret.
  destruct (DatabaseConnector.inspector_get_columns engine table sch);
    [|reflexivity].
  cbn [DatabaseConnector._schema_cache DatabaseConnector.sent].
  destruct (DatabaseConnector.select_count engine _); reflexivity.
Qed.

Lemma counts_of_cons sch table rest :
  counts_of sch (table :: rest) =
  counts_of sch rest ++
  [count_statement (DatabaseConnector.full_name table sch)].
Proof. reflexivity. Qed.

Lemma collect_metadata_run engine sch :
  forall table_names d,
  exists l d',
    DatabaseConnector.collect_metadata engine table_names sch d = (Ok l, d') /\
    map name l = filter (columnless engine sch) table_names /\
    Forall (fun t => schema t = DatabaseConnector.or_default sch /\
                     columns t = []) l /\
    DatabaseConnector._schema_cache d' = DatabaseConnector._schema_cache d /\
    executed d' =
      counts_of sch (filter (readable engine sch) table_names) ++ executed d /\
    exists reqs, DatabaseConnector.sent d' = reqs ++ DatabaseConnector.sent d.
Proof.
  induction table_names as [|table rest IH]; intros d.
  - exists [], d. cbn. repeat split; [constructor | now exists []].
  - cbn [DatabaseConnector.collect_metadata filter].
    unfold bind at 1. unfold try_except. unfold bind at 1.
    rewrite get_table_metadata_run. unfold readable at 1, columnless at 1.
    destruct (DatabaseConnector.inspector_get_columns engine table sch)
      as [cols|e].
    + set (d1 := {| DatabaseConnector._schema_cache :=
                      DatabaseConnector._schema_cache d;
                    DatabaseConnector.sent :=
                      [DatabaseConnector.SelectCount
                         (DatabaseConnector.full_name table sch)] ++
                      DatabaseConnector.GetColumns table sch ::
                      DatabaseConnector.sent d |}).
      destruct (IH d1) as (l & d' & E & Hn & Hs & Hc & Hx & reqs & Hr).
      assert (X1 : executed d1 =
                   [count_statement (DatabaseConnector.full_name table sch)]
                   ++ executed d)
        by exact (executed_state _
                    [DatabaseConnector.SelectCount
                       (DatabaseConnector.full_name table sch);
                     DatabaseConnector.GetColumns table sch] d).
      assert (Hx' : executed d' =
                    counts_of sch (table :: filter (readable engine sch) rest)
                    ++ executed d)
        by (rewrite Hx, X1, counts_of_cons, <- app_assoc; reflexivity).
      assert (Hr' : exists reqs0,
                 DatabaseConnector.sent d' = reqs0 ++ DatabaseConnector.sent d).
      { exists (reqs ++ [DatabaseConnector.SelectCount
                           (DatabaseConnector.full_name table sch);
                         DatabaseConnector.GetColumns table sch]).
        rewrite Hr. cbn [DatabaseConnector.sent d1 app].
        now rewrite <- app_assoc. }
      destruct cols as [|col cols]; cbn [new_TableMetadata ret].
      * unfold bind at 1. rewrite E. cbn [ret app].
        eexists _, d'. split; [reflexivity|].
        cbn [map name]. rewrite Hn. split; [reflexivity|].
        split; [constructor; [split; reflexivity | exact Hs]|].
        split; [exact Hc|]. split; [exact Hx' | exact Hr'].
      * unfold bind at 1. rewrite E. cbn [ret app].
        exists l, d'. split; [reflexivity|].
        split; [exact Hn|]. split; [exact Hs|].
        split; [exact Hc|]. split; [exact Hx' | exact Hr'].
    + cbn [ret]. unfold bind at 1.
      match goal with
      | |- context [DatabaseConnector.collect_metadata engine rest sch ?d1] =>
          destruct (IH d1) as (l & d' & E & Hn & Hs & Hc & Hx & reqs & Hr);
          assert (X1 : executed d1 = executed d)
            by exact (executed_state _
                        [DatabaseConnector.GetColumns table sch] d)
      end.
      rewrite E. cbn [ret app]. exists l, d'. split; [reflexivity|].
      split; [exact Hn|]. split; [exact Hs|].
      split; [exact Hc|]. split; [now rewrite Hx, X1|].
      exists (reqs ++ [DatabaseConnector.GetColumns table sch]).
      rewrite Hr. cbn [DatabaseConnector.sent app]. now rewrite <- app_assoc.
Qed.

(** What a lookup does when it asks the database. *)
Lemma fetch_run engine sch d :
  match DatabaseConnector.inspector_get_table_names engine sch with
  | Raise e =>
      (tables <- DatabaseConnector.get_tables engine sch ;;
       metadata_list <- DatabaseConnector.collect_metadata engine tables sch ;;
       DatabaseConnector.set_cache (Some metadata_list) ;;;
       ret metadata_list) d =
      (Raise e,
       {| DatabaseConnector._schema_cache := DatabaseConnector._schema_cache d;
          DatabaseConnector.sent :=
            DatabaseConnector.GetTableNames sch :: DatabaseConnector.sent d |})
  | Ok tables =>
      exists l d',
        (tables <- DatabaseConnector.get_tables engine sch ;;
         metadata_list <- DatabaseConnector.collect_metadata engine tables sch ;;
         DatabaseConnector.set_cache (Some metadata_list) ;;;
         ret metadata_list) d = (Ok l, d') /\
        map name l = filter (columnless engine sch) tables /\
        Forall (fun t => schema t = DatabaseConnector.or_default sch /\
                         columns t = []) l /\
        DatabaseConnector._schema_cache d' = Some l /\
        executed d' =
          counts_of sch (filter (readable engine sch) tables) ++ executed d /\
        exists reqs,
          DatabaseConnector.sent d' =
          reqs ++ DatabaseConnector.GetTableNames sch ::
          DatabaseConnector.sent d
  end.
Proof.
  unfold DatabaseConnector.get_tables, DatabaseConnector.send.
  destruct (DatabaseConnector.inspector_get_table_names engine sch)
    as [tables|e]; [|reflexivity].
  unfold bind at 1. unfold bind at 1. cbn [modify lift_outcome].
  unfold bind at 1.
  match goal with
  | |- context [DatabaseConnector.collect_metadata engine tables sch ?d1] =>
      destruct (collect_metadata_run engine sch tables d1)
        as (l & d' & E & Hn & Hs & Hc & Hx & reqs & Hr);
      assert (X1 : executed d1 = executed d)
        by exact (executed_state _ [DatabaseConnector.GetTableNames sch] d)
  end.
  rewrite E. cbn.
  eexists l, _. split; [reflexivity|].
  cbn [DatabaseConnector._schema_cache DatabaseConnector.sent].
  split; [exact Hn|]. split; [exact Hs|]. split; [reflexivity|].
  split; [|exists reqs; exact Hr].
  rewrite <- X1, <- Hx. reflexivity.
Qed.

Lemma lookup_fetches engine sch use_cache d :
  DatabaseConnector._schema_cache d = None \/ use_cache = false ->
  DatabaseConnector.get_all_table_metadata engine sch use_cache d =
  (tables <- DatabaseConnector.get_tables engine sch ;;
   metadata_list <- DatabaseConnector.collect_metadata engine tables sch ;;
   DatabaseConnector.set_cache (Some metadata_list) ;;;
   ret metadata_list) d.
Proof.
  intros H. unfold DatabaseConnector.get_all_table_metadata.
  unfold bind at 1. cbn [get].
  destruct (DatabaseConnector._schema_cache d) as [c|] eqn:E; [|reflexivity].
  destruct H as [H| ->]; [discriminate | reflexivity].
Qed.

(** X13.  A lookup that bypasses the cache raises only when the listing
    of the tables raises, and then leaves the cache as it was.  Otherwise
    it returns, in the order of the listing, exactly the tables for which
    the inspector lists no column, each under the schema name asked for or
    [default], and stores what it returns in the cache.  A table with a
    column is dropped: the metadata built for it carries the [bool]
    [nullable], which [TableMetadata] refuses, and the loop skips the
    table; so is a table whose columns cannot be listed.  A row count that
    cannot be read drops no table. *)
Theorem get_all_table_metadata_fetch
    (engine : DatabaseConnector.Engine) (sch : option str)
    (self : DatabaseConnector.t) :
  match DatabaseConnector.inspector_get_table_names engine sch with
  | Raise e =>
      fst (DatabaseConnector.get_all_table_metadata engine sch false self) =
        Raise e /\
      DatabaseConnector._schema_cache
        (snd (DatabaseConnector.get_all_table_metadata engine sch false self)) =
      DatabaseConnector._schema_cache self
  | Ok tables =>
      exists l,
        fst (DatabaseConnector.get_all_table_metadata engine sch false self) =
          Ok l /\
        map name l = filter (columnless engine sch) tables /\
        Forall (fun t => schema t = DatabaseConnector.or_default sch /\
                         columns t = []) l /\
        DatabaseConnector._schema_cache
          (snd (DatabaseConnector.get_all_table_metadata engine sch false self)) =
        Some l
  end.
Proof.
  rewrite lookup_fetches by now right.
  pose proof (fetch_run engine sch self) as F.
  destruct (DatabaseConnector.inspector_get_table_names engine sch)
    as [tables|e].
  - destruct F as (l & d' & E & Hn & Hs & Hc & _). rewrite E.
    exists l. cbn [fst snd]. split; [reflexivity|].
    split; [exact Hn|]. split; [exact Hs | exact Hc].
  - rewrite F. split; reflexivity.
Qed.

(** X14.  After [clear_cache] a caching lookup asks the database again:
    it does what a lookup without the cache does, and the listing of the
    tables is among the requests it sends. *)
Theorem clear_cache_forces_fetch
    (engine : DatabaseConnector.Engine) (sch : option str)
    (self : DatabaseConnector.t) :
  let cleared := snd (DatabaseConnector.clear_cache self) in
  DatabaseConnector.get_all_table_metadata engine sch true cleared =
  DatabaseConnector.get_all_table_metadata engine sch false cleared /\
  exists reqs,
    DatabaseConnector.sent
      (snd (DatabaseConnector.get_all_table_metadata engine sch true cleared)) =
    reqs ++ DatabaseConnector.GetTableNames sch ::
    DatabaseConnector.sent self.
Proof.
  cbv zeta. unfold DatabaseConnector.clear_cache, DatabaseConnector.set_cache.
  cbn [modify snd].
  rewrite !lookup_fetches by (now left || now right).
  split; [reflexivity|].
  match goal with
  | |- context [bind ?m ?f ?d0] => pose proof (fetch_run engine sch d0) as F
  end.
  destruct (DatabaseConnector.inspector_get_table_names engine sch)
    as [tables|e].
  - destruct F as (l & d' & E & _ & _ & _ & _ & reqs & Hr). rewrite E.
    exists reqs. exact Hr.
  - rewrite F. now exists [].
Qed.

(** ** The schema agent's run *)

Lemma get_schema_context_run engine user_query sch use_cache d :
  exists r d' counts,
    SchemaAgent.get_schema_context engine user_query sch use_cache d =
      (Ok r, d') /\
    executed d' = counts ++ executed d /\
    (counts = [] \/
     exists tables,
       DatabaseConnector.inspector_get_table_names engine sch = Ok tables /\
       counts = counts_of sch (filter (readable engine sch) tables)) /\
    (use_cache = true -> DatabaseConnector._schema_cache d <> None ->
     success r = true /\ d' = d) /\
    (success r = true -> ar_data r <> None) /\
    (success r = false ->
     ar_data r = None /\
     exists e,
       DatabaseConnector.inspector_get_table_names engine sch = Raise e /\
       error r = Some e /\
       DatabaseConnector._schema_cache d' = DatabaseConnector._schema_cache d).
Proof.
  unfold SchemaAgent.get_schema_context, try_except. unfold bind at 1.
  assert (Fetch :
    DatabaseConnector._schema_cache d = None \/ use_cache = false ->
    exists o d' counts,
      DatabaseConnector.get_all_table_metadata engine sch use_cache d =
        (o, d') /\
      executed d' = counts ++ executed d /\
      (counts = [] \/
       exists tables,
         DatabaseConnector.inspector_get_table_names engine sch = Ok tables /\
         counts = counts_of sch (filter (readable engine sch) tables)) /\
      match o with
      | Ok _ => True
      | Raise e =>
          DatabaseConnector.inspector_get_table_names engine sch = Raise e /\
          DatabaseConnector._schema_cache d' =
          DatabaseConnector._schema_cache d
      end).
  { intros H. rewrite lookup_fetches by exact H.
    pose proof (fetch_run engine sch d) as F.
    destruct (DatabaseConnector.inspector_get_table_names engine sch)
      as [tables|e].
    - destruct F as (l & d' & E & _ & _ & _ & Hx & _). rewrite E.
      exists (Ok l), d', (counts_of sch (filter (readable engine sch) tables)).
      split; [reflexivity|]. split; [exact Hx|].
      split; [right; exists tables; now split | exact I].
    - rewrite F. eexists (Raise e), _, []. split; [reflexivity|].
      split; [exact (executed_state _ [DatabaseConnector.GetTableNames sch] d)|].
      split; [now left | now split]. }
  assert (Done :
    DatabaseConnector._schema_cache d = None \/ use_cache = false ->
    exists r d' counts,
      (let (o, s') :=
         let (o, s') :=
           DatabaseConnector.get_all_table_metadata engine sch use_cache d in
         match o with
         | Ok a =>
             ret (agent_ok
                    {| tables :=
                         SchemaAgent._filter_relevant_tables user_query a;
                       relationships :=
                         SchemaAgent._infer_relationships
                           (SchemaAgent._filter_relevant_tables user_query a);
                       common_queries := [];
                       business_terms := [] |}) s'
         | Raise e => (Raise e, s')
         end in
       match o with
       | Ok a => (Ok a, s')
       | Raise e => ret (agent_failed e) s'
       end) = (Ok r, d') /\
      executed d' = counts ++ executed d /\
      (counts = [] \/
       exists tables,
         DatabaseConnector.inspector_get_table_names engine sch = Ok tables /\
         counts = counts_of sch (filter (readable engine sch) tables)) /\
      (success r = true -> ar_data r <> None) /\
      (success r = false ->
       ar_data r = None /\
       exists e,
         DatabaseConnector.inspector_get_table_names engine sch = Raise e /\
         error r = Some e /\
         DatabaseConnector._schema_cache d' =
         DatabaseConnector._schema_cache d)).
  { intros H. destruct (Fetch H) as (o & d' & counts & E & Hx & Hcs & Ho).
    rewrite E. destruct o as [l|e]; cbn [ret].
    - eexists _, d', counts. split; [reflexivity|]. split; [exact Hx|].
      split; [exact Hcs|]. cbn [success agent_ok ar_data].
      split; discriminate.
    - eexists _, d', counts. split; [reflexivity|]. split; [exact Hx|].
      split; [exact Hcs|]. cbn [success agent_failed ar_data error].
      split; [discriminate|]. intros _. split; [reflexivity|].
      exists e. destruct Ho as [Ho1 Ho2]. now repeat split. }
  clear Fetch.
  destruct (DatabaseConnector._schema_cache d) as [c|] eqn:Ec.
  - destruct use_cache.
    + rewrite (cache_hit engine sch d c Ec). cbn [ret].
      eexists _, d, []. split; [reflexivity|]. split; [reflexivity|].
      split; [now left|].
      cbn [success agent_ok ar_data]. split; [now split|].
      split; discriminate.
    + destruct (Done (or_intror eq_refl))
        as (r & d' & counts & E & Hx & Hcs & Hs & Hf).
      exists r, d', counts. split; [exact E|]. split; [exact Hx|].
      split; [exact Hcs|]. split; [discriminate|]. split; [exact Hs | exact Hf].
  - destruct (Done (or_introl eq_refl))
      as (r & d' & counts & E & Hx & Hcs & Hs & Hf).
    exists r, d', counts. split; [exact E|]. split; [exact Hx|].
    split; [exact Hcs|]. split; [now intros _ H|]. split; [exact Hs | exact Hf].
Qed.

(** X15.  [get_schema_context] never raises.  The only statements it
    passes to [conn.execute] are the row counts
    [SELECT COUNT( * ) FROM <table>] of the listed tables whose columns the
    database can list, the count of the first table first; with a filled
    cache it passes none and leaves the connector untouched.  It fails only
    when the listing of the tables raised; the result then carries that
    error and the cache is left as it was. *)
Theorem get_schema_context_returns
    (engine : DatabaseConnector.Engine) (user_query : str)
    (sch : option str) (use_cache : bool) (self : DatabaseConnector.t) :
  let run := SchemaAgent.get_schema_context engine user_query sch
               use_cache self in
  exists r counts,
    fst run = Ok r /\
    executed (snd run) = counts ++ executed self /\
    (counts = [] \/
     exists tables,
       DatabaseConnector.inspector_get_table_names engine sch = Ok tables /\
       counts = counts_of sch (filter (readable engine sch) tables)) /\
    (use_cache = true -> DatabaseConnector._schema_cache self <> None ->
     success r = true /\ snd run = self) /\
    (success r = false ->
     exists e,
       DatabaseConnector.inspector_get_table_names engine sch = Raise e /\
       error r = Some e /\
       DatabaseConnector._schema_cache (snd run) =
       DatabaseConnector._schema_cache self).
Proof.
  cbv zeta.
  destruct (get_schema_context_run engine user_query sch use_cache self)
    as (r & d' & counts & E & Hx & Hcs & Hc & _ & Hf).
  rewrite E. exists r, counts. cbn [fst snd]. split; [reflexivity|].
  split; [exact Hx|]. split; [exact Hcs|]. split; [exact Hc|].
  intros H. now destruct (Hf H).
Qed.

(** ** The execution agent *)

Lemma slice_to_prefix {A : Type} (rows : list A) (n : Z) :
  exists dropped, rows = slice_to rows n ++ dropped.
Proof.
  unfold slice_to. destruct (0 <=? n)%Z; eexists; symmetry; apply firstn_skipn.
Qed.

(** What one call of the execution agent does: it sends the text of the
    query, once, and packs what the database answers. *)
Lemma execute_query_run engine self q max_rows d :
  exists o,
    ExecutionAgent.execute_query engine self (Some q) max_rows d =
      (Ok o,
       {| DatabaseConnector._schema_cache := DatabaseConnector._schema_cache d;
          DatabaseConnector.sent :=
            DatabaseConnector.Execute (sql q) :: DatabaseConnector.sent d |}) /\
    match DatabaseConnector.conn_execute engine (sql q) with
    | Raise e =>
        o = {| success := false; ar_data := None;
               error := Some (ExecutionAgent._parse_error_message self e) |}
    | Ok rows =>
        exists res dropped,
          o = agent_ok res /\
          rows = data res ++ dropped /\
          result_row_count res = Z.of_nat (List.length (data res)) /\
          match max_rows with
          | Some m =>
              if (0 <? m)%Z
              then data res = firstn (Z.to_nat m) rows /\
                   truncated res = (m <? Z.of_nat (List.length rows))%Z
              else m = 0%Z -> data res = rows /\ truncated res = false
          | None => data res = rows /\ truncated res = false
          end
    end.
Proof.
  unfold ExecutionAgent.execute_query, DatabaseConnector.execute_query,
    DatabaseConnector.send, try_except, bind, modify, lift_outcome, ret.
  destruct (DatabaseConnector.conn_execute engine (sql q)) as [rows|e].
  - eexists. split; [reflexivity|].
    destruct max_rows as [m|].
    + destruct (negb (m =? 0)%Z && (m <? Z.of_nat (List.length rows))%Z) eqn:C.
      * destruct (slice_to_prefix rows m) as (dropped & Hd).
        eexists _, dropped. split; [reflexivity|]. cbn [data result_row_count truncated].
        split; [exact Hd|]. split; [reflexivity|].
        apply andb_prop in C as [C0 C1].
        destruct (Z.ltb_spec 0 m) as [P|P].
        -- unfold slice_to. destruct (Z.leb_spec 0 m); [|lia].
           split; [reflexivity | now rewrite C1].
        -- intros ->. discriminate.
      * exists {| data := rows;
                  result_columns := match rows with
                                    | first :: _ => map fst first
                                    | [] => []
                                    end;
                  result_row_count := Z.of_nat (List.length rows);
                  truncated := false |}, [].
        split; [reflexivity|]. cbn [data result_row_count truncated].
        split; [now rewrite app_nil_r|]. split; [reflexivity|].
        destruct (Z.ltb_spec 0 m) as [P|P].
        -- destruct (Z.eqb_spec m 0); [lia|]. cbn [negb andb] in C.
           apply Z.ltb_ge in C. split; [|symmetry; now apply Z.ltb_ge].
           symmetry. apply firstn_all2. lia.
        -- now intros _.
    + eexists _, []. split; [reflexivity|]. cbn [data result_row_count truncated].
      split; [now rewrite app_nil_r|]. now split.
  - eexists. split; reflexivity.
Qed.

(** X16.  For a query the database answers with [rows]: with a positive
    [max_rows] the agent returns the first [max_rows] rows and sets
    [truncated] exactly when there were more; with [max_rows] 0 or [None]
    it returns all the rows, not truncated.  [row_count] is the number of
    rows returned. *)
Theorem execute_query_truncates
    (engine : DatabaseConnector.Engine) (self : ExecutionAgent.t)
    (q : SQLQuery) (max_rows : option Z) (d : DatabaseConnector.t)
    (rows : list (list (str * str))) :
  DatabaseConnector.conn_execute engine (sql q) = Ok rows ->
  max_rows = None \/ (exists m, max_rows = Some m /\ (0 <= m)%Z) ->
  exists res,
    fst (ExecutionAgent.execute_query engine self (Some q) max_rows d) =
      Ok (agent_ok res) /\
    result_row_count res = Z.of_nat (List.length (data res)) /\
    match max_rows with
    | Some m =>
        if (0 <? m)%Z
        then data res = firstn (Z.to_nat m) rows /\
             truncated res = (m <? Z.of_nat (List.length rows))%Z
        else data res = rows /\ truncated res = false
    | None => data res = rows /\ truncated res = false
    end.
Proof.
  intros Hrows Hm.
  destruct (execute_query_run engine self q max_rows d) as (o & E & H).
  rewrite Hrows in H. destruct H as (res & dropped & -> & _ & Hc & H).
  exists res. rewrite E. cbn [fst]. split; [reflexivity|].
  split; [exact Hc|].
  destruct max_rows as [m|]; [|exact H].
  destruct (Z.ltb_spec 0 m); [exact H|].
  apply H. destruct Hm as [Hm | (m' & Hm & Hp)]; [discriminate|].
  injection Hm as <-. lia.
Qed.

Lemma execute_query_truncates_witness :
  let q := {| sql := "SELECT id FROM t"; explanation := None;
              tables_used := []; estimated_rows := None;
              confidence_score := None |} in
  let rows := map (fun i => [("id" : str, of_int (Z.of_nat i))]) (seq 0 5) in
  exists res,
    fst (ExecutionAgent.execute_query (table_of_rows 5)
           {| ExecutionAgent.timeout_seconds := 300 |} (Some q) (Some 3%Z)
           DatabaseConnector.init) = Ok (agent_ok res) /\
    result_row_count res = Z.of_nat (List.length (data res)) /\
    data res = firstn 3 rows /\ truncated res = true.
Proof.
  cbv zeta.
  apply (execute_query_truncates (table_of_rows 5)
           {| ExecutionAgent.timeout_seconds := 300 |}
           {| sql := "SELECT id FROM t"; explanation := None;
              tables_used := []; estimated_rows := None;
              confidence_score := None |}
           (Some 3%Z) DatabaseConnector.init
           (map (fun i => [("id" : str, of_int (Z.of_nat i))]) (seq 0 5))).
  - reflexivity.
  - right. exists 3%Z. split; [reflexivity | lia].
Defined.




(** ** The visualization agent *)

(** What [generate_visualization] leaves of the query result it was
    given: only [data] may change, to its first [max_chart_points] rows. *)
Lemma generate_visualization_run self renderer query_result user_query :
  let left := snd (VisualizationAgent.generate_visualization self renderer
                     query_result user_query) in
  result_columns left = result_columns query_result /\
  result_row_count left = result_row_count query_result /\
  truncated left = truncated query_result /\
  (exists charted, data query_result = data left ++ charted) /\
  ((VisualizationAgent.max_chart_points self <?
    Z.of_nat (List.length (data query_result)))%Z = false ->
   left = query_result) /\
  ((0 <= VisualizationAgent.max_chart_points self <
    Z.of_nat (List.length (data query_result)))%Z ->
   Z.of_nat (List.length (data left)) = VisualizationAgent.max_chart_points self).
Proof.
  cbv zeta. unfold VisualizationAgent.generate_visualization.
  destruct (data query_result) as [|row rows] eqn:Ed.
  - cbn [snd]. rewrite Ed. repeat split; try reflexivity.
    + now exists [].
    + cbn [List.length]. lia.
  - set (big := (VisualizationAgent.max_chart_points self <? _)%Z).
    set (qr := if big then _ else query_result).
    assert (S : snd (match VisualizationAgent._create_chart renderer (data qr)
                             (VisualizationAgent._determine_chart_type renderer
                                qr user_query) with
                     | Ok chart_html => (agent_ok chart_html, qr)
                     | Raise e => (agent_failed e, qr)
                     end) = qr) by now destruct (VisualizationAgent._create_chart _ _ _).
    rewrite S. clear S. subst qr. destruct big eqn:Eb; subst big.
    + cbn [set_data result_columns result_row_count truncated data].
      split; [reflexivity|]. split; [reflexivity|]. split; [reflexivity|].
      split; [apply slice_to_prefix|]. split; [discriminate|].
      intros [H0 H1]. unfold slice_to.
      destruct (Z.leb_spec 0 (VisualizationAgent.max_chart_points self)); [|lia].
      rewrite length_firstn. lia.
    + split; [reflexivity|]. split; [reflexivity|]. split; [reflexivity|].
      split; [exists []; now rewrite app_nil_r, Ed|]. split; [reflexivity|].
      apply Z.ltb_ge in Eb. lia.
Qed.

(** X18.  [generate_visualization] changes nothing of the query result
    it is given but [data]: [columns], [row_count] and [truncated] stay,
    and [data] is left as a prefix of what it was.  With no more rows than
    [max_chart_points] the query result is left as it was.  With more rows
    than [max_chart_points] (not negative), [data] is left with exactly
    [max_chart_points] rows; [row_count], if it was the number of rows, is
    then larger than the number of rows in [data]. *)
Theorem generate_visualization_cuts_data
    (self : VisualizationAgent.t) (renderer : VisualizationAgent.Renderer)
    (query_result : QueryResult) (user_query : str) :
  let left := snd (VisualizationAgent.generate_visualization self renderer
                     query_result user_query) in
  let points := VisualizationAgent.max_chart_points self in
  let rows := Z.of_nat (List.length (data query_result)) in
  result_columns left = result_columns query_result /\
  result_row_count left = result_row_count query_result /\
  truncated left = truncated query_result /\
  (exists charted, data query_result = data left ++ charted) /\
  ((rows <= points)%Z -> left = query_result) /\
  ((0 <= points < rows)%Z ->
   Z.of_nat (List.length (data left)) = points /\
   (result_row_count query_result = rows ->
    (Z.of_nat (List.length (data left)) < result_row_count left)%Z)).
Proof.
  destruct (generate_visualization_run self renderer query_result user_query)
    as (H1 & H2 & H3 & H4 & H5 & H6).
  cbv zeta. split; [exact H1|]. split; [exact H2|]. split; [exact H3|].
  split; [exact H4|]. split.
  - intros H. apply H5. apply Z.ltb_ge. exact H.
  - intros H. split; [exact (H6 H)|]. intros Hc. rewrite H2, (H6 H), Hc. lia.
Qed.

Lemma generate_visualization_cuts_data_witness :
  let rows := map (fun i => [("id" : str, of_int (Z.of_nat i))]) (seq 0 5) in
  let query_result :=
    {| data := rows; result_columns := ["id" : str];
       result_row_count := 5; truncated := false |} in
  let renderer :=
    {| VisualizationAgent.recommend_chart := fun _ _ => Raise "no model";
       VisualizationAgent._create_chart := fun _ _ => Ok ("<div>" : str) |} in
  let left :=
    snd (VisualizationAgent.generate_visualization
           {| VisualizationAgent.max_chart_points := 2 |} renderer
           query_result "rows of t") in
  result_row_count left = 5%Z /\
  Z.of_nat (List.length (data left)) = 2%Z /\
  (Z.of_nat (List.length (data left)) < result_row_count left)%Z.
Proof.
  cbv zeta.
  destruct (generate_visualization_cuts_data
              {| VisualizationAgent.max_chart_points := 2 |}
              {| VisualizationAgent.recommend_chart := fun _ _ => Raise "no model";
                 VisualizationAgent._create_chart := fun _ _ => Ok ("<div>" : str) |}
              {| data := map (fun i => [("id" : str, of_int (Z.of_nat i))]) (seq 0 5);
                 result_columns := ["id" : str];
                 result_row_count := 5; truncated := false |}
              "rows of t")
    as (_ & H2 & _ & _ & _ & H6).
  split; [exact H2|].
  assert (C : (0 <= 2 < 5)%Z) by lia.
  destruct (H6 C) as [Ha Hb]. split; [exact Ha | exact (Hb eq_refl)].
Defined.

(** ** What a run leaves behind *)

(** The agent fails and leaves the candidate, or returns a verdict and
    leaves the candidate with the text of the rewrite. *)
Lemma agent_verdict self q uq :
  (exists e,
     ValidationAgent.validate_query self (Some q) uq =
     (agent_failed e, Some q)) \/
  (exists v limited,
     ValidationAgent.validate_query self (Some q) uq =
       (agent_ok v, Some (set_sql q limited)) /\
     RowLimitEnforcer.add_limit_clause (sql q)
       (ValidationAgent.max_rows self) = Ok limited /\
     is_valid v = safe_to_execute v /\
     (safe_to_execute v = true ->
      errors v = [] /\
      ValidationAgent._check_syntax (sql q) = true /\
      snd (fst (QuerySafetyChecker.validate_query (sql q)
                  (ValidationAgent.allow_destructive self))) = [])).
Proof.
  pose proof (validate_query_run self q uq) as R. cbv zeta in R.
  destruct (RowLimitEnforcer.estimate_result_size (sql q)) as [k|e];
    [|left; now exists e].
  destruct (_ && _).
  - destruct R as (e & _ & R). left. now exists e.
  - destruct R as (v & limited & Ha & R & V & S & E). right.
    exists v, limited. split; [exact R|]. split; [exact Ha|].
    split; [now rewrite V, S|]. rewrite S. intros H.
    destruct (errors v) as [|x l] eqn:Ev; [|discriminate].
    split; [reflexivity|].
    destruct (ValidationAgent._check_syntax (sql q)); [|discriminate].
    cbn [negb app] in E. now split.
Qed.

Lemma executed_sent c text d :
  executed {| DatabaseConnector._schema_cache := c;
              DatabaseConnector.sent :=
                DatabaseConnector.Execute text :: DatabaseConnector.sent d |} =
  text :: executed d.
Proof. reflexivity. Qed.

(** One step of the run, keeping what each agent is known to do. *)
Ltac wp_agent :=
  lazymatch goal with
  | |- post (ChatbotOrchestrator.on_db
               (SchemaAgent.get_schema_context ?e ?uq ?s ?uc)) ?st _ =>
      apply post_on_db; tidy;
      let r := fresh "schema_result" in
      let d' := fresh "d" in
      let E := fresh "E" in
      let Hx := fresh "Hx" in
      let counts := fresh "counts" in
      let Hcs := fresh "Hcounts" in
      destruct (get_schema_context_run e uq s uc (ChatbotOrchestrator.db st))
        as (r & d' & counts & E & Hx & Hcs & _);
      tidy; cbn [ChatbotOrchestrator.db] in E, Hx; rewrite E;
      destruct r as [? ? ?]; tidy
  | |- post (lift_outcome ?o) _ _ =>
      let E := fresh "Egen" in
      apply post_lift; destruct o as [[? ? ?]|?] eqn:E
  | |- post (let '(_, _) :=
               ValidationAgent.validate_query ?self ?x ?uq in _) _ _ =>
      let q := fresh "q" in
      destruct x as [q|];
      [ let v := fresh "v" in
        let limited := fresh "limited" in
        let E := fresh "Eval" in
        let Ha := fresh "Hlimited" in
        let Hv := fresh "Hv" in
        let Hs := fresh "Hs" in
        destruct (agent_verdict self q uq)
          as [(?msg & E) | (v & limited & E & Ha & Hv & Hs)];
        rewrite E
      | cbn [ValidationAgent.validate_query] ]
  | |- post (ChatbotOrchestrator.on_db
               (ExecutionAgent.execute_query ?eng ?self (Some ?q) ?mr)) ?st _ =>
      apply post_on_db; tidy;
      let o := fresh "execution_result" in
      let E := fresh "E" in
      let H := fresh "Hrun" in
      destruct (execute_query_run eng self q mr (ChatbotOrchestrator.db st))
        as (o & E & H);
      cbn [ChatbotOrchestrator.db] in E; rewrite E;
      let Ex := fresh "Eexec" in
      destruct (DatabaseConnector.conn_execute eng (sql q)) as [?rows|?msg] eqn:Ex;
      try rewrite Ex in H;
      [ let res := fresh "res" in
        let dropped := fresh "dropped" in
        destruct H as (res & dropped & -> & ?Hrows & ?Hcount & ?Hcut)
      | subst o ]
  | |- post (let '(_, _) :=
               VisualizationAgent.generate_visualization ?self ?rd ?res ?uq
             in _) _ _ =>
      let H := fresh "Hviz" in
      pose proof (generate_visualization_run self rd res uq) as H;
      cbv zeta in H;
      destruct (VisualizationAgent.generate_visualization self rd res uq)
        as [[? ? ?] ?]; cbn [snd] in H
  | |- _ => wp
  end; tidy.

(** A finished run against [run_detail]. *)
Ltac was_generated :=
  match goal with
  | G : ChatbotOrchestrator.generate_sql _ _ _ = Ok _ |- generated _ _ _ =>
      eexists _, _; split; [exact G | split; reflexivity]
  end.

Ltac was_accepted :=
  match goal with
  | Hs : safe_to_execute ?v = true -> _, E : safe_to_execute ?v = true
    |- accepted _ _ =>
      destruct (Hs E) as (_ & ?Hc & ?Hq); split; [exact Hc | exact Hq]
  end.

Ltac was_limited :=
  match goal with
  | Ha : RowLimitEnforcer.add_limit_clause _ _ = Ok _ |- _ => exact Ha
  end.

Ltac was_executed :=
  first
    [ left; assumption
    | right; eexists _, _; split; [was_generated|]; split; [was_accepted|];
      split; [was_limited|];
      rewrite executed_sent; cbn [sql set_sql];
      match goal with Hx : executed _ = _ ++ executed _ |- _ => rewrite Hx end;
      reflexivity ].

Ltac schema_part :=
  match goal with
  | Hcs : ?counts = [] \/ _ |- exists _, schema_counts _ _ /\ _ =>
      exists counts; split; [exact Hcs|]
  end.

Ltac failed_leaf :=
  schema_part;
  left; split; [reflexivity|]; split; [reflexivity|]; split; [reflexivity|];
  split;
  [ eexists; split;
    [ reflexivity
    | cbn [failure_prefixes existsb];
      rewrite startswith_app, ?orb_true_r; reflexivity ]
  | was_executed ].

Ltac normalize :=
  unfold agent_ok, agent_failed in *;
  cbn [success ar_data error sql set_sql] in *;
  repeat match goal with
         | H : true = false |- _ => discriminate H
         | H : false = true |- _ => discriminate H
         | H : None = Some _ |- _ => discriminate H
         | H : Some _ = None |- _ => discriminate H
         | H : Some ?a = Some ?b |- _ =>
             injection H as H; first [subst a | subst b]
         end.

Ltac success_leaf :=
  schema_part;
  right; split; [reflexivity|]; split; [reflexivity|];
  match goal with
  | Hs : safe_to_execute ?v = true -> _, E : safe_to_execute ?v = true,
    Hv : is_valid ?v = safe_to_execute ?v,
    Ha : RowLimitEnforcer.add_limit_clause _ _ = Ok ?limited,
    Hrows : ?rows = data ?res ++ ?dropped,
    Hcount : result_row_count ?res = _,
    Eexec : DatabaseConnector.conn_execute _ _ = Ok ?rows,
    G : ChatbotOrchestrator.generate_sql _ _ _ = Ok {| ar_data := Some ?q |}
    |- _ =>
      destruct (Hs E) as (?He & ?Hc & ?Hq);
      lazymatch goal with
      | Hviz : result_columns ?left = result_columns res /\ _ |- _ =>
          destruct Hviz as (_ & ?Hrc & _ & (?charted & ?Hch) & _ & ?Hpts);
          match goal with
          | Hch' : data res = data left ++ ?ch |- _ =>
              exists q, limited, v, rows, left, dropped, ch
          end
      | |- _ =>
          exists q, limited, v, rows, res, dropped, (@nil (list (str * str)))
      end
  end.

Ltac arithmetic_facts :=
  unfold ChatbotOrchestrator.visualization_agent in *;
  cbn [VisualizationAgent.max_chart_points] in *;
  repeat match goal with
         | H : (_ <? _)%Z = true |- _ => apply Z.ltb_lt in H
         | H : (_ <? _)%Z = false |- _ => apply Z.ltb_ge in H
         end.

Ltac within_limit :=
  let Hm := fresh "Hm" in
  let Hb := fresh "Hb" in
  intros Hm;
  match goal with
  | Hcut : if (0 <? ?m)%Z then data ?res = _ /\ _ else _,
    Hcount : result_row_count ?res = _ |- _ =>
      assert (Hb : (0 <? m)%Z = true) by (now apply Z.ltb_lt);
      rewrite Hb in Hcut; destruct Hcut as [Hcut _];
      rewrite Hcut, length_firstn in Hcount; arithmetic_facts; lia
  end.

Ltac success_facts :=
  split; [was_generated|];
  split; [split; assumption|];
  split; [was_limited|];
  split; [reflexivity|];
  split; [reflexivity|];
  split; [assumption|];
  split; [match goal with Hv : is_valid _ = _ |- _ => rewrite Hv end;
          assumption|];
  split; [assumption|];
  split; [rewrite executed_sent;
          match goal with
          | Hx : executed _ = _ ++ executed _ |- _ => rewrite Hx
          end;
          reflexivity|];
  split; [assumption|];
  split; [reflexivity|];
  split; [first [ rewrite app_nil_r; assumption
                | match goal with
                  | Hch : data _ = data _ ++ _ |- _ => rewrite <- Hch
                  end; assumption ]|];
  split; [first [ rewrite app_nil_r; assumption
                | match goal with
                  | Hch : data _ = data _ ++ _,
                    Hrc : result_row_count _ = result_row_count _ |- _ =>
                      rewrite Hrc, <- Hch
                  end; assumption ]|];
  split; [within_limit|];
  split; [first [discriminate | intros _; reflexivity]|];
  split;
  [ first
      [ discriminate
      | intros _ ?Hp;
        first
          [ match goal with
            | Hpts : _ -> Z.of_nat (List.length (data _)) = _ |- _ =>
                apply Hpts
            end; arithmetic_facts; lia
          | arithmetic_facts; lia ] ]
  | first
      [ intros ?Hn; exfalso; apply Hn; reflexivity
      | intros _; split; [reflexivity | arithmetic_facts; lia] ] ].

Lemma process_query_detail settings world uq uid max_rows viz d :
  post (ChatbotOrchestrator.process_query settings world uq uid max_rows viz)
    (start d) (run_detail settings world uq max_rows viz d).
Proof.
  unfold ChatbotOrchestrator.process_query, ChatbotOrchestrator.pipeline.
  repeat wp_agent.
  all: unfold run_detail; tidy; normalize.
  all: try solve [failed_leaf].
  all: success_leaf; success_facts.
Qed.


Lemma answering_ascii text uq q :
  isascii text = true -> generated (answering text) uq q ->
  isascii (sql q) = true.
Proof.
  intros H (context & answer & Hg & _ & Hq).
  cbn [answering ChatbotOrchestrator.generate_sql] in Hg.
  injection Hg as <-. cbn [ar_data agent_ok] in Hq. injection Hq as <-.
  exact H.
Qed.

(** X19.  What a run passes to [conn.execute], when the generation agent
    answers in ASCII.  Besides the row counts of the schema stage, a run
    of [process_query] executes nothing, or exactly one text: the text the
    generation agent answered with, rewritten by [add_limit_clause] for
    [max_query_rows]; and that answer passed the syntax check and got no
    error from the safety check. *)
Theorem only_validated_sql_executed
    (settings : Config.Settings)
    (world : ChatbotOrchestrator.Collaborators)
    (user_query user_id : str) (max_rows : option Z)
    (include_visualization : bool) (d : DatabaseConnector.t) :
  (forall q, generated world user_query q -> isascii (sql q) = true) ->
  let run :=
    ChatbotOrchestrator.process_query settings world user_query user_id
      max_rows include_visualization (start d) in
  exists counts,
    schema_counts world counts /\
    (executed (ChatbotOrchestrator.db (snd run)) = counts ++ executed d \/
     exists q text,
       generated world user_query q /\ accepted settings (sql q) /\
       RowLimitEnforcer.add_limit_clause (sql q)
         (Config.max_query_rows settings) = Ok text /\
       executed (ChatbotOrchestrator.db (snd run)) =
       text :: counts ++ executed d).
Proof.
  intros _ run.
  destruct (process_query_detail settings world user_query user_id max_rows
              include_visualization d)
    as (counts & Hcs &
        [(_ & _ & _ & _ & H) |
         (_ & _ & q & text & v & rows & res & dropped & charted & Hg & Ha &
          Hl & _ & _ & _ & _ & _ & Hx & _)]).
  - exists counts. split; [exact Hcs | exact H].
  - exists counts. split; [exact Hcs|]. right. exists q, text.
    split; [exact Hg|]. split; [exact Ha|]. split; [exact Hl | exact Hx].
Qed.

Lemma only_validated_sql_executed_witness :
  let run :=
    ChatbotOrchestrator.process_query defaults (answering "SELECT id FROM t")
      "all ids" "u1" None true (start DatabaseConnector.init) in
  executed (ChatbotOrchestrator.db (snd run)) =
    [ String "S" "ELECT id FROM t" ++ String "010" "LIMIT 10000" : str;
      "SELECT COUNT(*) FROM t" : str ] /\
  exists counts,
    schema_counts (answering "SELECT id FROM t") counts /\
    (executed (ChatbotOrchestrator.db (snd run)) =
       counts ++ executed DatabaseConnector.init \/
     exists q text,
       generated (answering "SELECT id FROM t") "all ids" q /\
       accepted defaults (sql q) /\
       RowLimitEnforcer.add_limit_clause (sql q)
         (Config.max_query_rows defaults) = Ok text /\
       executed (ChatbotOrchestrator.db (snd run)) =
       text :: counts ++ executed DatabaseConnector.init).
Proof.
  cbv zeta. split; [vm_compute; reflexivity|].
  apply (only_validated_sql_executed defaults (answering "SELECT id FROM t")
           "all ids" "u1" None true DatabaseConnector.init).
  intros q. now apply answering_ascii.
Defined.

(** X20.  A response with status [SUCCESS] is complete, when the
    generation agent answers in ASCII: it has no error message; its [sql]
    is the generated query with the text [add_limit_clause] returned for
    it; its validation has no error and is valid and safe; after the row
    counts of the schema stage that text is the one text the run had
    executed, the database answered it with rows, and the response's
    result holds a prefix of those rows. *)
Theorem success_response_complete
    (settings : Config.Settings)
    (world : ChatbotOrchestrator.Collaborators)
    (user_query user_id : str) (max_rows : option Z)
    (include_visualization : bool) (d : DatabaseConnector.t) :
  (forall q, generated world user_query q -> isascii (sql q) = true) ->
  let run :=
    ChatbotOrchestrator.process_query settings world user_query user_id
      max_rows include_visualization (start d) in
  let answer := ChatbotOrchestrator.response (snd run) in
  ChatbotOrchestrator.status answer = SUCCESS ->
  ChatbotOrchestrator.error_message answer = None /\
  exists q text v rows res rest counts,
    generated world user_query q /\
    RowLimitEnforcer.add_limit_clause (sql q)
      (Config.max_query_rows settings) = Ok text /\
    ChatbotOrchestrator.response_sql answer = Some (set_sql q text) /\
    ChatbotOrchestrator.validation answer = Some v /\
    errors v = [] /\ is_valid v = true /\ safe_to_execute v = true /\
    schema_counts world counts /\
    executed (ChatbotOrchestrator.db (snd run)) =
      text :: counts ++ executed d /\
    DatabaseConnector.conn_execute (ChatbotOrchestrator.engine world) text =
      Ok rows /\
    ChatbotOrchestrator.result answer = Some res /\
    rows = data res ++ rest.
Proof.
  intros _ run answer Hs.
  destruct (process_query_detail settings world user_query user_id max_rows
              include_visualization d)
    as (counts & Hcs &
        [(Hf & _) |
         (_ & He & q & text & v & rows & res & dropped & charted & Hg & _ &
          Hl & Hq & Hv & H1 & H2 & H3 & Hx & Hr & Hres & Hrows & _)]).
  - fold run in Hf. fold answer in Hf. rewrite Hf in Hs. discriminate.
  - split; [exact He|].
    exists q, text, v, rows, res, (charted ++ dropped), counts.
    split; [exact Hg|]. split; [exact Hl|]. split; [exact Hq|].
    split; [exact Hv|].
    split; [exact H1|]. split; [exact H2|]. split; [exact H3|].
    split; [exact Hcs|].
    split; [exact Hx|]. split; [exact Hr|]. split; [exact Hres|].
    now rewrite app_assoc.
Qed.

Lemma success_response_complete_witness :
  let run :=
    ChatbotOrchestrator.process_query defaults (answering "SELECT id FROM t")
      "all ids" "u1" None true (start DatabaseConnector.init) in
  let answer := ChatbotOrchestrator.response (snd run) in
  ChatbotOrchestrator.status answer = SUCCESS /\
  ChatbotOrchestrator.error_message answer = None.
Proof.
  cbv zeta. split; [vm_compute; reflexivity|].
  apply (success_response_complete defaults (answering "SELECT id FROM t")
           "all ids" "u1" None true DatabaseConnector.init).
  - intros q. now apply answering_ascii.
  - vm_compute. reflexivity.
Defined.

(** X21.  A response that is no [SUCCESS] is a failure without results:
    its status is [FAILED], it has no result and no chart, and its error
    message starts with the name of the stage that failed. *)
Theorem failed_response_shape
    (settings : Config.Settings)
    (world : ChatbotOrchestrator.Collaborators)
    (user_query user_id : str) (max_rows : option Z)
    (include_visualization : bool) (d : DatabaseConnector.t) :
  let run :=
    ChatbotOrchestrator.process_query settings world user_query user_id
      max_rows include_visualization (start d) in
  let answer := ChatbotOrchestrator.response (snd run) in
  ChatbotOrchestrator.status answer <> SUCCESS ->
  ChatbotOrchestrator.status answer = FAILED /\
  ChatbotOrchestrator.result answer = None /\
  ChatbotOrchestrator.chart_html answer = None /\
  exists msg,
    ChatbotOrchestrator.error_message answer = Some msg /\
    existsb (startswith msg) failure_prefixes = true.
Proof.
  intros run answer Hs.
  destruct (process_query_detail settings world user_query user_id max_rows
              include_visualization d)
    as (counts & _ & [(Hf & Hr & Hc & Hm & _) | (Hok & _)]).
  - split; [exact Hf|]. split; [exact Hr|]. split; [exact Hc | exact Hm].
  - contradiction.
Qed.

Lemma failed_response_shape_witness :
  let run :=
    ChatbotOrchestrator.process_query defaults (answering "DROP TABLE users")
      "drop the users" "u1" None true (start DatabaseConnector.init) in
  let answer := ChatbotOrchestrator.response (snd run) in
  ChatbotOrchestrator.status answer = FAILED /\
  ChatbotOrchestrator.result answer = None /\
  ChatbotOrchestrator.chart_html answer = None /\
  exists msg,
    ChatbotOrchestrator.error_message answer = Some msg /\
    existsb (startswith msg) failure_prefixes = true.
Proof.
  cbv zeta.
  apply (failed_response_shape defaults (answering "DROP TABLE users")
           "drop the users" "u1" None true DatabaseConnector.init).
  vm_compute. discriminate.
Defined.

(** X22.  The rows of a [SUCCESS] response.  [row_count] is at most the
    effective row limit when that is positive, and [data] never holds more
    rows than [row_count] says.  Without visualization [row_count] is the
    number of rows in [data].  With visualization, when [row_count]
    exceeds [max_chart_points], the response's [data] is left with
    [max_chart_points] rows: the cut the visualization agent makes for the
    chart shows in the response, while [row_count] still counts the rows
    executed.  A chart is only present when visualization was asked for
    and there were rows. *)
Theorem success_response_rows
    (settings : Config.Settings)
    (world : ChatbotOrchestrator.Collaborators)
    (user_query user_id : str) (max_rows : option Z)
    (include_visualization : bool) (d : DatabaseConnector.t) :
  let run :=
    ChatbotOrchestrator.process_query settings world user_query user_id
      max_rows include_visualization (start d) in
  let answer := ChatbotOrchestrator.response (snd run) in
  let m := ChatbotOrchestrator.effective_max_rows settings max_rows in
  let points := Config.max_chart_points settings in
  ChatbotOrchestrator.status answer = SUCCESS ->
  exists res,
    ChatbotOrchestrator.result answer = Some res /\
    ((0 < m)%Z -> (result_row_count res <= m)%Z) /\
    (Z.of_nat (List.length (data res)) <= result_row_count res)%Z /\
    (include_visualization = false ->
     result_row_count res = Z.of_nat (List.length (data res))) /\
    (include_visualization = true ->
     (0 <= points < result_row_count res)%Z ->
     Z.of_nat (List.length (data res)) = points) /\
    (ChatbotOrchestrator.chart_html answer <> None ->
     include_visualization = true /\ (0 < result_row_count res)%Z).
Proof.
  intros run answer m points Hs.
  destruct (process_query_detail settings world user_query user_id max_rows
              include_visualization d)
    as (counts & _ &
        [(Hf & _) |
         (_ & _ & q & text & v & rows & res & dropped & charted & _ & _ & _ &
          _ & _ & _ & _ & _ & _ & _ & Hres & _ & Hcount & Hm & Hv & Hp & Hc)]).
  - fold run in Hf. fold answer in Hf. rewrite Hf in Hs. discriminate.
  - exists res. split; [exact Hres|]. split; [exact Hm|].
    split; [rewrite Hcount, length_app; lia|].
    split; [intros H; rewrite Hcount, (Hv H), app_nil_r; reflexivity|].
    split; [exact Hp | exact Hc].
Qed.

Lemma success_response_rows_witness :
  let run :=
    ChatbotOrchestrator.process_query defaults (answering "SELECT id FROM t")
      "all ids" "u1" (Some 3%Z) false (start DatabaseConnector.init) in
  let answer := ChatbotOrchestrator.response (snd run) in
  option_map result_row_count (ChatbotOrchestrator.result answer) = Some 3%Z /\
  exists res,
    ChatbotOrchestrator.result answer = Some res /\
    ((0 < 3)%Z -> (result_row_count res <= 3)%Z) /\
    (Z.of_nat (List.length (data res)) <= result_row_count res)%Z /\
    (false = false ->
     result_row_count res = Z.of_nat (List.length (data res))) /\
    (false = true ->
     (0 <= 1000 < result_row_count res)%Z ->
     Z.of_nat (List.length (data res)) = 1000%Z) /\
    (ChatbotOrchestrator.chart_html answer <> None ->
     false = true /\ (0 < result_row_count res)%Z).
Proof.
  cbv zeta. split; [vm_compute; reflexivity|].
  apply (success_response_rows defaults (answering "SELECT id FROM t")
           "all ids" "u1" (Some 3%Z) false DatabaseConnector.init).
  vm_compute. reflexivity.
Defined.

(** X23.  Without [allow_destructive_queries], when every answer of the
    generation agent is written in ASCII and has [DROP TABLE], [TRUNCATE]
    or [DELETE FROM] standing as whole words, the run executes nothing but
    the row counts of the schema stage, and the response is [FAILED]. *)
Theorem destructive_sql_never_executed
    (settings : Config.Settings)
    (world : ChatbotOrchestrator.Collaborators)
    (user_query user_id : str) (max_rows : option Z)
    (include_visualization : bool) (d : DatabaseConnector.t) :
  Config.allow_destructive_queries settings = false ->
  (forall q, generated world user_query q ->
     isascii (sql q) = true /\
     (word_occurrence "DROP TABLE" (sql q) \/
      word_occurrence "TRUNCATE" (sql q) \/
      word_occurrence "DELETE FROM" (sql q))) ->
  let run :=
    ChatbotOrchestrator.process_query settings world user_query user_id
      max_rows include_visualization (start d) in
  (exists counts,
     schema_counts world counts /\
     executed (ChatbotOrchestrator.db (snd run)) = counts ++ executed d) /\
  ChatbotOrchestrator.status (ChatbotOrchestrator.response (snd run)) = FAILED.
Proof.
  intros Hallow Hgen run.
  assert (No : forall q, generated world user_query q ->
                 accepted settings (sql q) -> False).
  { intros q Hg (_ & Ha). rewrite Hallow in Ha.
    destruct (safety_blocks _ (proj2 (Hgen q Hg)))
      as (errs & warns & E & Hne).
    rewrite E in Ha. cbn [fst snd] in Ha. now apply Hne. }
  destruct (process_query_detail settings world user_query user_id max_rows
              include_visualization d)
    as (counts & Hcs &
        [(Hf & _ & _ & _ & [Hx | (q & text & Hg & Ha & _)]) |
         (_ & _ & q & text & v & rows & res & dropped & charted & Hg & Ha & _)]).
  - split; [|exact Hf]. exists counts. split; [exact Hcs | exact Hx].
  - destruct (No q Hg Ha).
  - destruct (No q Hg Ha).
Qed.

Lemma destructive_sql_never_executed_witness :
  let run :=
    ChatbotOrchestrator.process_query defaults (answering "DROP TABLE users")
      "drop the users" "u1" None true (start DatabaseConnector.init) in
  executed (ChatbotOrchestrator.db (snd run)) =
    ["SELECT COUNT(*) FROM t" : str] /\
  ChatbotOrchestrator.status (ChatbotOrchestrator.response (snd run)) = FAILED.
Proof.
  cbv zeta. split; [vm_compute; reflexivity|].
  apply (destructive_sql_never_executed defaults
           (answering "DROP TABLE users") "drop the users" "u1" None true
           DatabaseConnector.init).
  - reflexivity.
  - intros q Hq. split; [exact (answering_ascii "DROP TABLE users" _ _ eq_refl Hq)|].
    destruct Hq as (context & answer & Hg & _ & Hq).
    cbn [answering ChatbotOrchestrator.generate_sql] in Hg.
    injection Hg as <-. cbn [ar_data agent_ok] in Hq. injection Hq as <-.
    left. exists [], (list_ascii_of_string "DROP TABLE"),
                 (list_ascii_of_string " users").
    repeat split; vm_compute; reflexivity.
Defined.

(** ** Building the connector *)

Lemma validate_config_snowflake settings :
  Config.validate_config settings SNOWFLAKE =
  forallb Config.truthy
    [ Config.vstr (Config.snowflake_account settings);
      Config.vstr (Config.snowflake_user settings);
      Config.vstr (Config.snowflake_password settings);
      Config.vstr (Config.snowflake_database settings) ].
Proof. reflexivity. Qed.

Lemma validate_config_databricks settings :
  Config.validate_config settings DATABRICKS =
  forallb Config.truthy
    [ Config.vstr (Config.databricks_server_hostname settings);
      Config.vstr (Config.databricks_http_path settings);
      Config.vstr (Config.databricks_token settings) ].
Proof. reflexivity. Qed.

(** X24.  [_initialize_database] builds a connector exactly when the type
    is Snowflake or Databricks and [validate_config] accepts the settings
    for it; the connector's own check of its required fields then never
    fails, and the Snowflake connector so built can always write its
    connection string.  For PostgreSQL and MySQL it always raises. *)
Theorem initialize_database_outcomes
    (settings : Config.Settings) (db_type : option DatabaseType) :
  let chosen :=
    match db_type with
    | Some t => t
    | None => Config.default_database_type settings
    end in
  match ChatbotOrchestrator._initialize_database settings db_type with
  | Ok (ChatbotOrchestrator.Snowflake c) =>
      chosen = SNOWFLAKE /\ Config.validate_config settings chosen = true /\
      exists text, SnowflakeConnector.get_connection_string c = Ok text
  | Ok (ChatbotOrchestrator.Databricks c) =>
      chosen = DATABRICKS /\ Config.validate_config settings chosen = true
  | Raise e =>
      (Config.validate_config settings chosen = false /\
       startswith e "Invalid configuration for database type: " = true) \/
      ((chosen = POSTGRESQL \/ chosen = MYSQL) /\
       startswith e "Unsupported database type: " = true)
  end.
Proof.
  cbv zeta. unfold ChatbotOrchestrator._initialize_database.
  set (chosen := match db_type with
                 | Some t => t
                 | None => Config.default_database_type settings
                 end).
  destruct (Config.validate_config settings chosen) eqn:V; cbn [negb].
  - destruct chosen eqn:C.
    + rewrite validate_config_snowflake in V.
      unfold SnowflakeConnector.init.
      change (forallb Config.truthy _) with
        (forallb Config.truthy
           [ Config.vstr (Config.snowflake_account settings);
             Config.vstr (Config.snowflake_user settings);
             Config.vstr (Config.snowflake_password settings);
             Config.vstr (Config.snowflake_database settings) ]).
      rewrite V. cbn [negb]. split; [reflexivity|]. split; [reflexivity|].
      unfold SnowflakeConnector.get_connection_string.
      change (SnowflakeConnector.password _) with
        (Config.vstr (Config.snowflake_password settings)).
      destruct (Config.snowflake_password settings) as [p|].
      * cbn [Config.vstr option_map]. eexists. reflexivity.
      * cbn in V. rewrite !andb_false_r in V. discriminate.
    + rewrite validate_config_databricks in V.
      unfold DatabricksConnector.init.
      change (forallb Config.truthy _) with
        (forallb Config.truthy
           [ Config.vstr (Config.databricks_server_hostname settings);
             Config.vstr (Config.databricks_http_path settings);
             Config.vstr (Config.databricks_token settings) ]).
      rewrite V. cbn [negb]. split; reflexivity.
    + right. split; [now left | apply startswith_app].
    + right. split; [now right | apply startswith_app].
  - left. split; [reflexivity | apply startswith_app].
Qed.


(** ** More of the safety check *)

Lemma search_drop_database text :
  word_occurrence "DROP DATABASE" text ->
  re_search "\bDROP\s+DATABASE\b" (upper text) true <> None.
Proof.
  apply (search_two_words "DROP" "DATABASE").
  - vm_compute. reflexivity.
  - intros prev post Hp. now apply (boundary_left prev "D"%char).
  - intros post Hq. now apply (boundary_right "E"%char).
  - intros c s x E. injection E as <- _. reflexivity.
Qed.

Lemma search_drop_schema text :
  word_occurrence "DROP SCHEMA" text ->
  re_search "\bDROP\s+SCHEMA\b" (upper text) true <> None.
Proof.
  apply (search_two_words "DROP" "SCHEMA").
  - vm_compute. reflexivity.
  - intros prev post Hp. now apply (boundary_left prev "D"%char).
  - intros post Hq. now apply (boundary_right "A"%char).
  - intros c s x E. injection E as <- _. reflexivity.
Qed.

Lemma destructive_issue_reported pattern text :
  In pattern QuerySafetyChecker.DESTRUCTIVE_KEYWORDS ->
  re_search pattern (upper text) true <> None ->
  exists errs warns,
    QuerySafetyChecker.validate_query text false = (false, errs, warns) /\
    In ("Destructive operation detected: " ++ pattern) errs.
Proof.
  intros Hin Hs. unfold QuerySafetyChecker.validate_query,
    QuerySafetyChecker.is_destructive.
  pose proof (scan_member _ _ "Destructive operation detected: " _ Hin Hs) as M.
  set (issues := QuerySafetyChecker.scan
                   QuerySafetyChecker.DESTRUCTIVE_KEYWORDS _ _) in *.
  destruct (QuerySafetyChecker.check_dangerous_patterns text) as [hd dw].
  destruct issues as [|i rest]; [contradiction|].
  cbn [List.length Nat.ltb Nat.leb andb negb app].
  set (e1 := match strip text with [] => _ | _ => _ end).
  set (e2 := if (1 <? count text ";")%Z then _ else _).
  assert (H2 : In ("Destructive operation detected: " ++ pattern) e2).
  { subst e2 e1. destruct (1 <? count text ";")%Z, (strip text);
      rewrite ?app_comm_cons; repeat (apply in_or_app; left); exact M. }
  exists e2, (if hd then [] ++ dw else []).
  destruct e2; [contradiction | split; [reflexivity | exact H2]].
Qed.

(** X25.  In an ASCII text, [DROP DATABASE] and [DROP SCHEMA] standing
    as whole words are blocked as well when destructive queries are not
    allowed: the safety check is not safe and reports the finding of their
    pattern. *)
Theorem drop_database_schema_blocked (text : str) :
  isascii text = true ->
  word_occurrence "DROP DATABASE" text \/ word_occurrence "DROP SCHEMA" text ->
  exists errs warns,
    QuerySafetyChecker.validate_query text false = (false, errs, warns) /\
    existsb destructive_related errs = true.
Proof.
  intros _ H.
  assert (F : exists pattern errs warns,
            QuerySafetyChecker.validate_query text false = (false, errs, warns) /\
            In ("Destructive operation detected: " ++ pattern) errs).
  { destruct H as [H|H].
    - exists ("\bDROP\s+DATABASE\b" : str).
      apply destructive_issue_reported;
        [cbn; tauto | now apply search_drop_database].
    - exists ("\bDROP\s+SCHEMA\b" : str).
      apply destructive_issue_reported;
        [cbn; tauto | now apply search_drop_schema]. }
  destruct F as (pattern & errs & warns & E & Hin).
  exists errs, warns. split; [exact E|].
  apply existsb_exists. eexists. split; [exact Hin|].
  unfold destructive_related.
  change (list_ascii_of_string "Destructive operation detected: ")
    with ("Destructive operation detected" ++ ": ").
  rewrite <- app_assoc. apply startswith_app.
Qed.

Lemma drop_database_schema_blocked_witness :
  exists errs warns,
    QuerySafetyChecker.validate_query "drop schema sales" false =
      (false, errs, warns) /\
    existsb destructive_related errs = true.
Proof.
  apply (drop_database_schema_blocked "drop schema sales");
    [reflexivity|].
  right. exists [], (list_ascii_of_string "drop schema"),
                (list_ascii_of_string " sales").
  repeat split; vm_compute; reflexivity.
Defined.

(** X26.  The two errors of the safety check that no setting lifts, for
    an ASCII text.  Whatever [allow_destructive] says, the check reports
    [Multiple SQL statements not allowed] exactly for the texts with more
    than one semicolon (one semicolon passes), and [Empty SQL query]
    exactly for the blank texts; the check is safe exactly when it reports
    no error, so either makes the text unsafe. *)
Theorem statement_errors (text : str) (allow : bool) :
  isascii text = true ->
  let verdict := QuerySafetyChecker.validate_query text allow in
  (In ("Multiple SQL statements not allowed" : str) (snd (fst verdict)) <->
   (1 < count text ";")%Z) /\
  (In ("Empty SQL query" : str) (snd (fst verdict)) <-> strip text = []) /\
  (fst (fst verdict) = true <-> snd (fst verdict) = []).
Proof.
  intros _. cbv zeta. unfold QuerySafetyChecker.validate_query.
  pose proof (scan_prefix QuerySafetyChecker.DESTRUCTIVE_KEYWORDS (upper text)
                "Destructive operation detected: ") as Hi.
  unfold QuerySafetyChecker.is_destructive.
  set (issues := QuerySafetyChecker.scan
                   QuerySafetyChecker.DESTRUCTIVE_KEYWORDS _ _) in *.
  destruct (QuerySafetyChecker.check_dangerous_patterns text) as [hd dw].
  cbn [fst snd app].
  assert (N1 : ~ In ("Multiple SQL statements not allowed" : str) issues).
  { intros H. apply Hi in H as (p & _ & H).
    cbn [list_ascii_of_string app] in H. discriminate. }
  assert (N2 : ~ In ("Empty SQL query" : str) issues).
  { intros H. apply Hi in H as (p & _ & H).
    cbn [list_ascii_of_string app] in H. discriminate. }
  set (first := if (0 <? List.length issues)%nat && negb allow
                then issues else []).
  assert (F1 : ~ In ("Multiple SQL statements not allowed" : str) first)
    by (subst first; destruct (_ && _); [exact N1 | exact (fun H => H)]).
  assert (F2 : ~ In ("Empty SQL query" : str) first)
    by (subst first; destruct (_ && _); [exact N2 | exact (fun H => H)]).
  split; [|split].
  - destruct (Z.ltb_spec 1 (count text ";")) as [L|L];
      destruct (strip text); split; intros H; try exact L; try lia;
      rewrite ?in_app_iff in *; cbn [In] in *;
      try (right; left; reflexivity);
      repeat match goal with
             | H : _ \/ _ |- _ => destruct H
             | H : False |- _ => contradiction
             end; try contradiction; try discriminate.
  - destruct (Z.ltb_spec 1 (count text ";")) as [L|L];
      destruct (strip text); split; intros H; try reflexivity;
      try discriminate;
      rewrite ?in_app_iff in *; cbn [In] in *;
      try (left; right; left; reflexivity);
      try (right; left; reflexivity);
      repeat match goal with
             | H : _ \/ _ |- _ => destruct H
             | H : False |- _ => contradiction
             end; try contradiction; try discriminate.
  - match goal with |- (List.length ?l =? 0)%nat = true <-> _ =>
      destruct l; split; intros H; try reflexivity; discriminate
    end.
Qed.

Lemma statement_errors_witness :
  let verdict := QuerySafetyChecker.validate_query "SELECT 1; SELECT 2;" true in
  fst (fst verdict) = false /\
  (In ("Multiple SQL statements not allowed" : str) (snd (fst verdict)) <->
   (1 < count "SELECT 1; SELECT 2;" ";")%Z) /\
  (In ("Empty SQL query" : str) (snd (fst verdict)) <->
   strip "SELECT 1; SELECT 2;" = []) /\
  (fst (fst verdict) = true <-> snd (fst verdict) = []).
Proof.
  cbv zeta. split; [vm_compute; reflexivity|].
  apply (statement_errors "SELECT 1; SELECT 2;" true). reflexivity.
Defined.

(** ** Validating twice *)

(** X27.  With a positive [max_rows], validation of a query written in
    ASCII leaves a query whose text a second validation does not change;
    this covers the validation that fails on a number [int] or [str]
    refuses, which leaves the query as it was. *)
Theorem validate_query_stable
    (self : ValidationAgent.t) (q : SQLQuery) (uq uq' : str) :
  isascii (sql q) = true ->
  (0 < ValidationAgent.max_rows self)%Z ->
  snd (ValidationAgent.validate_query self
         (snd (ValidationAgent.validate_query self (Some q) uq)) uq') =
  snd (ValidationAgent.validate_query self (Some q) uq).
Proof.
  intros _ Hn.
  destruct (agent_verdict self q uq)
    as [(e & E) | (v & limited & E & Ha & _)]; rewrite E; cbn [snd].
  - pose proof (validate_query_run self q uq') as R. cbv zeta in R.
    pose proof (validate_query_run self q uq) as R0. cbv zeta in R0.
    rewrite E in R0.
    destruct (RowLimitEnforcer.estimate_result_size (sql q)) as [k|msg].
    + destruct (_ && _).
      * destruct R as (e' & _ & R). now rewrite R.
      * destruct R0 as (v & limited & _ & R0 & _). discriminate.
    + now rewrite R.
  - destruct (add_limit_clause_first (sql q) _ limited Hn Ha)
      as (m & Em & Hl & _ & Hk).
    pose proof (validate_query_run self (set_sql q limited) uq') as R.
    cbv zeta in R. cbn [sql set_sql] in R.
    rewrite (estimate_some _ _ Em), (to_int_ok _ Hl) in R.
    pose proof (int_value_nonneg (RowLimitEnforcer.group1 m)) as Hm.
    destruct (Z.eqb_spec (int_value (RowLimitEnforcer.group1 m)) (-1));
      [lia|].
    destruct (Z.ltb_spec (ValidationAgent.max_rows self)
                (int_value (RowLimitEnforcer.group1 m))); [lia|].
    cbn [orb andb] in R.
    destruct R as (v' & limited' & Ha' & R & _).
    rewrite (add_limit_clause_keep _ _ _ Em Hl Hk) in Ha'.
    injection Ha' as <-. rewrite R. reflexivity.
Qed.

Lemma validate_query_stable_witness :
  let self := {| ValidationAgent.allow_destructive := false;
                 ValidationAgent.max_rows := 1000 |} in
  let q := {| sql := "SELECT * FROM users LIMIT 5000;"; explanation := None;
              tables_used := []; estimated_rows := None;
              confidence_score := None |} in
  snd (ValidationAgent.validate_query self
         (snd (ValidationAgent.validate_query self (Some q) "all users"))
         "again") =
  snd (ValidationAgent.validate_query self (Some q) "all users").
Proof.
  cbv zeta.
  apply (validate_query_stable
           {| ValidationAgent.allow_destructive := false;
              ValidationAgent.max_rows := 1000 |});
    reflexivity.
Defined.
